(** * youqu_imagecenter_rpc: the RGB region matcher and the polling controller

    A shallow embedding of [youqu_imagecenter_rpc/__init__.py]:
    - [PyNum]: the Python numbers the code computes with (unbounded [int],
      IEEE binary64 [float] on the Standard Library's [SpecFloat]), with
      true division, mixed addition, [int()] and the comparison operators;
    - [prog]: programs over an interface of external calls, used for the
      [random] module and for the clock, the screen capture, the file
      system and the matching service;
    - [ImageCenterByRGB]: [_check_match], [_pre_random_point],
      [_pre_random_match] and [image_center_by_rgb];
    - [ImageCenter]: [_match_image_by_opencv] and [find_image];
    - [exec], [meets]: runs over any interface, and what holds of every run
      of a program, whatever the environment answers;
    - [ImageCenterAux]: [find_image_color], [img_exists] and [get_during],
      over the interface [auxE] that extends the one of [ImageCenter].

    The definitions come first; the facts follow: the number model
    ([PyNumFacts]), loops and runs, the region matcher ([RGBFacts],
    [RegionMatcher]), the sampler ([SamplerFacts], [Sampling]) and the
    polling controller ([PollingFacts], [PollingController]); then the edge
    cases of the region matcher ([MatcherEdges], [MatcherRates]), the calls
    of a matching call and of a search in every environment ([Logic],
    [ObservedFacts], [FindImageFacts], [ServiceCalls]), the remaining
    methods ([AuxFacts], [ColorFacts], [DuringFacts], [AuxMethods],
    [During]), the files and errors of a matching call ([FilesFacts],
    [ServiceErrors]) and the calls of a search without a match
    ([ExhaustionFacts], [SearchFacts], [PollingExhausted]). *)

From Stdlib Require Import ZArith List Bool Lia String QArith FinFun.
From Stdlib Require Import Floats.SpecFloat.
From Stdlib Require Import DecimalString.
Import ListNotations.
Local Open Scope Z_scope.

(** ** Exceptions and results *)

(** The exceptions the modelled code can raise or let through.
    [TemplateElementNotFound] carries the [args] of the exception object;
    [EnvironmentError] is Python 3's other name for [OSError]. *)
Inductive exn : Type :=
| IndexError
| ZeroDivisionError
| OverflowError
| ValueError (msg : string)
| EasyProcessError
| OSError (msg : string)
| TemplateElementNotFound (args : list string)
| OtherException (name : string).

(** A computation that returns a value or raises. *)
Definition res (A : Type) : Type := (exn + A)%type.

Definition ok {A} (a : A) : res A := inr a.
Definition throw {A} (e : exn) : res A := inl e.

Definition rbind {A B} (c : res A) (f : A -> res B) : res B :=
  match c with
  | inl e => inl e
  | inr a => f a
  end.

Declare Scope res_scope.
Delimit Scope res_scope with res.
Notation "x <- c ;; k" := (rbind c (fun x => k))
  (at level 61, c at next level, right associativity) : res_scope.

(** ** Python numbers *)

Module PyNum.

(** Python's [float] is IEEE 754 binary64. *)
Definition prec : Z := 53.
Definition emax : Z := 1024.
Definition float : Type := spec_float.

(** A number as the code can hold one: [rate], [pause], [timeout] and
    [max_match_number] are annotated [Union[float, int]]. *)
Inductive num : Type :=
| PyInt (z : Z)
| PyFloat (f : float).

Definition f_one : float := S754_finite false 4503599627370496 (-52).
Definition f_half : float := S754_finite false 4503599627370496 (-53).

(** An integer as an unrounded binary float with exponent 0. *)
Definition raw_of_int (z : Z) : float :=
  match z with
  | Z0 => S754_zero false
  | Zpos p => S754_finite false p 0
  | Zneg p => S754_finite true p 0
  end.

(** [a / b] on two ints: the correctly rounded quotient (round to nearest,
    ties to even); [ZeroDivisionError] for [b = 0], [OverflowError] when the
    quotient is too large for a float. *)
Definition int_truediv (a b : Z) : res float :=
  if b =? 0 then throw ZeroDivisionError
  else match SFdiv prec emax (raw_of_int a) (raw_of_int b) with
       | S754_infinity _ => throw OverflowError
       | f => ok f
       end.

(** The conversion of an int operand to float in mixed arithmetic (correctly
    rounded; [OverflowError] when it is too large). *)
Definition float_of_int (z : Z) : res float :=
  match binary_normalize prec emax z 0 false with
  | S754_infinity _ => throw OverflowError
  | f => ok f
  end.

(** [z + f] with an int on the left and a float on the right. *)
Definition int_add_float (z : Z) (f : float) : res float :=
  (zf <- float_of_int z ;; ok (SFadd prec emax zf f))%res.

(** [int(f)]: truncation toward zero. *)
Definition int_of_float (f : float) : res Z :=
  match f with
  | S754_zero _ => ok 0
  | S754_nan => throw (ValueError "cannot convert float NaN to integer")
  | S754_infinity _ => throw OverflowError
  | S754_finite s m e =>
      let a := match e with
               | Zneg p => Z.shiftr (Zpos m) (Zpos p)
               | _ => Z.shiftl (Zpos m) e
               end in
      ok (if s then - a else a)
  end.

(** The exact value of a number: a dyadic rational [m * 2^e], or an
    infinity; [None] for NaN. *)
Inductive ext : Type :=
| NegInf
| Fin (m e : Z)
| PosInf.

Definition float_val (f : float) : option ext :=
  match f with
  | S754_zero _ => Some (Fin 0 0)
  | S754_nan => None
  | S754_infinity s => Some (if s then NegInf else PosInf)
  | S754_finite s m e => Some (Fin (if s then Zneg m else Zpos m) e)
  end.

Definition num_val (n : num) : option ext :=
  match n with
  | PyInt z => Some (Fin z 0)
  | PyFloat f => float_val f
  end.

Definition ext_leb (a b : ext) : bool :=
  match a, b with
  | NegInf, _ => true
  | _, PosInf => true
  | PosInf, _ => false
  | _, NegInf => false
  | Fin m1 e1, Fin m2 e2 =>
      let k := Z.min e1 e2 in
      m1 * 2 ^ (e1 - k) <=? m2 * 2 ^ (e2 - k)
  end.

(** [a <= b]: Python compares ints and floats by their exact values; every
    comparison with NaN is false. *)
Definition num_le (a b : num) : bool :=
  match num_val a, num_val b with
  | Some x, Some y => ext_leb x y
  | _, _ => false
  end.

(** [a >= b]. *)
Definition num_ge (a b : num) : bool := num_le b a.

(** [a > b]. *)
Definition num_gt (a b : num) : bool :=
  match num_val a, num_val b with
  | Some x, Some y => negb (ext_leb x y)
  | _, _ => false
  end.

(** Truth value of a number: zero is false, everything else (NaN too) is
    true. *)
Definition num_truthy (n : num) : bool :=
  match n with
  | PyInt z => negb (z =? 0)
  | PyFloat (S754_zero _) => false
  | PyFloat _ => true
  end.

End PyNum.

(** ** Programs with external calls *)

(** A program that returns, raises, or makes an external call of the
    interface [E] and goes on with its answer. *)
Inductive prog (E : Type -> Type) (A : Type) : Type :=
| Ret (a : A)
| Raise (e : exn)
| Vis (X : Type) (ev : E X) (k : X -> prog E A).

Arguments Ret {E A} a.
Arguments Raise {E A} e.
Arguments Vis {E A X} ev k.

Fixpoint pbind {E A B} (p : prog E A) (f : A -> prog E B) : prog E B :=
  match p with
  | Ret a => f a
  | Raise e => Raise e
  | Vis ev k => Vis ev (fun x => pbind (k x) f)
  end.

Definition lift {E A} (c : res A) : prog E A :=
  match c with
  | inl e => Raise e
  | inr a => Ret a
  end.

Declare Scope prog_scope.
Delimit Scope prog_scope with prog.
Notation "x <- c ;; k" := (pbind c (fun x => k))
  (at level 61, c at next level, right associativity) : prog_scope.
Notation "c ;;; k" := (pbind c (fun _ => k))
  (at level 61, right associativity) : prog_scope.

(** ** Loops *)

(** [range(n)]: [0, 1, ..., n-1], empty when [n <= 0]. *)
Definition range (n : Z) : list Z := map Z.of_nat (seq 0 (Z.to_nat n)).

(** A [for] loop that updates local variables [st] and may raise. *)
Fixpoint for_each {X S} (l : list X) (st : S) (body : X -> S -> res S) : res S :=
  match l with
  | [] => ok st
  | x :: l' => (st' <- body x st ;; for_each l' st' body)%res
  end.

(** A [for] loop whose body may [return]: [Some r] leaves the loop (and the
    function) with [r], [None] goes on to the next element. *)
Fixpoint for_return {X R} (l : list X) (body : X -> res (option R)) : res (option R) :=
  match l with
  | [] => ok None
  | x :: l' =>
      (r <- body x ;;
       match r with
       | Some v => ok (Some v)
       | None => for_return l' body
       end)%res
  end.

(** A [for] loop over a program body. *)
Fixpoint pfor_each {E X S} (l : list X) (st : S) (body : X -> S -> prog E S) : prog E S :=
  match l with
  | [] => Ret st
  | x :: l' => (st' <- body x st ;; pfor_each l' st' body)%prog
  end.

(** ** Images (PIL) *)

(** A pixel value: the tuple of band values ([(r, g, b)] for an RGB image). *)
Definition pixel : Type := list Z.

Definition pixel_eqb (p q : pixel) : bool :=
  if list_eq_dec Z.eq_dec p q then true else false.

(** The object [Image.load()] returns: indexed by [(x, y)]. *)
Record PixelAccess : Type := {
  xsize : Z;
  ysize : Z;
  data : Z -> Z -> pixel
}.

Record Image : Type := {
  width : Z;
  height : Z;
  pixels : Z -> Z -> pixel
}.

Definition load (im : Image) : PixelAccess :=
  {| xsize := width im; ysize := height im; data := pixels im |}.

(** [acc[x, y]]: a negative index counts from the end; [IndexError] outside
    the image. *)
Definition getitem (acc : PixelAccess) (x y : Z) : res pixel :=
  let x := if x <? 0 then xsize acc + x else x in
  let y := if y <? 0 then ysize acc + y else y in
  if (0 <=? x) && (x <? xsize acc) && (0 <=? y) && (y <? ysize acc)
  then ok (data acc x y)
  else throw IndexError.

(** An image given by its rows (row-major), for concrete inputs. *)
Definition image_of_rows (rows : list (list pixel)) : Image :=
  {| width := Z.of_nat (List.length (hd [] rows));
     height := Z.of_nat (List.length rows);
     pixels := fun x y => nth (Z.to_nat x) (nth (Z.to_nat y) rows []) [] |}.

(** ** Values returned to the caller *)

Inductive pyval : Type :=
| PyNone
| PyBool (b : bool)
| PyPoint (x y : Z)
| PyPoints (l : list (Z * Z)).

Definition truthy (v : pyval) : bool :=
  match v with
  | PyNone => false
  | PyBool b => b
  | PyPoint _ _ => true
  | PyPoints l => negb (Nat.eqb (List.length l) 0)
  end.

(** ** The random module *)

Inductive randE : Type -> Type :=
| Randrange (lo hi : Z) : randE Z.

(** [random.randrange(lo, hi)]: [ValueError] for an empty range, else an
    integer of [lo .. hi-1]. *)
Definition randrange (lo hi : Z) : prog randE Z :=
  if hi <=? lo then Raise (ValueError "empty range for randrange()")
  else Vis (Randrange lo hi) Ret.

(** One run against a source of randomness: the [n]-th draw takes the raw
    number [tape n] into the requested range. The run returns the result and
    the number of draws made so far. *)
Fixpoint run_rand {A} (p : prog randE A) (tape : nat -> Z) (n : nat) : res A * nat :=
  match p with
  | Ret a => (ok a, n)
  | Raise e => (throw e, n)
  | Vis ev k =>
      match ev in randE X return (X -> prog randE A) -> res A * nat with
      | Randrange lo hi => fun k =>
          run_rand (k (lo + (tape n) mod (hi - lo))) tape (S n)
      end k
  end.

Definition qsum (l : list Q) : Q := fold_right Qplus 0%Q l.

(** The probability that a run ends in a result satisfying [good], every
    [randrange(lo, hi)] being uniform on [lo .. hi-1]. *)
Fixpoint prob {A} (p : prog randE A) (good : res A -> bool) : Q :=
  match p with
  | Ret a => if good (ok a) then 1%Q else 0%Q
  | Raise e => if good (throw e) then 1%Q else 0%Q
  | Vis ev k =>
      match ev in randE X return (X -> prog randE A) -> Q with
      | Randrange lo hi => fun k =>
          Qdiv (qsum (map (fun v => prob (k v) good)
                          (map (Z.add lo) (range (hi - lo)))))
               (inject_Z (hi - lo))
      end k
  end.

(** ** class ImageCenterByRGB *)

Module ImageCenterByRGB.
Import PyNum.

(** A pre-filter sample point [[s_x, s_y]]. *)
Definition point : Type := (Z * Z)%type.

(** The counters [same] and [diff] after comparing one pixel pair. *)
Definition tally (b s : pixel) (st : Z * Z) : Z * Z :=
  let '(same, diff) := st in
  if pixel_eqb b s then (same + 1, diff) else (same, diff + 1).

(** [_check_match(_x, _y, small, bdata, sdata, rate)] (lines 304-318). *)
Definition _check_match (_x _y : Z) (small : Image) (bdata sdata : PixelAccess)
    (rate : num) : res bool :=
  (st <- for_each (range (width small)) (0, 0) (fun i st =>
           for_each (range (height small)) st (fun j st =>
             b <- getitem bdata (_x + i) (_y + j) ;;
             s <- getitem sdata i j ;;
             ok (tally b s st))) ;;
   let '(same, diff) := st in
   similarity <- int_truediv same (same + diff) ;;
   ok (num_ge (PyFloat similarity) rate))%res.

(** [_pre_random_point(small)] (lines 320-332). *)
Definition _pre_random_point (small : Image) : prog randE (list point) :=
  (count <- randrange 10 20 ;;
   pfor_each (range count) [] (fun _ point_list =>
     s_x <- randrange 0 (width small) ;;
     s_y <- randrange 0 (height small) ;;
     Ret (point_list ++ [(s_x, s_y)])))%prog.

(** [_pre_random_match(_x, _y, point_list, bdata, sdata, rate)]
    (lines 334-348). *)
Definition _pre_random_match (_x _y : Z) (point_list : list point)
    (bdata sdata : PixelAccess) (rate : num) : res bool :=
  (st <- for_each point_list (0, 0) (fun point st =>
           b <- getitem bdata (_x + fst point) (_y + snd point) ;;
           s <- getitem sdata (fst point) (snd point) ;;
           ok (tally b s st)) ;;
   let '(same, diff) := st in
   q <- int_truediv same (same + diff) ;;
   ok (num_ge (PyFloat q) rate))%res.

(** [int(_x + w / 2)]: one coordinate of the returned center. *)
Definition center (_x w : Z) : res Z :=
  (half <- int_truediv w 2 ;;
   s <- int_add_float _x half ;;
   int_of_float s)%res.

(** The placement scan of [image_center_by_rgb] (lines 364-369), for a
    given [point_list]. *)
Definition scan (small big : Image) (point_list : list point) (rate : num)
    : res pyval :=
  let sdata := load small in
  let bdata := load big in
  (r <- for_return (range (width big - width small)) (fun _x =>
          for_return (range (height big - height small)) (fun _y =>
            pre <- _pre_random_match _x _y point_list bdata sdata rate ;;
            if pre then
              chk <- _check_match _x _y small bdata sdata rate ;;
              if chk then
                cx <- center _x (width small) ;;
                cy <- center _y (height small) ;;
                ok (Some (PyPoint cx cy))
              else ok None
            else ok None)) ;;
   match r with
   | Some v => ok v
   | None => ok (PyBool false)
   end)%res.

(** [image_center_by_rgb] from line 360 on: [small] is the opened template
    image and [big] the grabbed screen shot. *)
Definition image_center_by_rgb (small big : Image) (rate : num)
    : prog randE pyval :=
  (point_list <- _pre_random_point small ;;
   lift (scan small big point_list rate))%prog.

End ImageCenterByRGB.

(** ** More control flow: [break], [return] and [try]/[except] *)

(** What one pass through a loop body asks for. *)
Inductive ctl (R : Type) : Type :=
| Next
| Break
| Return (r : R).

Arguments Next {R}.
Arguments Break {R}.
Arguments Return {R} r.

(** A [for] loop over a program body that may [break] or [return]; [Some r]
    when the body returned [r], [None] when the loop ran out or broke. *)
Fixpoint pfor_ctl {E X R} (l : list X) (body : X -> prog E (ctl R)) : prog E (option R) :=
  match l with
  | [] => Ret None
  | x :: l' =>
      (c <- body x ;;
       match c with
       | Next => pfor_ctl l' body
       | Break => Ret None
       | Return r => Ret (Some r)
       end)%prog
  end.

(** [try: p  except cls as exc: handler exc]. *)
Fixpoint pexcept {E A} (cls : exn -> bool) (p : prog E A) (handler : exn -> prog E A)
    : prog E A :=
  match p with
  | Ret a => Ret a
  | Raise e => if cls e then handler e else Raise e
  | Vis ev k => Vis ev (fun x => pexcept cls (k x) handler)
  end.

(** An external call whose answer is a value or an exception. *)
Definition call {E A} (ev : E (res A)) : prog E A := Vis ev lift.

(** ** Strings *)

Definition endswith (s suffix : string) : bool :=
  let n := String.length s in
  let m := String.length suffix in
  (m <=? n)%nat && String.eqb (substring (n - m) m s) suffix.

Definition newline : Ascii.ascii := Ascii.ascii_of_nat 10.

Fixpoint lstrip_nl (s : string) : string :=
  match s with
  | String c s' => if Ascii.eqb c newline then lstrip_nl s' else s
  | EmptyString => EmptyString
  end.

Fixpoint rstrip_nl (s : string) : string :=
  match s with
  | String c s' =>
      match rstrip_nl s' with
      | EmptyString => if Ascii.eqb c newline then EmptyString else String c EmptyString
      | t => String c t
      end
  | EmptyString => EmptyString
  end.

(** [s.strip("\n")]. *)
Definition strip_nl (s : string) : string := rstrip_nl (lstrip_nl s).

(** ** class ImageCenter *)

Module ImageCenter.
Import PyNum.
Local Open Scope string_scope.

(** The settings object [conf] of [youqu_imagecenter_rpc.conf], which the
    module imports: the attributes the modelled code reads. *)
Record Conf : Type := {
  IMAGE_RATE : num;
  SCREEN_CACHE : string;
  IS_LINUX : bool;
  IS_X11 : bool;
  SERVER_IP : string;
  PORT : string;
  NETWORK_RETRY : Z;
  PAUSE : num;
  TIMEOUT : num;
  MAX_MATCH_NUMBER : num
}.

Definition file : Type := nat.
Definition bytes : Type := string.

(** The collaborators the class calls: the clock, the screen capture, the
    file system, the logger and the remote matching service.
    [SaveTemporaryPicture] is the call [cls.save_temporary_picture], a method
    this file does not define. *)
Inductive ioE : Type -> Type :=
| TimeTime : ioE float
| TimeSleep (secs : Z) : ioE unit
| SaveTemporaryPicture (bbox : list Z) : ioE (res string)
| GrabSave (path : string) : ioE (res unit)
| Popen (cmd : string) : ioE string
| Expanduser (path : string) : ioE string
| PathExists (path : string) : ioE bool
| LoggerWarning (msg : string) : ioE unit
| OpenRb (path : string) : ioE (res file)
| FileRead (f : file) : ioE (res bytes)
| FileClose (f : file) : ioE unit
| ImagePut (server : string) (payload : bytes) : ioE (res string)
| MatchImageByOpencv (server tpl_path screen_path : string) (rate : num)
    (multiple : bool) : ioE (res pyval).

(** [int(n)]. *)
Definition to_int (n : num) : res Z :=
  match n with
  | PyInt z => ok z
  | PyFloat f => int_of_float f
  end.

(** [float(n)]. *)
Definition to_float (n : num) : res float :=
  match n with
  | PyInt z => float_of_int z
  | PyFloat f => ok f
  end.

(** [x if x else d], for an optional number. *)
Definition num_or (x : option num) (d : num) : num :=
  match x with
  | Some n => if num_truthy n then n else d
  | None => d
  end.

(** [x if x else d], for an optional int. *)
Definition int_or (x : option Z) (d : Z) : Z :=
  match x with
  | Some z => if (z =? 0)%Z then d else z
  | None => d
  end.

(** [time.sleep(secs)]: a negative length is a [ValueError]. *)
Definition sleep (secs : Z) : prog ioE unit :=
  if (secs <? 0)%Z then Raise (ValueError "sleep length must be non-negative")
  else Vis (TimeSleep secs) Ret.

Definition is_OSError (e : exn) : bool :=
  match e with
  | OSError _ => true
  | _ => false
  end.

Definition is_EasyProcessError (e : exn) : bool :=
  match e with
  | EasyProcessError => true
  | _ => false
  end.

(** The classes below [Exception]; [TemplateElementNotFound] derives from
    [BaseException] directly. *)
Definition is_Exception (e : exn) : bool :=
  match e with
  | TemplateElementNotFound _ => false
  | _ => true
  end.

Definition wayland_screen_dbus : string :=
  "qdbus org.kde.KWin /Screenshot screenshotFullscreen".

Definition server_url (conf : Conf) : string :=
  "http://" ++ SERVER_IP conf ++ ":" ++ PORT conf.

(** [_match_image_by_opencv] (lines 60-140). *)
Definition _match_image_by_opencv (conf : Conf) (image_path : string)
    (rate : option num) (multiple : bool) (picture_abspath : option string)
    (screen_bbox : option (list Z)) (log_level : string) (network_retry : Z)
    : prog ioE pyval :=
  (rate <- match rate with
           | None => f <- lift (to_float (IMAGE_RATE conf)) ;; Ret (PyFloat f)
           | Some r => Ret r
           end ;;
   let screen := SCREEN_CACHE conf in
   screen <- match picture_abspath with
             | Some (String c p) => Ret (String c p)
             | _ =>
                 match screen_bbox with
                 | Some (b :: bbox) =>
                     p <- call (SaveTemporaryPicture (b :: bbox)) ;;
                     Ret (p ++ ".png")
                 | _ =>
                     if IS_LINUX conf then
                       if IS_X11 conf then
                         pexcept is_EasyProcessError
                           (call (GrabSave screen)) (fun _ => Ret tt) ;;;
                         Ret screen
                       else
                         out <- Vis (Popen wayland_screen_dbus) Ret ;;
                         Ret (strip_nl out)
                     else
                       call (GrabSave screen) ;;;
                       Ret screen
                 end
             end ;;
   let template_path := "" in
   image_path <- Vis (Expanduser image_path) Ret ;;
   template_path <-
     (if negb (endswith image_path ".png" || endswith image_path ".jpg"
               || endswith image_path ".jpeg") then
        e_png <- Vis (PathExists (image_path ++ ".png")) Ret ;;
        if e_png : bool then Ret (image_path ++ ".png") else
        e_jpg <- Vis (PathExists (image_path ++ ".jpg")) Ret ;;
        if e_jpg : bool then Ret (image_path ++ ".jpg") else
        e_jpeg <- Vis (PathExists (image_path ++ ".jpeg")) Ret ;;
        if e_jpeg : bool then Ret (image_path ++ ".jpeg") else
        Vis (LoggerWarning
          "The image format is not supported. Please confirm your image_path again")
          Ret ;;;
        Ret template_path
      else Ret image_path) ;;
   if String.eqb template_path "" then Raise (ValueError "") else
   let server := server_url conf in
   screen_rb <- call (OpenRb screen) ;;
   template_rb <- call (OpenRb template_path) ;;
   r <- pfor_ctl (range (network_retry + 1)) (fun _ =>
          pexcept is_OSError
            (payload <- call (FileRead screen_rb) ;;
             screen_path <- call (ImagePut server payload) ;;
             Vis (FileClose screen_rb) Ret ;;;
             payload <- call (FileRead template_rb) ;;
             tpl_path <- call (ImagePut server payload) ;;
             Vis (FileClose template_rb) Ret ;;;
             v <- call (MatchImageByOpencv server tpl_path screen_path rate multiple) ;;
             Ret (Return v))
            (fun exc => Raise (OSError ("OCR 服务器链接失败. " ++ server)))) ;;
   match r with
   | Some v => Ret v
   | None => Ret PyNone
   end)%prog.

(** The [args] of the exception [TemplateElementNotFound] raised with the
    templates [name] as star arguments. *)
Definition not_found_args (name : list string) : list string :=
  "通过图片资源, 未在屏幕上匹配到元素" :: name.

(** [find_image] (lines 142-206). *)
Definition find_image (conf : Conf) (widget : list string) (rate : option num)
    (multiple : bool) (picture_abspath : option string)
    (screen_bbox : option (list Z)) (log_level : string)
    (network_retry : option Z) (pause timeout max_match_number : option num)
    : prog ioE pyval :=
  let network_retry := int_or network_retry (NETWORK_RETRY conf) in
  let pause := num_or pause (PAUSE conf) in
  let timeout := num_or timeout (TIMEOUT conf) in
  let max_match_number := num_or max_match_number (MAX_MATCH_NUMBER conf) in
  (retry_number <- lift (to_int max_match_number) ;;
   if (retry_number <? 0)%Z then Raise (ValueError "重试次数不能小于0") else
   rate <- match rate with
           | None => f <- lift (to_float (IMAGE_RATE conf)) ;; Ret (PyFloat f)
           | Some r => Ret r
           end ;;
   pexcept is_Exception
     (r <- pfor_ctl widget (fun element =>
             start_time <- Vis TimeTime Ret ;;
             r <- pfor_ctl (range (retry_number + 1)) (fun _ =>
                    locate <- _match_image_by_opencv conf element (Some rate)
                                multiple picture_abspath screen_bbox log_level
                                network_retry ;;
                    if negb (truthy locate) then
                      secs <- lift (to_int pause) ;;
                      sleep secs ;;;
                      end_time <- Vis TimeTime Ret ;;
                      if num_gt (PyFloat (SFsub prec emax end_time start_time)) timeout
                      then Ret Break
                      else Ret Next
                    else Ret (Return locate)) ;;
             match r with
             | Some locate => Ret (Return locate)
             | None => Ret Next
             end) ;;
      match r with
      | Some locate => Ret locate
      | None => Raise (TemplateElementNotFound (not_found_args widget))
      end)
     (fun exc => Raise exc))%prog.

(** One observed external call. *)
Inductive event : Type :=
| Event (X : Type) (ev : ioE X).

Arguments Event {X} ev.

(** The environment: its answer to the [n]-th external call of a run. *)
Definition world : Type := forall X : Type, nat -> ioE X -> X.

(** A run in a given environment, from call number [n]: the outcome and the
    external calls made, in order. *)
Fixpoint run {A} (p : prog ioE A) (w : world) (n : nat) : res A * list event :=
  match p with
  | Ret a => (ok a, [])
  | Raise e => (throw e, [])
  | Vis ev k =>
      let '(r, tr) := run (k (w _ n ev)) w (S n) in
      (r, Event ev :: tr)
  end.

(** A screen capture. *)
Definition is_capture (e : event) : bool :=
  match e with
  | Event (SaveTemporaryPicture _) => true
  | Event (GrabSave _) => true
  | Event (Popen _) => true
  | _ => false
  end.

(** A request to the matching service. *)
Definition is_match (e : event) : bool :=
  match e with
  | Event (MatchImageByOpencv _ _ _ _ _) => true
  | _ => false
  end.

Definition captures (tr : list event) : nat := List.length (filter is_capture tr).
Definition match_attempts (tr : list event) : nat := List.length (filter is_match tr).

End ImageCenter.

(** ** Notions for stating the properties of the region matcher *)

Module Placement.
Import PyNum ImageCenterByRGB.

(** A candidate top-left placement [(_x, _y)] of the template. *)
Definition placement : Type := (Z * Z)%type.

(** The placements the loop nest of lines 364-365 visits, in the order it
    visits them. *)
Definition candidates (small big : Image) : list placement :=
  flat_map (fun _x => map (pair _x) (range (height big - height small)))
           (range (width big - width small)).

Definition in_range (small big : Image) (p : placement) : Prop :=
  0 <= fst p < width big - width small /\ 0 <= snd p < height big - height small.

(** x-major, y-minor order. *)
Definition before (p q : placement) : Prop :=
  fst p < fst q \/ (fst p = fst q /\ snd p < snd q).

(** The placement passes the pre-filter and the full verification. *)
Definition accepts (small big : Image) (point_list : list point) (rate : num)
    (p : placement) : bool :=
  match _pre_random_match (fst p) (snd p) point_list (load big) (load small) rate with
  | inr true =>
      match _check_match (fst p) (snd p) small (load big) (load small) rate with
      | inr true => true
      | _ => false
      end
  | _ => false
  end.

(** The template is pixel-identical to the screen region at [p]. *)
Definition identical_at (small big : Image) (p : placement) : Prop :=
  forall i j, 0 <= i < width small -> 0 <= j < height small ->
    pixels big (fst p + i) (snd p + j) = pixels small i j.

Definition in_template (small : Image) (pt : point) : Prop :=
  0 <= fst pt < width small /\ 0 <= snd pt < height small.

(** What [_pre_random_point] can return: 10 to 19 points of the template. *)
Definition valid_sample (small : Image) (point_list : list point) : Prop :=
  (10 <= List.length point_list < 20)%nat /\ Forall (in_template small) point_list.

(** PIL keeps the two sizes of an image in C ints. *)
Definition pil_sized (im : Image) : Prop :=
  0 <= width im < 2 ^ 31 /\ 0 <= height im < 2 ^ 31.

(** The center [(int(_x + w / 2), int(_y + h / 2))] of the template placed
    at [p], on integers. *)
Definition center_of (small : Image) (p : placement) : pyval :=
  PyPoint (fst p + width small / 2) (snd p + height small / 2).

(** The center of the template placed at [q], as the code computes it. *)
Definition centers (small : Image) (q : placement) : res pyval :=
  (cx <- center (fst q) (width small) ;;
   cy <- center (snd q) (height small) ;;
   ok (PyPoint cx cy))%res.

(** The probability of drawing one given point of the template:
    [1 / (width * height)]. *)
Definition point_prob (small : Image) : Q :=
  (1 / (inject_Z (width small) * inject_Z (height small)))%Q.

Fixpoint qpow (q : Q) (n : nat) : Q :=
  match n with
  | O => 1%Q
  | Datatypes.S n' => (q * qpow q n')%Q
  end.

Definition point_eqb (a b : point) : bool :=
  (fst a =? fst b) && (snd a =? snd b).

Fixpoint points_eqb (l1 l2 : list point) : bool :=
  match l1, l2 with
  | [], [] => true
  | a :: l1', b :: l2' => point_eqb a b && points_eqb l1' l2'
  | _, _ => false
  end.

(** The sampler returned exactly [point_list]. *)
Definition is_sample (point_list : list point) (r : res (list point)) : bool :=
  match r with
  | inr l => points_eqb l point_list
  | inl _ => false
  end.

(** The sampler returned a list of [k] points. *)
Definition has_length (k : nat) (r : res (list point)) : bool :=
  match r with
  | inr l => Nat.eqb (List.length l) k
  | inl _ => false
  end.

(** Two screens of the same size that differ only in the last column and
    the last row. *)
Definition same_inside (big big' : Image) : Prop :=
  width big' = width big /\ height big' = height big
  /\ forall x y, 0 <= x < width big - 1 -> 0 <= y < height big - 1 ->
       pixels big' x y = pixels big x y.

End Placement.

(** ** Notions for stating the properties of the polling controller *)

Module Polling.
Import PyNum ImageCenter.

(** The rate [find_image] passes on: the caller's, or [float(conf.IMAGE_RATE)]
    when the caller gave none. *)
Definition effective_rate (conf : Conf) (rate : option num) : res num :=
  match rate with
  | None => (f <- to_float (IMAGE_RATE conf) ;; ok (PyFloat f))%res
  | Some r => ok r
  end.

(** A rate outside [0, 1]. *)
Definition out_of_range (rate : num) : bool :=
  negb (num_le (PyInt 0) rate && num_le rate (PyInt 1)).

End Polling.

(** ** Concrete inputs *)

Module Examples.

Definition red : pixel := [255; 0; 0].
Definition green : pixel := [0; 255; 0].
Definition blue : pixel := [0; 0; 255].
Definition white : pixel := [255; 255; 255].
Definition black : pixel := [0; 0; 0].

(** A 2x2 template of four different pixels. *)
Definition template : Image :=
  image_of_rows [[red; green];
                 [blue; white]].

(** A 4x4 screen with the template at [(0, 0)]. *)
Definition screen_a : Image :=
  image_of_rows [[red; green; black; black];
                 [blue; white; black; black];
                 [black; black; black; black];
                 [black; black; black; black]].

(** A 5x5 screen with the template at [(0, 0)] and at [(2, 2)]. *)
Definition screen_d : Image :=
  image_of_rows [[red; green; black; black; black];
                 [blue; white; black; black; black];
                 [black; black; red; green; black];
                 [black; black; blue; white; black];
                 [black; black; black; black; black]].

(** A 4x4 screen with the template only in the bottom-right corner. *)
Definition screen_edge : Image :=
  image_of_rows [[black; black; black; black];
                 [black; black; black; black];
                 [black; black; red; green];
                 [black; black; blue; white]].

(** A 2x4 screen as wide as the template. *)
Definition screen_narrow : Image :=
  image_of_rows [[red; green];
                 [blue; white];
                 [black; black];
                 [black; black]].

(** A one-pixel template and a plain 3x3 screen of the same colour. *)
Definition dot : Image := image_of_rows [[black]].

Definition plain : Image :=
  image_of_rows [[black; black; black];
                 [black; black; black];
                 [black; black; black]].

(** A source of raw random numbers. *)
Definition tape (n : nat) : Z := Z.of_nat n * 7 + 3.

(** The float [2.0]. *)
Definition f_two : PyNum.float := S754_finite false 4503599627370496 (-51).

(** The float nearest to [0.9]. *)
Definition f_09 : PyNum.float := S754_finite false 8106479329266893 (-53).

(** Settings with two retries by default. *)
Definition conf : ImageCenter.Conf :=
  {| ImageCenter.IMAGE_RATE := PyNum.PyFloat f_09;
     ImageCenter.SCREEN_CACHE := "/tmp/screen.png"%string;
     ImageCenter.IS_LINUX := true;
     ImageCenter.IS_X11 := true;
     ImageCenter.SERVER_IP := "127.0.0.1"%string;
     ImageCenter.PORT := "8889"%string;
     ImageCenter.NETWORK_RETRY := 1;
     ImageCenter.PAUSE := PyNum.PyInt 1;
     ImageCenter.TIMEOUT := PyNum.PyInt 5;
     ImageCenter.MAX_MATCH_NUMBER := PyNum.PyInt 2 |}.

(** An environment in which every file exists, every capture succeeds, the
    clock stands still and the matching service finds nothing. *)
Definition quiet : ImageCenter.world := fun X n ev =>
  match ev in ImageCenter.ioE X return X with
  | ImageCenter.TimeTime => S754_zero false
  | ImageCenter.TimeSleep _ => tt
  | ImageCenter.SaveTemporaryPicture _ => ok "/tmp/region"%string
  | ImageCenter.GrabSave _ => ok tt
  | ImageCenter.Popen _ => "/tmp/wayland.png"%string
  | ImageCenter.Expanduser p => p
  | ImageCenter.PathExists _ => true
  | ImageCenter.LoggerWarning _ => tt
  | ImageCenter.OpenRb _ => ok n
  | ImageCenter.FileRead _ => ok "data"%string
  | ImageCenter.FileClose _ => tt
  | ImageCenter.ImagePut _ _ => ok "/srv/image"%string
  | ImageCenter.MatchImageByOpencv _ _ _ _ _ => ok (PyBool false)
  end.

End Examples.

(** ** Runs over any interface, and what every run of a program does *)

(** One observed external call of the interface [E]. *)
Inductive obs (E : Type -> Type) : Type :=
| Obs (X : Type) (ev : E X).

Arguments Obs {E X} ev.

(** An environment for the interface [E]: its answer to the [n]-th call. *)
Definition env (E : Type -> Type) : Type := forall X : Type, nat -> E X -> X.

(** A run in an environment, from call number [n]: the outcome and the
    calls made, in order. *)
Fixpoint exec {E A} (p : prog E A) (w : env E) (n : nat) : res A * list (obs E) :=
  match p with
  | Ret a => (ok a, [])
  | Raise e => (throw e, [])
  | Vis ev k =>
      let '(r, tr) := exec (k (w _ n ev)) w (S n) in
      (r, Obs ev :: tr)
  end.

(** The number of calls of the kind [f] in a trace. *)
Definition count {E} (f : obs E -> bool) (tr : list (obs E)) : nat :=
  List.length (filter f tr).

(** [meets P f k Q p]: whatever the environment answers, every call [p]
    makes satisfies [P], at most [k] of them are of the kind [f], and [p]
    ends in an outcome that satisfies [Q]. *)
Fixpoint meets {E A} (P : obs E -> Prop) (f : obs E -> bool) (k : nat)
    (Q : res A -> Prop) (p : prog E A) : Prop :=
  match p with
  | Ret a => Q (ok a)
  | Raise e => Q (throw e)
  | Vis ev kont =>
      P (Obs ev)
      /\ (f (Obs ev) = true -> (1 <= k)%nat)
      /\ forall x, meets P f (if f (Obs ev) then (k - 1)%nat else k) Q (kont x)
  end.

(** Two programs that make the same calls and end in the same outcome,
    whatever the environment answers. *)
Inductive prog_eq {E A} : prog E A -> prog E A -> Prop :=
| prog_eq_Ret a : prog_eq (Ret a) (Ret a)
| prog_eq_Raise e : prog_eq (Raise e) (Raise e)
| prog_eq_Vis X (ev : E X) k k' :
    (forall x, prog_eq (k x) (k' x)) -> prog_eq (Vis ev k) (Vis ev k').

Module Observed.
Import PyNum ImageCenter.

(** An observed call of [ImageCenter]'s interface as an [event]. *)
Definition to_event (c : obs ioE) : event :=
  match c with
  | Obs ev => Event ev
  end.

(** A request to the matching service carries [rate] and [multiple]. *)
Definition forwards (rate : num) (multiple : bool) (e : event) : Prop :=
  match e with
  | Event (MatchImageByOpencv _ _ _ r m) => r = rate /\ m = multiple
  | _ => True
  end.

(** An upload of a picture to the matching service. *)
Definition is_upload (e : event) : bool :=
  match e with
  | Event (ImagePut _ _) => true
  | _ => false
  end.

(** A call that reaches the matching service. *)
Definition is_server (e : event) : bool := is_upload e || is_match e.

Definition uploads (tr : list event) : nat := List.length (filter is_upload tr).

End Observed.

(** ** More environments *)

Module Worlds.
Import ImageCenter.

(** As [Examples.quiet], but the matching service finds the template at
    [(3, 4)]. *)
Definition found : world := fun X n ev =>
  match ev in ioE X return X with
  | MatchImageByOpencv _ _ _ _ _ => ok (PyPoint 3 4)
  | ev' => Examples.quiet _ n ev'
  end.

(** As [Examples.quiet], but no file exists. *)
Definition bare : world := fun X n ev =>
  match ev in ioE X return X with
  | PathExists _ => false
  | ev' => Examples.quiet _ n ev'
  end.

End Worlds.


(** ** class ImageCenter, continued: [find_image_color], [img_exists] and
    [get_during] *)

(** A [for] loop that updates local variables [st] and may [break]: the body
    returns the new variables and whether it broke out. *)
Fixpoint pfor_break {E X S} (l : list X) (st : S) (body : X -> S -> prog E (S * bool))
    : prog E S :=
  match l with
  | [] => Ret st
  | x :: l' =>
      (r <- body x st ;;
       if snd r then Ret (fst r) else pfor_break l' (fst r) body)%prog
  end.

(** [str(i)] for an int. *)
Definition str_int (z : Z) : string := NilZero.string_of_int (Z.to_int z).

Module ImageCenterAux.
Import PyNum ImageCenter.
Local Open Scope string_scope.

(** The collaborators of these methods: those of [ImageCenter.ioE], and the
    logger called with an error message or with an exception object, PIL's
    [Image.open] and the end of its [with] block, [os.system],
    [os.makedirs] and [time.sleep] with a float. *)
Inductive auxE : Type -> Type :=
| Core {X : Type} (ev : ioE X) : auxE X
| LoggerError (msg : string) : auxE unit
| LoggerWarningExc (exc : exn) : auxE unit
| ImageOpen (path : string) : auxE (res Image)
| ImageExit (image : Image) : auxE unit
| OsSystem (cmd : string) : auxE Z
| Makedirs (path : string) : auxE (res unit)
| SleepFloat (secs : float) : auxE (res unit).

(** A program of [ImageCenter] run as a part of these methods. *)
Fixpoint embed {A} (p : prog ioE A) : prog auxE A :=
  match p with
  | Ret a => Ret a
  | Raise e => Raise e
  | Vis ev k => Vis (Core ev) (fun x => embed (k x))
  end.

(** [TemplatePictureNotExist] derives from [BaseException]; its message is
    the one its constructor logs. *)
Definition TemplatePictureNotExist : exn := OtherException "TemplatePictureNotExist".

(** [raise TemplatePictureNotExist(name)] (lines 42-52): the constructor logs
    the message as an error. *)
Definition raise_TemplatePictureNotExist {A} (name : string) : prog auxE A :=
  let err := "图片资源：" ++ name ++ " 文件不存在!" in
  (Vis (LoggerError err) Ret ;;;
   Raise TemplatePictureNotExist)%prog.

Definition is_TemplateElementNotFound (e : exn) : bool :=
  match e with
  | TemplateElementNotFound _ => true
  | _ => false
  end.

(** The classes below [Exception], among the exceptions of these methods. *)
Definition below_Exception (e : exn) : bool :=
  match e with
  | TemplateElementNotFound _ => false
  | OtherException name => negb (String.eqb name "TemplatePictureNotExist")
  | _ => true
  end.

(** A colour [(_r, _g, _b)]. *)
Definition rgb : Type := (Z * Z * Z)%type.

(** [TypeError], the exception of unpacking what is not iterable. *)
Definition TypeError : exn := OtherException "TypeError".

(** [_r, _g, _b = p]. PIL gives the pixel of a picture of one band as a bare
    number, which cannot be unpacked: [TypeError]. A tuple of another length
    than three gives a [ValueError] (CPython's wording up to 3.13). *)
Definition unpack3 (p : pixel) : res rgb :=
  match p with
  | [r; g; b] => ok (r, g, b)
  | [_] => throw TypeError
  | _ :: _ :: _ :: _ :: _ => throw (ValueError "too many values to unpack (expected 3)")
  | _ =>
      throw (ValueError ("not enough values to unpack (expected 3, got "
                         ++ str_int (Z.of_nat (List.length p)) ++ ")"))
  end.

(** The two loops of [find_image_color] over the pixels of [image]. *)
Definition colors (image : Image) : res (list rgb) :=
  let pix := load image in
  let width := width image in
  let height := height image in
  for_each (range width) [] (fun _x _color =>
    for_each (range height) _color (fun _y _color =>
      (p <- getitem pix _x _y ;;
       c <- unpack3 p ;;
       ok (_color ++ [c])%list)%res)).

(** [find_image_color] (lines 208-229). *)
Definition find_image_color (widget : string) : prog auxE (list rgb) :=
  pexcept below_Exception
    (e <- Vis (Core (PathExists widget)) Ret ;;
     if negb e then raise_TemplatePictureNotExist widget else
     image <- call (ImageOpen widget) ;;
     match colors image with
     | inr _color => Vis (ImageExit image) Ret ;;; Ret _color
     | inl exc => Vis (ImageExit image) Ret ;;; Raise exc
     end)%prog
    (fun exc => Raise exc).

(** [img_exists] (lines 231-246). *)
Definition img_exists (conf : Conf) (widget : string) (rate : option num)
    : prog auxE pyval :=
  (rate <- match rate with
           | None => f <- lift (to_float (IMAGE_RATE conf)) ;; Ret (PyFloat f)
           | Some r => Ret r
           end ;;
   pexcept is_TemplateElementNotFound
     (v <- embed (find_image conf [widget] (Some rate) false None None "info"
                    None None None None) ;;
      Ret (PyBool (truthy v)))
     (fun exc =>
        Vis (LoggerWarningExc exc) Ret ;;;
        Ret (PyBool false)))%prog.

(** [time.sleep(secs)] for a number. *)
Definition sleep_num (secs : num) : prog auxE unit :=
  match secs with
  | PyInt z => embed (sleep z)
  | PyFloat f => call (SleepFloat f)
  end.

Definition during_path : string := "/tmp/youqu_during".

(** The name of the [i]-th picture, taken at the time [t]; [float_str] is
    [str] on floats. *)
Definition pic_name (float_str : float -> string) (t : float) (i : Z) : string :=
  during_path ++ "/" ++ float_str t ++ "_" ++ str_int i ++ ".png".

(** The first loop of [get_during] (lines 276-285): the pictures taken. *)
Definition take_pictures (float_str : float -> string) (screen_time : num)
    (pause : option num) (max_range : Z) (start_time : float) : prog auxE (list string) :=
  pfor_break (range max_range) [] (fun i pics =>
    (t <- Vis (Core TimeTime) Ret ;;
     let pic_name := pic_name float_str t i in
     let pics := (pics ++ [pic_name])%list in
     call (Core (GrabSave pic_name)) ;;;
     now <- Vis (Core TimeTime) Ret ;;
     if num_ge (PyFloat (SFsub prec emax now start_time)) screen_time
     then Ret (pics, true)
     else
       match pause with
       | Some secs => if num_truthy secs then sleep_num secs else Ret tt
       | None => Ret tt
       end ;;;
       Ret (pics, false))%prog).

(** The rest of [get_during] (lines 286-294): the pictures are matched one
    after the other. *)
Definition match_pictures (conf : Conf) (image_path : string) (rate : option num)
    (pics : list string) : prog auxE pyval :=
  match pics with
  | [] => Raise (ValueError "")
  | _ =>
      (r <- pfor_ctl pics (fun pic_path =>
              res <- embed (_match_image_by_opencv conf image_path rate false
                              (Some pic_path) None "info" 1) ;;
              if truthy res then Ret (Return res) else Ret Next) ;;
       match r with
       | Some res => Ret res
       | None => Raise (TemplateElementNotFound (not_found_args [image_path]))
       end)%prog
  end.

(** [get_during] (lines 256-294). *)
Definition get_during (float_str : float -> string) (conf : Conf) (image_path : string)
    (screen_time : num) (rate : option num) (pause : option num) (max_range : Z)
    : prog auxE pyval :=
  (Vis (OsSystem ("rm -rf " ++ during_path)) Ret ;;;
   call (Makedirs during_path) ;;;
   start_time <- Vis (Core TimeTime) Ret ;;
   pics <- take_pictures float_str screen_time pause max_range start_time ;;
   match_pictures conf image_path rate pics)%prog.

(** The calls of [ImageCenter.ioE] in a trace. *)
Definition core_events (tr : list (obs auxE)) : list event :=
  flat_map (fun c : obs auxE =>
              match c with
              | Obs ev =>
                  match ev with
                  | Core e => [Event e]
                  | _ => []
                  end
              end) tr.

(** An environment of [ImageCenter.ioE] inside one of [auxE]. *)
Definition core_env (w : env auxE) : world := fun X n ev => w X n (Core ev).

End ImageCenterAux.

(** ** Notions for stating the properties of these methods *)

Module AuxObserved.
Import PyNum ImageCenter ImageCenterAux.

(** A call of [ImageCenter.ioE], as these methods make it. *)
Definition of_event (e : event) : obs auxE :=
  match e with
  | Event ev => Obs (Core ev)
  end.

(** [P] for the calls of [ImageCenter.ioE], nothing for the others. *)
Definition on_core (P : event -> Prop) (c : obs auxE) : Prop :=
  match c with
  | Obs ev =>
      match ev with
      | Core e => P (Event e)
      | _ => True
      end
  end.

(** The calls of [ImageCenter.ioE] of the kind [g]. *)
Definition is_core (g : event -> bool) (c : obs auxE) : bool :=
  match c with
  | Obs ev =>
      match ev with
      | Core e => g (Event e)
      | _ => false
      end
  end.

(** The colour of a pixel of three bands. *)
Definition rgb_of (p : pixel) : rgb := (nth 0 p 0, nth 1 p 0, nth 2 p 0).

(** Every pixel of the image has three bands. *)
Definition three_bands (image : Image) : Prop :=
  forall x y, 0 <= x < width image -> 0 <= y < height image ->
    List.length (pixels image x y) = 3%nat.

(** One pass of the inner loop of [find_image_color]. *)
Definition step (image : Image) (_x _y : Z) (_color : list rgb) : res (list rgb) :=
  (p <- getitem (load image) _x _y ;;
   c <- unpack3 p ;;
   ok (_color ++ [c])%list)%res.

Definition is_ValueError (e : exn) : Prop := exists msg, e = ValueError msg.

(** The exceptions of the unpacking [_r, _g, _b = pix[_x, _y]]. *)
Definition unpack_error (e : exn) : Prop := e = TypeError \/ is_ValueError e.

(** Whether the pixels of the image are bare numbers (one band). *)
Definition one_band (image : Image) : Prop :=
  forall x y, 0 <= x < width image -> 0 <= y < height image ->
    List.length (pixels image x y) = 1%nat.

(** The pixels of the image are tuples (two bands or more). *)
Definition tuples (image : Image) : Prop :=
  forall x y, 0 <= x < width image -> 0 <= y < height image ->
    List.length (pixels image x y) <> 1%nat.

(** A path inside the directory of [get_during]. *)
Definition in_during (path : string) : Prop :=
  exists name, path = (during_path ++ "/" ++ name)%string.

(** No screen capture but [pyscreenshot.grab] into that directory. *)
Definition during_capture (e : event) : Prop :=
  match e with
  | Event (GrabSave path) => in_during path
  | Event (SaveTemporaryPicture _) => False
  | Event (Popen _) => False
  | _ => True
  end.

(** [P] for the calls of [ImageCenter.ioE], no other call. *)
Definition only_core (P : event -> Prop) (c : obs auxE) : Prop :=
  match c with
  | Obs ev =>
      match ev with
      | Core e => P (Event e)
      | _ => False
      end
  end.

(** A trace in two phases: calls that satisfy [P1], then calls that satisfy
    [P2]. *)
Definition phased {E} (P1 P2 : obs E -> Prop) (tr : list (obs E)) : Prop :=
  exists tr1 tr2, tr = (tr1 ++ tr2)%list /\ Forall P1 tr1 /\ Forall P2 tr2.

(** Not a call of the matching phase: no file opened or read, nothing sent
    to the service. *)
Definition no_matching (e : event) : Prop :=
  match e with
  | Event (OpenRb _) => False
  | Event (FileRead _) => False
  | Event (ImagePut _ _) => False
  | Event (MatchImageByOpencv _ _ _ _ _) => False
  | _ => True
  end.

(** Not a call of the capturing phase: no capture, no clock, no pause. *)
Definition no_capturing (e : event) : Prop :=
  match e with
  | Event (GrabSave _) => False
  | Event (SaveTemporaryPicture _) => False
  | Event (Popen _) => False
  | Event TimeTime => False
  | Event (TimeSleep _) => False
  | _ => True
  end.

End AuxObserved.

Module AuxWorlds.
Import PyNum ImageCenter ImageCenterAux.

(** An environment of [auxE] over one of [ImageCenter.ioE]: every picture
    file holds [image], the logger and the shell are silent. *)
Definition over (w : world) (image : Image) : env auxE := fun X n ev =>
  match ev in auxE X return X with
  | Core e => w _ n e
  | LoggerError _ => tt
  | LoggerWarningExc _ => tt
  | ImageOpen _ => ok image
  | ImageExit _ => tt
  | OsSystem _ => 0
  | Makedirs _ => ok tt
  | SleepFloat _ => ok tt
  end.

(** A picture with an alpha band. *)
Definition rgba : Image := image_of_rows [[[255; 0; 0; 255]]].

(** A picture of one band. *)
Definition gray : Image := image_of_rows [[[128]]].

End AuxWorlds.


(** ** What holds once a call has been made; files *)

(** [after T Q p]: whatever the environment answers, once [p] has made a
    call of the kind [T] it ends in an outcome that satisfies [Q]. *)
Fixpoint after {E A} (T : obs E -> bool) (Q : res A -> Prop) (p : prog E A) : Prop :=
  match p with
  | Ret _ => True
  | Raise _ => True
  | Vis ev k =>
      if T (Obs ev)
      then forall x, meets (fun _ => True) (fun _ => false) 0 Q (k x)
      else forall x, after T Q (k x)
  end.

Module Files.
Import ImageCenter.
Local Open Scope string_scope.

(** A picture read for the upload. *)
Definition is_read (e : event) : bool :=
  match e with
  | Event (FileRead _) => true
  | _ => false
  end.

(** An [OSError] is the one the retry loop raises for any [OSError] of a
    pass. *)
Definition converted {A} (conf : Conf) (r : res A) : Prop :=
  match r with
  | inl (OSError msg) => msg = "OCR 服务器链接失败. " ++ server_url conf
  | _ => True
  end.

(** A path with one of the extensions [_match_image_by_opencv] knows. *)
Definition has_extension (path : string) : bool :=
  endswith path ".png" || endswith path ".jpg" || endswith path ".jpeg".

(** The only files opened are the reference picture [screen] and files with
    a known extension. *)
Definition opens_only (screen : string) (e : event) : Prop :=
  match e with
  | Event (OpenRb path) => path = screen \/ has_extension path = true
  | _ => True
  end.

(** As [Examples.quiet], but the matching service is out of reach. *)
Definition offline : world := fun X n ev =>
  match ev in ioE X return X with
  | ImagePut _ _ => throw (OSError "[Errno 111] Connection refused")
  | ev' => Examples.quiet _ n ev'
  end.

End Files.



(** ** The calls of a search without a match *)

Module Exhaustion.
Import PyNum ImageCenter.




Section Trace.

Variables (w : world) (attempt : string -> prog ioE pyval) (secs : Z) (timeout : num).



End Trace.

End Exhaustion.


(** * Facts about the number model *)

Module PyNumFacts.
Import PyNum.

Lemma fexp_eq x : fexp prec emax x = Z.max (x - 53) (-1074).
Proof. reflexivity. Qed.

Lemma digits2_pos_size p : digits2_pos p = Pos.size p.
Proof. induction p; simpl; congruence. Qed.

Lemma Zdigits2_log2 n : 0 < n -> Zdigits2 n = Z.log2 n + 1.
Proof.
  destruct n as [|p|p]; try lia. intros _. simpl Zdigits2.
  rewrite digits2_pos_size.
  destruct p; simpl; rewrite ?Pos2Z.inj_succ; lia.
Qed.

Lemma Zdigits2_nonneg n : 0 <= Zdigits2 n.
Proof. destruct n; simpl; lia. Qed.

Lemma Zdigits2_mul_pow2 n k : 0 < n -> 0 <= k -> Zdigits2 (n * 2 ^ k) = Zdigits2 n + k.
Proof.
  intros Hn Hk.
  assert (0 < n * 2 ^ k) by (apply Z.mul_pos_pos; [lia | apply Z.pow_pos_nonneg; lia]).
  rewrite !Zdigits2_log2 by lia.
  rewrite Z.log2_mul_pow2; lia.
Qed.

Lemma Zdigits2_le_53 K : 0 < K < 2 ^ 53 -> 1 <= Zdigits2 K <= 53.
Proof.
  intros H. rewrite Zdigits2_log2 by lia.
  pose proof (Z.log2_nonneg K).
  assert (Z.log2 K < 53) by (apply Z.log2_lt_pow2; lia). lia.
Qed.

Lemma iter_pos_nat {A} (f : A -> A) p x :
  iter_pos f p x = Nat.iter (Pos.to_nat p) f x.
Proof.
  revert x. induction p as [p IH|p IH|]; intros x; simpl iter_pos.
  - rewrite !IH, Pos2Nat.inj_xI.
    replace (S (2 * Pos.to_nat p))%nat with (Pos.to_nat p + (Pos.to_nat p + 1))%nat by lia.
    rewrite !Nat.iter_add. reflexivity.
  - rewrite !IH, Pos2Nat.inj_xO.
    replace (2 * Pos.to_nat p)%nat with (Pos.to_nat p + Pos.to_nat p)%nat by lia.
    rewrite Nat.iter_add. reflexivity.
  - reflexivity.
Qed.

Lemma shr_iter_exact n : forall p,
  Nat.iter n shr_1 {| shr_m := Zpos p * 2 ^ Z.of_nat n; shr_r := false; shr_s := false |}
  = {| shr_m := Zpos p; shr_r := false; shr_s := false |}.
Proof.
  induction n as [|n IH]; intros p.
  - simpl Nat.iter. f_equal. change (2 ^ Z.of_nat 0) with 1. lia.
  - cbn [Nat.iter nat_rect].
    replace (Zpos p * 2 ^ Z.of_nat (S n)) with (Zpos (xO p) * 2 ^ Z.of_nat n).
    + unfold Nat.iter in IH. rewrite IH. reflexivity.
    + rewrite Nat2Z.inj_succ, Z.pow_succ_r by lia. lia.
Qed.

Lemma shr_exact p1 q e :
  shr {| shr_m := Zpos p1 * 2 ^ Zpos q; shr_r := false; shr_s := false |} e (Zpos q)
  = ({| shr_m := Zpos p1; shr_r := false; shr_s := false |}, e + Zpos q).
Proof.
  unfold shr. rewrite iter_pos_nat.
  rewrite <- (positive_nat_Z q) at 1. rewrite shr_iter_exact. reflexivity.
Qed.


(** Rounding is exact on a value [K * 2^c] that fits the format. *)
Lemma binary_round_aux_exact s p ex K c :
  0 < K < 2 ^ 53 -> -1074 <= c <= 971 -> ex <= c ->
  Zpos p = K * 2 ^ (c - ex) ->
  exists m e,
    binary_round_aux prec emax s (Zpos p) ex loc_Exact = S754_finite s m e
    /\ e <= c /\ Zpos m = K * 2 ^ (c - e).
Proof.
  intros HK Hc Hex Hp.
  pose proof (Zdigits2_le_53 K HK) as HdK.
  assert (Hd : Zdigits2 (Zpos p) + ex = Zdigits2 K + c).
  { rewrite Hp, Zdigits2_mul_pow2 by lia. lia. }
  set (E := Z.max (Zdigits2 K + c - 53) (-1074)).
  assert (HE : fexp prec emax (Zdigits2 (Zpos p) + ex) = E).
  { rewrite Hd, fexp_eq. reflexivity. }
  assert (HEc : E <= c) by (unfold E; lia).
  unfold binary_round_aux, shr_fexp.
  rewrite HE. cbn [shr_record_of_loc].
  destruct (E - ex) as [|q|q] eqn:Hn.
  - (* already at the target exponent *)
    cbn [shr shr_m loc_of_shr_record round_nearest_even shr_record_of_loc].
    rewrite HE, Hn. cbn [shr shr_m].
    assert (Hle : (ex <=? emax - prec) = true) by (apply Z.leb_le; unfold emax, prec; lia).
    rewrite Hle. exists p, ex. auto.
  - (* [q] trailing zero bits are shifted out *)
    assert (Hpos : 0 < K * 2 ^ (c - E)) by (apply Z.mul_pos_pos; [lia | apply Z.pow_pos_nonneg; lia]).
    destruct (K * 2 ^ (c - E)) as [|p1|p1] eqn:Hp1; try lia.
    assert (Hsplit : Zpos p = Zpos p1 * 2 ^ Zpos q).
    { rewrite Hp, <- Hp1, <- Z.mul_assoc, <- Z.pow_add_r by lia. f_equal. f_equal. lia. }
    rewrite Hsplit, shr_exact.
    cbn [shr_m loc_of_shr_record round_nearest_even shr_record_of_loc].
    assert (HE2 : fexp prec emax (Zdigits2 (Zpos p1) + (ex + Zpos q)) = ex + Zpos q).
    { rewrite <- Hp1, Zdigits2_mul_pow2 by lia. rewrite fexp_eq. unfold E in *. lia. }
    rewrite HE2, Z.sub_diag. cbn [shr shr_m].
    assert (Hle : (ex + Zpos q <=? emax - prec) = true) by (apply Z.leb_le; unfold emax, prec; lia).
    rewrite Hle. exists p1, (ex + Zpos q). repeat split; try lia.
    rewrite <- Hp1. f_equal. f_equal. lia.
  - cbn [shr shr_m loc_of_shr_record round_nearest_even shr_record_of_loc].
    rewrite HE, Hn. cbn [shr shr_m].
    assert (Hle : (ex <=? emax - prec) = true) by (apply Z.leb_le; unfold emax, prec; lia).
    rewrite Hle. exists p, ex. auto.
Qed.

Lemma iter_xO_pow2 p d : Zpos (Pos.iter xO p d) = Zpos p * 2 ^ Zpos d.
Proof.
  induction d as [|d IH] using Pos.peano_ind.
  - simpl Pos.iter. change (2 ^ 1) with 2. lia.
  - rewrite Pos.iter_succ, Pos2Z.inj_succ, Z.pow_succ_r by lia.
    rewrite Pos2Z.inj_xO, IH. lia.
Qed.

Lemma shl_align_spec p ex ex' :
  exists p' e', shl_align p ex ex' = (p', e') /\ e' <= ex
                /\ Zpos p' = Zpos p * 2 ^ (ex - e').
Proof.
  unfold shl_align. destruct (ex' - ex) as [|d|d] eqn:Hd.
  - exists p, ex. rewrite Z.sub_diag. repeat split; lia.
  - exists p, ex. rewrite Z.sub_diag. repeat split; lia.
  - exists (Pos.iter xO p d), ex'. repeat split; try lia.
    replace (ex - ex') with (Zpos d) by lia.
    apply iter_xO_pow2.
Qed.

Lemma binary_round_exact s p ex K c :
  0 < K < 2 ^ 53 -> -1074 <= c <= 971 -> ex <= c ->
  Zpos p = K * 2 ^ (c - ex) ->
  exists m e,
    binary_round prec emax s p ex = S754_finite s m e
    /\ e <= c /\ Zpos m = K * 2 ^ (c - e).
Proof.
  intros HK Hc Hex Hp. unfold binary_round.
  destruct (shl_align_spec p ex (fexp prec emax (Zpos (digits2_pos p) + ex)))
    as (p' & e' & -> & He' & Hp').
  apply binary_round_aux_exact with (K := K) (c := c); try lia.
  rewrite Hp', Hp, <- Z.mul_assoc, <- Z.pow_add_r by lia.
  f_equal. f_equal. lia.
Qed.

(** An int below [2^53] converts to a float of the same value. *)
Lemma float_of_int_exact z :
  0 < z < 2 ^ 53 ->
  exists m e, float_of_int z = ok (S754_finite false m e)
              /\ e <= 0 /\ Zpos m = z * 2 ^ (- e).
Proof.
  intros Hz. destruct z as [|p|p]; try lia.
  unfold float_of_int, binary_normalize.
  destruct (binary_round_exact false p 0 (Zpos p) 0) as (m & e & -> & He & Hm); try lia.
  exists m, e. repeat split; try lia. rewrite Hm. f_equal.
Qed.

(** [w / 2] is exact for [w] below [2^53]. *)
Lemma int_truediv_2_exact w :
  0 < w < 2 ^ 53 ->
  exists m e, int_truediv w 2 = ok (S754_finite false m e)
              /\ e <= -1 /\ Zpos m = w * 2 ^ (- 1 - e).
Proof.
  intros Hw. destruct w as [|p|p]; try lia.
  unfold int_truediv. change (2 =? 0) with false. cbv iota.
  unfold raw_of_int, SFdiv, SFdiv_core_binary.
  pose proof (Zdigits2_le_53 (Zpos p) Hw) as Hd.
  change (Zdigits2 2) with 2.
  set (d := Zdigits2 (Zpos p)) in *.
  rewrite fexp_eq.
  replace (Z.min (Z.max (d + 0 - (2 + 0) - 53) (-1074)) (0 - 0)) with (d - 55) by lia.
  replace (0 - 0 - (d - 55)) with (55 - d) by lia.
  destruct (55 - d) as [|s|s] eqn:Hs; try lia.
  rewrite Z.shiftl_mul_pow2 by lia.
  assert (Hq : Zpos p * 2 ^ Zpos s = (Zpos p * 2 ^ (Zpos s - 1)) * 2).
  { replace (Zpos s) with (Z.succ (Zpos s - 1)) at 1 by lia.
    rewrite Z.pow_succ_r by lia. lia. }
  assert (Hde : Z.div_eucl (Zpos p * 2 ^ Zpos s) 2 = (Zpos p * 2 ^ (Zpos s - 1), 0)).
  { pose proof (Z.div_eucl_eq (Zpos p * 2 ^ Zpos s) 2) as Heq.
    pose proof (Z.mod_pos_bound (Zpos p * 2 ^ Zpos s) 2) as Hb.
    unfold Z.modulo in Hb.
    destruct (Z.div_eucl (Zpos p * 2 ^ Zpos s) 2) as [q r].
    f_equal; lia. }
  rewrite Hde. change (new_location 2 0) with loc_Exact. cbn [xorb].
  assert (Hpos : 0 < Zpos p * 2 ^ (Zpos s - 1)) by (apply Z.mul_pos_pos; [lia | apply Z.pow_pos_nonneg; lia]).
  destruct (Zpos p * 2 ^ (Zpos s - 1)) as [|p1|p1] eqn:Hp1; try lia.
  destruct (binary_round_aux_exact false p1 (d - 55) (Zpos p) (-1)) as (m & e & -> & He & Hm); try lia.
  { rewrite <- Hp1. f_equal. f_equal. lia. }
  exists m, e. repeat split; try lia.
Qed.

(** Truncating a float of value [K / 2] gives [K / 2] rounded down. *)
Lemma int_of_float_half m e K :
  0 < K -> e <= -1 -> Zpos m = K * 2 ^ (- 1 - e) ->
  int_of_float (S754_finite false m e) = ok (K / 2).
Proof.
  intros HK He Hm. unfold int_of_float.
  destruct e as [|q|q]; try lia.
  rewrite Z.shiftr_div_pow2 by lia. rewrite Hm. f_equal.
  replace (2 ^ Zpos q) with (2 * 2 ^ (-1 - Zneg q)).
  - rewrite Z.div_mul_cancel_r; lia.
  - rewrite <- Z.pow_succ_r by lia. f_equal. lia.
Qed.




Lemma shl_align_fst p ex ez :
  ez <= ex -> Zpos (fst (shl_align p ex ez)) = Zpos p * 2 ^ (ex - ez).
Proof.
  intros H. unfold shl_align. destruct (ez - ex) as [|d|d] eqn:Hd; try lia.
  - replace (ex - ez) with 0 by lia. simpl fst. change (2 ^ 0) with 1. lia.
  - simpl fst. rewrite iter_xO_pow2. f_equal. f_equal. lia.
Qed.

Lemma pow2_split a b : 0 <= a -> 0 <= b -> 2 ^ a * 2 ^ b = 2 ^ (a + b).
Proof. intros. rewrite Z.pow_add_r; lia. Qed.

(** [int(x + f)] for a float [f] of value [w / 2]. *)
Lemma int_add_half_exact x w my ey :
  0 <= x -> 0 < w -> 2 * x + w < 2 ^ 53 ->
  ey <= -1 -> Zpos my = w * 2 ^ (- 1 - ey) ->
  (s <- int_add_float x (S754_finite false my ey) ;; int_of_float s)%res
  = ok (x + w / 2).
Proof.
  intros Hx Hw Hb Hey Hmy. unfold int_add_float.
  destruct (Z.eq_dec x 0) as [->|Hx0].
  - change (float_of_int 0) with (@ok float (S754_zero false)).
    cbn [rbind ok SFadd]. rewrite (int_of_float_half my ey w); auto.
  - destruct (float_of_int_exact x) as (mx & ex & -> & Hex & Hmx); try lia.
    cbn [rbind ok SFadd cond_Zopp].
    set (ez := Z.min ex ey).
    rewrite !shl_align_fst by (unfold ez; lia).
    assert (Hsum : Zpos mx * 2 ^ (ex - ez) + Zpos my * 2 ^ (ey - ez)
                   = (2 * x + w) * 2 ^ (- 1 - ez)).
    { rewrite Hmx, Hmy, <- !Z.mul_assoc, !pow2_split by (unfold ez; lia).
      replace (- ex + (ex - ez)) with (Z.succ (- 1 - ez)) by lia.
      replace (-1 - ey + (ey - ez)) with (- 1 - ez) by lia.
      rewrite Z.pow_succ_r by (unfold ez; lia). lia. }
    rewrite Hsum.
    assert (Hpos : 0 < (2 * x + w) * 2 ^ (- 1 - ez))
      by (apply Z.mul_pos_pos; [lia | apply Z.pow_pos_nonneg; lia]).
    destruct ((2 * x + w) * 2 ^ (- 1 - ez)) as [|ps|ps] eqn:Hps; try lia.
    unfold binary_normalize.
    destruct (binary_round_exact false ps ez (2 * x + w) (-1)) as (m & e & -> & He & Hm);
      [lia | lia | unfold ez; lia | symmetry; exact Hps | ].
    rewrite (int_of_float_half m e (2 * x + w)); try lia.
    f_equal. rewrite (Z.mul_comm 2 x), Z.div_add_l; lia.
Qed.

(** [n / n] is [1.0]. *)
Lemma int_truediv_self n : 0 < n -> int_truediv n n = ok f_one.
Proof.
  intros Hn. destruct n as [|p|p]; try lia.
  unfold int_truediv. change (Zpos p =? 0) with false. cbv iota.
  unfold raw_of_int, SFdiv, SFdiv_core_binary.
  replace (Zdigits2 (Zpos p) + 0 - (Zdigits2 (Zpos p) + 0)) with 0 by lia.
  change (Z.min (fexp prec emax 0) (0 - 0)) with (-53).
  change (0 - 0 - -53) with 53.
  cbv iota. rewrite Z.shiftl_mul_pow2 by lia.
  assert (Hde : Z.div_eucl (Zpos p * 2 ^ 53) (Zpos p) = (2 ^ 53, 0)).
  { pose proof (Z.div_eucl_eq (Zpos p * 2 ^ 53) (Zpos p)) as Heq.
    pose proof (Z.mod_pos_bound (Zpos p * 2 ^ 53) (Zpos p)) as Hb.
    unfold Z.modulo in Hb.
    destruct (Z.div_eucl (Zpos p * 2 ^ 53) (Zpos p)) as [q r].
    specialize (Heq ltac:(lia)). specialize (Hb ltac:(lia)).
    assert (q = 2 ^ 53) by nia. subst q. f_equal. lia. }
  rewrite Hde.
  assert (Hloc : new_location (Zpos p) 0 = loc_Exact).
  { unfold new_location, new_location_even, new_location_odd.
    destruct (Z.even (Zpos p)); reflexivity. }
  rewrite Hloc. vm_compute. reflexivity.
Qed.


Lemma Zdigits2_le a b : 0 <= a <= b -> Zdigits2 a <= Zdigits2 b.
Proof.
  intros H. destruct (Z.eq_dec a 0) as [->|Ha].
  - apply Zdigits2_nonneg.
  - rewrite !Zdigits2_log2 by lia. pose proof (Z.log2_le_mono a b). lia.
Qed.

Lemma Zdigits2_succ a : 0 <= a -> Zdigits2 (a + 1) <= Zdigits2 a + 1.
Proof.
  intros H. destruct (Z.eq_dec a 0) as [->|Ha].
  - simpl. lia.
  - rewrite !Zdigits2_log2 by lia. pose proof (Z.log2_succ_le a).
    unfold Z.succ in *. lia.
Qed.

Lemma Zdigits2_div_pow2 m q :
  0 <= m -> 0 <= q -> Zdigits2 (m / 2 ^ q) + q <= Z.max (Zdigits2 m) q.
Proof.
  intros Hm Hq.
  assert (Hp : 0 < 2 ^ q) by (apply Z.pow_pos_nonneg; lia).
  pose proof (Z.div_pos m (2 ^ q) Hm Hp) as Hd.
  destruct (Z.eq_dec (m / 2 ^ q) 0) as [->|Hnz].
  - simpl. lia.
  - assert (Hle : m / 2 ^ q * 2 ^ q <= m).
    { rewrite Z.mul_comm. apply Z.mul_div_le. lia. }
    assert (Hlog : Z.log2 (m / 2 ^ q * 2 ^ q) <= Z.log2 m) by (apply Z.log2_le_mono; lia).
    rewrite Z.log2_mul_pow2 in Hlog by lia.
    rewrite !Zdigits2_log2 by lia. lia.
Qed.

Lemma shr_1_m mrs : 0 <= shr_m mrs -> shr_m (shr_1 mrs) = shr_m mrs / 2.
Proof.
  destruct mrs as [m r s]. cbn [shr_m]. intros Hm.
  destruct m as [|[p|p|]|p]; try lia; cbn [shr_1 shr_m].
  - reflexivity.
  - rewrite Pos2Z.inj_xI, Z.mul_comm, Z.div_add_l by lia. reflexivity.
  - rewrite Pos2Z.inj_xO, Z.mul_comm, Z.div_mul by lia. reflexivity.
  - reflexivity.
Qed.

Lemma shr_m_iter n : forall mrs,
  0 <= shr_m mrs ->
  shr_m (Nat.iter n shr_1 mrs) = shr_m mrs / 2 ^ Z.of_nat n.
Proof.
  induction n as [|n IH]; intros mrs Hm.
  - simpl Nat.iter. change (2 ^ Z.of_nat 0) with 1. rewrite Z.div_1_r. reflexivity.
  - cbn [Nat.iter nat_rect]. fold (Nat.iter n shr_1 mrs).
    assert (0 <= shr_m (Nat.iter n shr_1 mrs)).
    { rewrite IH by lia. apply Z.div_pos; [lia | apply Z.pow_pos_nonneg; lia]. }
    rewrite shr_1_m, IH by lia.
    rewrite Nat2Z.inj_succ, Z.pow_succ_r, Z.div_div by
      (try apply Z.pow_pos_nonneg; lia).
    f_equal. lia.
Qed.

Lemma shr_m_of_loc m l : shr_m (shr_record_of_loc m l) = m.
Proof. destruct l as [|[]]; reflexivity. Qed.

Lemma shr_fexp_bound m ex l :
  0 <= m ->
  let '(mrs, e) := shr_fexp prec emax m ex l in
  0 <= shr_m mrs
  /\ e = Z.max ex (fexp prec emax (Zdigits2 m + ex))
  /\ Zdigits2 (shr_m mrs) + e <= Z.max (Zdigits2 m + ex) e.
Proof.
  intros Hm. unfold shr_fexp, shr.
  destruct (fexp prec emax (Zdigits2 m + ex) - ex) as [|q|q] eqn:Hq;
    rewrite ?shr_m_of_loc; try (repeat split; lia).
  rewrite iter_pos_nat, shr_m_iter, shr_m_of_loc, positive_nat_Z
    by (rewrite shr_m_of_loc; lia).
  repeat split.
  - apply Z.div_pos; [lia | apply Z.pow_pos_nonneg; lia].
  - lia.
  - pose proof (Zdigits2_div_pow2 m (Zpos q) Hm ltac:(lia)). lia.
Qed.

Lemma round_nearest_even_bound m l :
  0 <= m -> 0 <= round_nearest_even m l <= m + 1.
Proof.
  intros Hm. unfold round_nearest_even.
  destruct l as [|[]]; try lia. destruct (Z.even m); lia.
Qed.

(** Rounding a small enough magnitude never overflows. *)
Lemma binary_round_aux_not_inf s m ex l s' :
  0 <= m -> ex <= 971 -> Zdigits2 m + ex <= 1023 ->
  binary_round_aux prec emax s m ex l <> S754_infinity s'.
Proof.
  intros Hm Hex Hd. unfold binary_round_aux.
  pose proof (shr_fexp_bound m ex l Hm) as H1.
  destruct (shr_fexp prec emax m ex l) as [mrs1 e1].
  destruct H1 as (Hm1 & He1 & Hd1).
  set (m2 := round_nearest_even (shr_m mrs1) (loc_of_shr_record mrs1)).
  pose proof (round_nearest_even_bound (shr_m mrs1) (loc_of_shr_record mrs1) Hm1) as Hm2.
  fold m2 in Hm2.
  pose proof (shr_fexp_bound m2 e1 loc_Exact ltac:(lia)) as H2.
  destruct (shr_fexp prec emax m2 e1 loc_Exact) as [mrs2 e2].
  destruct H2 as (_ & He2 & _).
  rewrite fexp_eq in He1, He2.
  assert (Zdigits2 m2 <= Zdigits2 (shr_m mrs1) + 1).
  { etransitivity; [apply (Zdigits2_le m2 (shr_m mrs1 + 1)); lia|].
    apply Zdigits2_succ; lia. }
  destruct (shr_m mrs2); try discriminate.
  assert (Hle : (e2 <=? emax - prec) = true) by (apply Z.leb_le; unfold emax, prec; lia).
  rewrite Hle. discriminate.
Qed.

(** A ratio [a / b] with [0 <= a <= b] and [b > 0] is computed without
    raising. *)
Lemma int_truediv_le_ok a b :
  0 <= a <= b -> 0 < b -> exists f, int_truediv a b = ok f.
Proof.
  intros Hab Hb. unfold int_truediv.
  destruct (Z.eqb_spec b 0) as [?|_]; try lia.
  destruct b as [|pb|pb]; try lia.
  destruct a as [|pa|pa]; try lia.
  - simpl. eexists; reflexivity.
  - assert (Hni : forall s', SFdiv prec emax (raw_of_int (Zpos pa)) (raw_of_int (Zpos pb))
                             <> S754_infinity s').
    { intros s'. unfold raw_of_int, SFdiv, SFdiv_core_binary.
      assert (Hdd : Zdigits2 (Zpos pa) <= Zdigits2 (Zpos pb)) by (apply Zdigits2_le; lia).
      pose proof (Zdigits2_nonneg (Zpos pa)). rewrite fexp_eq.
      set (e' := Z.min _ _).
      assert (He' : e' <= -53) by (unfold e'; lia).
      destruct (0 - 0 - e') as [|sh|sh] eqn:Hsh; try lia.
      rewrite Z.shiftl_mul_pow2 by lia.
      pose proof (Z.div_eucl_eq (Zpos pa * 2 ^ Zpos sh) (Zpos pb) ltac:(lia)) as Heq.
      pose proof (Z.mod_pos_bound (Zpos pa * 2 ^ Zpos sh) (Zpos pb) ltac:(lia)) as Hr.
      unfold Z.modulo in Hr.
      destruct (Z.div_eucl (Zpos pa * 2 ^ Zpos sh) (Zpos pb)) as [q r].
      assert (Hp : 0 < 2 ^ Zpos sh) by (apply Z.pow_pos_nonneg; lia).
      assert (Hq : 0 <= q <= 2 ^ Zpos sh) by nia.
      apply binary_round_aux_not_inf; try lia.
      pose proof (Zdigits2_le q (2 ^ Zpos sh) Hq) as Hdq.
      replace (2 ^ Zpos sh) with (1 * 2 ^ Zpos sh) in Hdq by lia.
      rewrite Zdigits2_mul_pow2 in Hdq by lia. simpl (Zdigits2 1) in Hdq. lia. }
    destruct (SFdiv prec emax (raw_of_int (Zpos pa)) (raw_of_int (Zpos pb))) eqn:E;
      try (eexists; reflexivity).
    exfalso. eapply Hni. reflexivity.
Qed.


Lemma shr_fexp_m m ex l :
  0 <= m ->
  let '(mrs, e) := shr_fexp prec emax m ex l in
  ex <= e /\ shr_m mrs = m / 2 ^ (e - ex).
Proof.
  intros Hm. unfold shr_fexp, shr.
  destruct (fexp prec emax (Zdigits2 m + ex) - ex) as [|q|q] eqn:Hq;
    rewrite ?shr_m_of_loc.
  - rewrite Z.sub_diag. change (2 ^ 0) with 1. rewrite Z.div_1_r. split; [lia|reflexivity].
  - rewrite iter_pos_nat, shr_m_iter, shr_m_of_loc, positive_nat_Z
      by (rewrite shr_m_of_loc; lia).
    split; [lia|]. f_equal. f_equal. lia.
  - rewrite Z.sub_diag. change (2 ^ 0) with 1. rewrite Z.div_1_r. split; [lia|reflexivity].
Qed.

(** What rounding can return at most: the mantissa cut at the first target
    exponent, plus one, cut again at the final exponent. *)
Lemma binary_round_aux_upper s m ex l s3 m3 e3 :
  0 <= m ->
  binary_round_aux prec emax s m ex l = S754_finite s3 m3 e3 ->
  exists e1,
    e1 = Z.max ex (fexp prec emax (Zdigits2 m + ex))
    /\ e1 <= e3
    /\ e3 <= Z.max e1 (fexp prec emax (Zdigits2 (m / 2 ^ (e1 - ex) + 1) + e1))
    /\ Zpos m3 <= (m / 2 ^ (e1 - ex) + 1) / 2 ^ (e3 - e1).
Proof.
  intros Hm. unfold binary_round_aux.
  pose proof (shr_fexp_bound m ex l Hm) as H1.
  pose proof (shr_fexp_m m ex l Hm) as H1'.
  destruct (shr_fexp prec emax m ex l) as [mrs1 e1].
  destruct H1 as (Hm1 & He1 & _). destruct H1' as (Hle1 & Hv1).
  set (m2 := round_nearest_even (shr_m mrs1) (loc_of_shr_record mrs1)).
  pose proof (round_nearest_even_bound (shr_m mrs1) (loc_of_shr_record mrs1) Hm1) as Hm2.
  fold m2 in Hm2.
  pose proof (shr_fexp_bound m2 e1 loc_Exact ltac:(lia)) as H2.
  pose proof (shr_fexp_m m2 e1 loc_Exact ltac:(lia)) as H2'.
  destruct (shr_fexp prec emax m2 e1 loc_Exact) as [mrs2 e2].
  destruct H2 as (_ & He2 & _). destruct H2' as (Hle2 & Hv2).
  destruct (shr_m mrs2) as [|p|p] eqn:Hp; try discriminate.
  destruct (e2 <=? emax - prec); try discriminate.
  intros H. injection H as _ <- <-.
  exists e1. rewrite <- Hv1. split; [exact He1|]. split; [exact Hle2|]. split.
  - rewrite He2. apply Z.max_le_compat_l. rewrite !fexp_eq.
    pose proof (Zdigits2_le m2 (shr_m mrs1 + 1) ltac:(lia)). lia.
  - rewrite Hv2. apply Z.div_le_mono; [apply Z.pow_pos_nonneg; lia | lia].
Qed.

Lemma binary_round_aux_not_nan s m ex l :
  0 <= m -> binary_round_aux prec emax s m ex l <> S754_nan.
Proof.
  intros Hm. unfold binary_round_aux.
  pose proof (shr_fexp_bound m ex l Hm) as H1.
  destruct (shr_fexp prec emax m ex l) as [mrs1 e1].
  destruct H1 as (Hm1 & _ & _).
  pose proof (round_nearest_even_bound (shr_m mrs1) (loc_of_shr_record mrs1) Hm1) as Hm2.
  pose proof (shr_fexp_bound (round_nearest_even (shr_m mrs1) (loc_of_shr_record mrs1))
                e1 loc_Exact ltac:(lia)) as H2.
  destruct (shr_fexp prec emax _ e1 loc_Exact) as [mrs2 e2].
  destruct H2 as (Hm3 & _ & _).
  destruct (shr_m mrs2); try discriminate; try lia.
  destruct (e2 <=? emax - prec); discriminate.
Qed.

Lemma Zdigits2_lt_pow2 m k : 0 <= m < 2 ^ k -> 0 <= k -> Zdigits2 m <= k.
Proof.
  intros Hm Hk. destruct (Z.eq_dec m 0) as [->|Hnz]; [simpl; lia|].
  rewrite Zdigits2_log2 by lia.
  assert (Z.log2 m < k) by (apply Z.log2_lt_pow2; lia). lia.
Qed.

(** A ratio [a / b] with [a < b] below [2^53] rounds to a float below
    [1.0]. *)
Lemma int_truediv_below_one a b :
  0 <= a < b -> b < 2 ^ 53 ->
  exists f, int_truediv a b = ok f /\ num_le (PyFloat f_one) (PyFloat f) = false.
Proof.
  intros Hab Hb.
  destruct (int_truediv_le_ok a b) as (f & Hf); try lia.
  exists f. split; [exact Hf|].
  unfold int_truediv in Hf.
  destruct (Z.eqb_spec b 0) as [?|_]; try lia.
  destruct b as [|pb|pb]; try lia.
  destruct a as [|pa|pa]; try lia.
  - cbn in Hf. injection Hf as <-. reflexivity.
  - unfold raw_of_int, SFdiv, SFdiv_core_binary in Hf.
    assert (Hdd : Zdigits2 (Zpos pa) <= Zdigits2 (Zpos pb)) by (apply Zdigits2_le; lia).
    pose proof (Zdigits2_le_53 (Zpos pa) ltac:(lia)) as Hd1.
    pose proof (Zdigits2_le_53 (Zpos pb) ltac:(lia)) as Hd2.
    rewrite fexp_eq in Hf.
    set (d1 := Zdigits2 (Zpos pa)) in *. set (d2 := Zdigits2 (Zpos pb)) in *.
    replace (Z.min (Z.max (d1 + 0 - (d2 + 0) - 53) (-1074)) (0 - 0))
      with (d1 - d2 - 53) in Hf by lia.
    replace (0 - 0 - (d1 - d2 - 53)) with (53 + (d2 - d1)) in Hf by lia.
    set (t := d2 - d1) in *.
    destruct (53 + t) as [|sh|sh] eqn:Hsh; try lia.
    rewrite Z.shiftl_mul_pow2 in Hf by lia.
    pose proof (Z.div_eucl_eq (Zpos pa * 2 ^ Zpos sh) (Zpos pb) ltac:(lia)) as Heq.
    pose proof (Z.mod_pos_bound (Zpos pa * 2 ^ Zpos sh) (Zpos pb) ltac:(lia)) as Hr.
    unfold Z.modulo in Hr.
    destruct (Z.div_eucl (Zpos pa * 2 ^ Zpos sh) (Zpos pb)) as [q r].
    (* the quotient stays below [2^sh - 2^t] *)
    assert (Hsplit : 2 ^ Zpos sh = 2 ^ t * 2 ^ 53).
    { rewrite <- Z.pow_add_r by lia. f_equal. lia. }
    assert (Ht : 0 < 2 ^ t) by (apply Z.pow_pos_nonneg; lia).
    assert (Hq0 : 0 <= q) by nia.
    assert (Hq : q < 2 ^ Zpos sh - 2 ^ t).
    { rewrite Hsplit. rewrite Hsplit in Heq.
      assert (Zpos pa <= Zpos pb - 1) by lia.
      assert (Hprod : Zpos pb * q <= (Zpos pb - 1) * (2 ^ t * 2 ^ 53)) by nia.
      assert (H53 : Zpos pb <= 2 ^ 53 - 1) by lia.
      nia. }
    cbn [xorb] in Hf.
    destruct (binary_round_aux prec emax false q (d1 - d2 - 53) (new_location (Z.pos pb) r))
      as [s3| s3| |s3 m3 e3] eqn:Hbra; try discriminate.
    + injection Hf as <-. destruct s3; reflexivity.
    + exfalso. exact (binary_round_aux_not_nan _ _ _ _ Hq0 Hbra).
    + injection Hf as <-.
      destruct (binary_round_aux_upper _ _ _ _ _ _ _ Hq0 Hbra)
        as (e1 & He1 & He13 & He3 & Hm3).
      assert (Hs3 : s3 = false).
      { unfold binary_round_aux in Hbra.
        destruct (shr_fexp prec emax q (d1 - d2 - 53) (new_location (Z.pos pb) r)) as [a1 b1].
        destruct (shr_fexp prec emax _ b1 loc_Exact) as [a2 b2].
        destruct (shr_m a2); try discriminate.
        destruct (b2 <=? emax - prec); try discriminate. congruence. }
      subst s3. rewrite fexp_eq in He1, He3.
      assert (Hdq : Zdigits2 q <= Zpos sh).
      { apply Zdigits2_lt_pow2; lia. }
      set (n1 := e1 - (d1 - d2 - 53)) in *.
      assert (Hn1 : 0 <= n1 <= t) by (unfold n1, t in *; lia).
      assert (He1neg : - e1 = Zpos sh - n1) by (unfold n1, t in *; lia).
      (* the mantissa after the first cut stays below [2^(-e1) - 1] *)
      assert (Hpn : 0 < 2 ^ n1) by (apply Z.pow_pos_nonneg; lia).
      assert (Hsplit2 : 2 ^ Zpos sh = 2 ^ n1 * 2 ^ (- e1)).
      { rewrite <- Z.pow_add_r by lia. f_equal. lia. }
      assert (Hsplit3 : 2 ^ t = 2 ^ n1 * 2 ^ (t - n1)).
      { rewrite <- Z.pow_add_r by lia. f_equal. lia. }
      assert (Htn : 0 < 2 ^ (t - n1)) by (apply Z.pow_pos_nonneg; lia).
      assert (HM1 : q / 2 ^ n1 + 1 <= 2 ^ (- e1) - 1).
      { assert (q / 2 ^ n1 < 2 ^ (- e1) - 2 ^ (t - n1)).
        { apply Z.div_lt_upper_bound; [lia|]. nia. }
        lia. }
      assert (HM1pos : 0 <= q / 2 ^ n1) by (apply Z.div_pos; lia).
      assert (He3neg : e3 <= -53).
      { assert (Zdigits2 (q / 2 ^ n1 + 1) <= - e1).
        { apply Zdigits2_lt_pow2; lia. }
        lia. }
      assert (Hp3 : 0 < 2 ^ (e3 - e1)) by (apply Z.pow_pos_nonneg; lia).
      assert (Hm3lt : Zpos m3 < 2 ^ (- e3)).
      { eapply Z.le_lt_trans; [exact Hm3|].
        apply Z.div_lt_upper_bound; [lia|].
        rewrite <- Z.pow_add_r by lia.
        replace (e3 - e1 + - e3) with (- e1) by lia. lia. }
      unfold num_le. cbn [num_val float_val f_one ext_leb].
      apply Z.leb_gt.
      replace (Z.min (-52) e3) with e3 by lia.
      rewrite Z.sub_diag. change (2 ^ 0) with 1. rewrite Z.mul_1_r.
      assert (H52 : 4503599627370496 = 2 ^ 52) by reflexivity.
      rewrite H52, <- Z.pow_add_r by lia.
      replace (52 + (-52 - e3)) with (- e3) by lia. exact Hm3lt.
Qed.

(** ** Order facts for the comparison operators *)

Lemma fin_leb_iff m1 e1 m2 e2 j :
  j <= e1 -> j <= e2 ->
  ext_leb (Fin m1 e1) (Fin m2 e2) = true
  <-> m1 * 2 ^ (e1 - j) <= m2 * 2 ^ (e2 - j).
Proof.
  intros H1 H2. cbn [ext_leb]. set (k := Z.min e1 e2).
  assert (Hk : j <= k) by (unfold k; lia).
  assert (Hp : 0 < 2 ^ (k - j)) by (apply Z.pow_pos_nonneg; lia).
  replace (e1 - j) with ((e1 - k) + (k - j)) by lia.
  replace (e2 - j) with ((e2 - k) + (k - j)) by lia.
  rewrite !Z.pow_add_r by (unfold k; lia).
  rewrite Z.leb_le, !Z.mul_assoc.
  split; intros H; nia.
Qed.

Lemma ext_leb_trans a b c :
  ext_leb a b = true -> ext_leb b c = true -> ext_leb a c = true.
Proof.
  destruct a as [|m1 e1|], b as [|m2 e2|], c as [|m3 e3|];
    try reflexivity; try discriminate.
  intros H12 H23.
  set (j := Z.min e1 (Z.min e2 e3)).
  apply (fin_leb_iff m1 e1 m2 e2 j) in H12; try (unfold j; lia).
  apply (fin_leb_iff m2 e2 m3 e3 j) in H23; try (unfold j; lia).
  apply (fin_leb_iff m1 e1 m3 e3 j); try (unfold j; lia).
  etransitivity; eassumption.
Qed.

Lemma num_le_trans a b c :
  num_le a b = true -> num_le b c = true -> num_le a c = true.
Proof.
  unfold num_le.
  destruct (num_val a) as [x|]; try discriminate.
  destruct (num_val b) as [y|]; try discriminate.
  destruct (num_val c) as [z|]; try discriminate.
  apply ext_leb_trans.
Qed.

End PyNumFacts.

(** * Facts about loops, ranges and programs *)

Section LoopFacts.

Lemma range_In i n : In i (range n) <-> 0 <= i < n.
Proof.
  unfold range. rewrite in_map_iff. split.
  - intros (k & <- & Hk). apply in_seq in Hk. lia.
  - intros H. exists (Z.to_nat i). split; [lia|]. apply in_seq. lia.
Qed.

Lemma range_nil n : n <= 0 -> range n = [].
Proof. intros H. unfold range. replace (Z.to_nat n) with 0%nat by lia. reflexivity. Qed.

Lemma range_length n : Z.of_nat (List.length (range n)) = Z.max 0 n.
Proof. unfold range. rewrite length_map, length_seq. lia. Qed.

Lemma range_NoDup n : NoDup (range n).
Proof.
  unfold range. apply Injective_map_NoDup.
  - intros a b. lia.
  - apply seq_NoDup.
Qed.

(** [range n] up to [x], then [x], then the rest, all larger. *)
Lemma range_split x n :
  0 <= x < n ->
  exists l2, range n = range x ++ x :: l2 /\ forall y, In y l2 -> x < y < n.
Proof.
  intros H. unfold range.
  replace (Z.to_nat n) with (Z.to_nat x + S (Z.to_nat n - Z.to_nat x - 1))%nat by lia.
  rewrite seq_app, map_app. cbn [seq map Nat.add].
  exists (map Z.of_nat (seq (S (Z.to_nat x)) (Z.to_nat n - Z.to_nat x - 1))).
  split.
  - f_equal. f_equal. lia.
  - intros y Hy. apply in_map_iff in Hy. destruct Hy as (k & <- & Hk).
    apply in_seq in Hk. lia.
Qed.

Context {X S R : Type}.

(** A loop whose body keeps an invariant indexed by the number of passes. *)
Lemma for_each_invariant (I : nat -> S -> Prop) (l : list X) (body : X -> S -> res S) :
  (forall x k st, In x l -> I k st -> exists st', body x st = ok st' /\ I (Datatypes.S k) st') ->
  forall k st, I k st ->
  exists st', for_each l st body = ok st' /\ I (k + List.length l)%nat st'.
Proof.
  induction l as [|x l IH]; intros Hbody k st Hst.
  - exists st. rewrite Nat.add_0_r. auto.
  - destruct (Hbody x k st (or_introl eq_refl) Hst) as (st1 & Hb & H1).
    destruct (IH (fun y k' s' Hy => Hbody y k' s' (or_intror Hy)) (Datatypes.S k) st1 H1)
      as (st2 & Hf & H2).
    exists st2. cbn [for_each]. rewrite Hb. cbn [rbind ok]. split; [exact Hf|].
    cbn [List.length]. replace (k + Datatypes.S (List.length l))%nat
      with (Datatypes.S k + List.length l)%nat by lia. exact H2.
Qed.

(** A loop whose body keeps an invariant on the elements done so far. *)
Lemma for_each_prefix (I : list X -> S -> Prop) (l : list X) (body : X -> S -> res S) :
  (forall pre x st, In x l -> I pre st ->
     exists st', body x st = ok st' /\ I (pre ++ [x]) st') ->
  forall pre st, I pre st ->
  exists st', for_each l st body = ok st' /\ I (pre ++ l) st'.
Proof.
  induction l as [|x l IH]; intros Hbody pre st Hst.
  - exists st. rewrite app_nil_r. auto.
  - destruct (Hbody pre x st (or_introl eq_refl) Hst) as (st1 & Hb & H1).
    destruct (IH (fun p y s' Hy => Hbody p y s' (or_intror Hy)) (pre ++ [x]) st1 H1)
      as (st2 & Hf & H2).
    exists st2. cbn [for_each]. rewrite Hb. cbn [rbind ok]. split; [exact Hf|].
    rewrite <- app_assoc in H2. exact H2.
Qed.

Lemma for_return_app (l1 l2 : list X) (body : X -> res (option R)) :
  for_return (l1 ++ l2) body
  = (r <- for_return l1 body ;;
     match r with
     | Some v => ok (Some v)
     | None => for_return l2 body
     end)%res.
Proof.
  induction l1 as [|x l1 IH]; cbn [for_return app rbind ok].
  - reflexivity.
  - destruct (body x) as [e|[v|]]; cbn [rbind ok]; auto.
Qed.

(** The loop returns at the first element that asks for it. *)
Lemma for_return_find (P : X -> bool) (ret : X -> res R) (l : list X)
    (body : X -> res (option R)) :
  (forall x, In x l ->
     body x = if P x then (v <- ret x ;; ok (Some v))%res else ok None) ->
  for_return l body
  = match find P l with
    | Some x => (v <- ret x ;; ok (Some v))%res
    | None => ok None
    end.
Proof.
  induction l as [|x l IH]; intros Hbody; cbn [for_return find].
  - reflexivity.
  - rewrite (Hbody x (or_introl eq_refl)).
    destruct (P x).
    + destruct (ret x); reflexivity.
    + cbn [rbind ok]. apply IH. intros y Hy. apply Hbody. right. exact Hy.
Qed.

End LoopFacts.

(** A loop nest that may return is one loop over the pairs, outer index
    first. *)
Lemma for_return_nest {X Y R} (xs : list X) (ys : list Y) (body : X -> Y -> res (option R)) :
  for_return xs (fun x => for_return ys (body x))
  = for_return (flat_map (fun x => map (pair x) ys) xs) (fun p => body (fst p) (snd p)).
Proof.
  induction xs as [|x xs IH]; cbn [for_return flat_map].
  - reflexivity.
  - rewrite for_return_app, <- IH.
    assert (Hmap : for_return (map (pair x) ys) (fun p => body (fst p) (snd p))
                   = for_return ys (body x)).
    { clear. induction ys as [|y ys IHy]; cbn [for_return map fst snd]; [reflexivity|].
      rewrite IHy. reflexivity. }
    rewrite Hmap. reflexivity.
Qed.

(** [find] on a list cut at an element that satisfies the test. *)
Lemma find_first {X} (P : X -> bool) (l1 l2 : list X) (x : X) :
  (forall y, In y l1 -> P y = false) -> P x = true ->
  find P (l1 ++ x :: l2) = Some x.
Proof.
  induction l1 as [|y l1 IH]; intros Hl1 Hx; cbn [find app].
  - rewrite Hx. reflexivity.
  - rewrite (Hl1 y (or_introl eq_refl)). apply IH; auto.
    intros z Hz. apply Hl1. right. exact Hz.
Qed.

Lemma find_upto {X} (P : X -> bool) (l1 l2 : list X) (x : X) :
  P x = true ->
  exists y, find P (l1 ++ x :: l2) = Some y /\ P y = true /\ (y = x \/ In y l1).
Proof.
  induction l1 as [|z l1 IH]; intros Hx; cbn [find app].
  - rewrite Hx. exists x. auto.
  - destruct (P z) eqn:Hz.
    + exists z. cbn [In]. auto.
    + destruct (IH Hx) as (y & Hf & Hy & Hin). exists y. cbn [In]. tauto.
Qed.

(** ** Runs of programs *)

Lemma run_rand_bind {A B} (p : prog randE A) (f : A -> prog randE B) tape n :
  run_rand (pbind p f) tape n
  = match run_rand p tape n with
    | (inr a, n') => run_rand (f a) tape n'
    | (inl e, n') => (inl e, n')
    end.
Proof.
  revert n. induction p as [a|e|X ev k IH]; intros n; cbn [pbind run_rand].
  - reflexivity.
  - reflexivity.
  - destruct ev. apply IH.
Qed.

Lemma run_rand_lift {A} (c : res A) tape n : run_rand (lift c) tape n = (c, n).
Proof. destruct c; reflexivity. Qed.

(** * Facts about the region matcher *)

Module RGBFacts.
Import PyNum PyNumFacts ImageCenterByRGB Placement.

Lemma getitem_in_bounds acc x y :
  0 <= x < xsize acc -> 0 <= y < ysize acc -> getitem acc x y = ok (data acc x y).
Proof.
  intros Hx Hy. unfold getitem.
  destruct (Z.ltb_spec x 0); try lia. destruct (Z.ltb_spec y 0); try lia.
  destruct (Z.leb_spec 0 x); try lia. destruct (Z.ltb_spec x (xsize acc)); try lia.
  destruct (Z.leb_spec 0 y); try lia. destruct (Z.ltb_spec y (ysize acc)); try lia.
  reflexivity.
Qed.

Lemma pixel_eqb_refl p : pixel_eqb p p = true.
Proof. unfold pixel_eqb. destruct (list_eq_dec Z.eq_dec p p); congruence. Qed.

(** Each comparison adds one to exactly one of the two counters. *)
Lemma tally_total b s same diff :
  0 <= same -> 0 <= diff ->
  let '(same', diff') := tally b s (same, diff) in
  0 <= same' /\ 0 <= diff' /\ same' + diff' = same + diff + 1.
Proof. intros. unfold tally. destruct (pixel_eqb b s); lia. Qed.

(** A loop nest over [range w] and [range h] that keeps an invariant. *)
Lemma nest_invariant {S} (I : nat -> S -> Prop) w h (body : Z -> Z -> S -> res S) :
  (forall i j k st, 0 <= i < w -> 0 <= j < h -> I k st ->
     exists st', body i j st = ok st' /\ I (Datatypes.S k) st') ->
  forall st, I 0%nat st ->
  exists st',
    for_each (range w) st (fun i st => for_each (range h) st (body i)) = ok st'
    /\ I (List.length (range w) * List.length (range h))%nat st'.
Proof.
  intros Hbody st Hst.
  set (H := List.length (range h)).
  destruct (for_each_invariant (fun k st => I (k * H)%nat st) (range w)
              (fun i st => for_each (range h) st (body i))) with (k := 0%nat) (st := st)
    as (st' & Hf & Hi); auto.
  - intros i k st0 Hi Hk. apply range_In in Hi.
    destruct (for_each_invariant (fun m st => I (k * H + m)%nat st) (range h) (body i))
      with (k := 0%nat) (st := st0) as (st1 & Hf1 & Hi1).
    + intros j m st1 Hj Hm. apply range_In in Hj.
      destruct (Hbody i j (k * H + m)%nat st1 Hi Hj Hm) as (st2 & Hb & H2).
      exists st2. split; [exact Hb|].
      replace (k * H + Datatypes.S m)%nat with (Datatypes.S (k * H + m)) by lia. exact H2.
    + rewrite Nat.add_0_r. exact Hk.
    + exists st1. split; [exact Hf1|].
      cbn [Nat.add] in Hi1. fold H in Hi1.
      replace (Datatypes.S k * H)%nat with (k * H + H)%nat by lia. exact Hi1.
  - exists st'. split; [exact Hf|]. exact Hi.
Qed.

Section Placed.

Variables (small big : Image) (rate : num).
Hypothesis Hw : 1 <= width small.
Hypothesis Hh : 1 <= height small.

Variable p : placement.
Hypothesis Hp : in_range small big p.

(** The full comparison counts [width * height] pixel pairs and divides by
    that number. *)
Lemma check_match_counts :
  exists same diff,
    0 <= same /\ 0 <= diff /\ same + diff = width small * height small
    /\ _check_match (fst p) (snd p) small (load big) (load small) rate
       = (q <- int_truediv same (same + diff) ;; ok (num_ge (PyFloat q) rate))%res.
Proof.
  destruct Hp as [Hx Hy]. unfold _check_match.
  destruct (nest_invariant
    (fun k st => 0 <= fst st /\ 0 <= snd st /\ fst st + snd st = Z.of_nat k)
    (width small) (height small)
    (fun i j st =>
       (b <- getitem (load big) (fst p + i) (snd p + j) ;;
        s <- getitem (load small) i j ;;
        ok (tally b s st))%res)) with (st := (0, 0)) as ([same diff] & Hf & H1 & H2 & H3).
  - intros i j k [s d] Hi Hj (Hs & Hd & Hk). cbn [fst snd] in *.
    rewrite !getitem_in_bounds by (cbn [load xsize ysize]; lia).
    cbn [rbind ok]. eexists. split; [reflexivity|].
    pose proof (tally_total (data (load big) (fst p + i) (snd p + j))
                  (data (load small) i j) s d Hs Hd) as Ht.
    destruct (tally _ _ (s, d)) as [s' d']. cbn [fst snd]. lia.
  - cbn [fst snd]. lia.
  - rewrite Hf. cbn [rbind ok fst snd] in *. exists same, diff.
    repeat split; try lia.
    rewrite H3, Nat2Z.inj_mul, !range_length. lia.
Qed.

(** On a pixel-identical region every pair counts as [same]. *)
Lemma check_match_identical :
  identical_at small big p ->
  _check_match (fst p) (snd p) small (load big) (load small) rate
  = (q <- int_truediv (width small * height small) (width small * height small + 0) ;;
     ok (num_ge (PyFloat q) rate))%res.
Proof.
  intros Hid. destruct Hp as [Hx Hy]. unfold _check_match.
  destruct (nest_invariant
    (fun k st => st = (Z.of_nat k, 0))
    (width small) (height small)
    (fun i j st =>
       (b <- getitem (load big) (fst p + i) (snd p + j) ;;
        s <- getitem (load small) i j ;;
        ok (tally b s st))%res)) with (st := (0, 0)) as (st & Hf & Hst).
  - intros i j k st Hi Hj ->.
    rewrite !getitem_in_bounds by (cbn [load xsize ysize]; lia).
    cbn [rbind ok load data]. rewrite (Hid i j Hi Hj).
    eexists. split; [reflexivity|].
    unfold tally. rewrite pixel_eqb_refl. f_equal. lia.
  - reflexivity.
  - rewrite Hf, Hst. cbn [rbind ok].
    rewrite Nat2Z.inj_mul, !range_length.
    replace (Z.max 0 (width small)) with (width small) by lia.
    replace (Z.max 0 (height small)) with (height small) by lia.
    reflexivity.
Qed.

Lemma pixel_eqb_eq a b : pixel_eqb a b = true <-> a = b.
Proof.
  unfold pixel_eqb. destruct (list_eq_dec Z.eq_dec a b); split; congruence.
Qed.

(** The counter [diff] of the full comparison stays at [0] exactly when
    the region is pixel-identical to the template. *)
Lemma check_match_diff :
  exists same diff,
    0 <= same /\ 0 <= diff /\ same + diff = width small * height small
    /\ (diff = 0 <-> identical_at small big p)
    /\ _check_match (fst p) (snd p) small (load big) (load small) rate
       = (q <- int_truediv same (same + diff) ;; ok (num_ge (PyFloat q) rate))%res.
Proof.
  destruct Hp as [Hx Hy]. unfold _check_match.
  set (same_at := fun i j => pixels big (fst p + i) (snd p + j) = pixels small i j).
  set (H := Z.max 0 (height small)).
  destruct (for_each_prefix
    (fun pre st =>
       0 <= fst st /\ 0 <= snd st
       /\ fst st + snd st = Z.of_nat (List.length pre) * H
       /\ (snd st = 0 <-> forall i, In i pre -> forall j, In j (range (height small)) ->
                                   same_at i j))
    (range (width small))
    (fun i st => for_each (range (height small)) st (fun j st =>
       (b <- getitem (load big) (fst p + i) (snd p + j) ;;
        s <- getitem (load small) i j ;;
        ok (tally b s st))%res))) with (pre := @nil Z) (st := (0, 0))
    as ([same diff] & Hf & H1 & H2 & H3 & H4).
  - intros pre i [s0 d0] Hi (Hs0 & Hd0 & Hsum & Hiff). cbn [fst snd] in *.
    apply range_In in Hi.
    destruct (for_each_prefix
      (fun pj st =>
         0 <= fst st /\ d0 <= snd st
         /\ fst st + snd st = s0 + d0 + Z.of_nat (List.length pj)
         /\ (snd st = d0 <-> forall j, In j pj -> same_at i j))
      (range (height small))
      (fun j st =>
         (b <- getitem (load big) (fst p + i) (snd p + j) ;;
          s <- getitem (load small) i j ;;
          ok (tally b s st))%res)) with (pre := @nil Z) (st := (s0, d0))
      as ([s1 d1] & Hf1 & G1 & G2 & G3 & G4).
    + intros pj j [s d] Hj (Gs & Gd & Gsum & Giff). cbn [fst snd] in *.
      apply range_In in Hj.
      rewrite !getitem_in_bounds by (cbn [load xsize ysize]; lia).
      cbn [rbind ok load data]. eexists. split; [reflexivity|].
      unfold tally.
      destruct (pixel_eqb (pixels big (fst p + i) (snd p + j)) (pixels small i j)) eqn:E;
        cbn [fst snd]; rewrite length_app; cbn [List.length];
        (split; [lia|]); (split; [lia|]); (split; [lia|]).
      * apply pixel_eqb_eq in E. rewrite Giff. split.
        -- intros Hall j' Hj'. apply in_app_or in Hj'.
           destruct Hj' as [Hj'|[<-|[]]]; [apply Hall; exact Hj'|exact E].
        -- intros Hall j' Hj'. apply Hall. apply in_or_app. left. exact Hj'.
      * split; [lia|]. intros Hall. exfalso.
        assert (Hsame : same_at i j) by (apply Hall; apply in_or_app; right; left; reflexivity).
        apply pixel_eqb_eq in Hsame. congruence.
    + cbn [fst snd List.length]. split; [lia|]. split; [lia|]. split; [lia|].
      split; [intros _ j []|reflexivity].
    + exists (s1, d1). cbn [fst snd app] in *. split; [exact Hf1|].
      rewrite length_app. cbn [List.length]. rewrite range_length in G3. fold H in G3.
      split; [lia|]. split; [lia|]. split; [lia|]. split.
      * intros Hd1 i' Hi' j Hj. apply in_app_or in Hi'.
        assert (d0 = 0 /\ d1 = d0) as [Hd0z Hd10] by lia.
        destruct Hi' as [Hi'|[<-|[]]].
        -- apply (proj1 Hiff Hd0z i' Hi' j Hj).
        -- apply (proj1 G4 Hd10 j Hj).
      * intros Hall.
        assert (Hd0z : d0 = 0).
        { apply Hiff. intros i' Hi' j Hj. apply Hall; [|exact Hj].
          apply in_or_app. left. exact Hi'. }
        assert (Hd10 : d1 = d0).
        { apply G4. intros j Hj. apply Hall; [|exact Hj].
          apply in_or_app. right. left. reflexivity. }
        lia.
  - cbn [fst snd List.length]. split; [lia|]. split; [lia|]. split; [lia|].
    split; [intros _ i []|reflexivity].
  - rewrite Hf. cbn [rbind ok fst snd app] in *. exists same, diff.
    split; [lia|]. split; [lia|]. split.
    { rewrite H3, range_length. unfold H. lia. }
    split; [|reflexivity].
    rewrite H4. unfold identical_at, same_at. split.
    + intros Hall i j Hi Hj. apply Hall; apply range_In; assumption.
    + intros Hall i Hi j Hj. apply range_In in Hi. apply range_In in Hj. apply Hall; assumption.
Qed.

Variable point_list : list point.
Hypothesis Hpts : Forall (in_template small) point_list.

(** The pre-filter counts one pair per sample point. *)
Lemma pre_random_match_counts :
  exists same diff,
    0 <= same /\ 0 <= diff /\ same + diff = Z.of_nat (List.length point_list)
    /\ _pre_random_match (fst p) (snd p) point_list (load big) (load small) rate
       = (q <- int_truediv same (same + diff) ;; ok (num_ge (PyFloat q) rate))%res.
Proof.
  destruct Hp as [Hx Hy]. unfold _pre_random_match.
  destruct (for_each_invariant
    (fun k st => 0 <= fst st /\ 0 <= snd st /\ fst st + snd st = Z.of_nat k)
    point_list
    (fun point st =>
       (b <- getitem (load big) (fst p + fst point) (snd p + snd point) ;;
        s <- getitem (load small) (fst point) (snd point) ;;
        ok (tally b s st))%res)) with (k := 0%nat) (st := (0, 0))
    as ([same diff] & Hf & H1 & H2 & H3).
  - intros pt k [s d] Hin (Hs & Hd & Hk). cbn [fst snd] in *.
    rewrite Forall_forall in Hpts. destruct (Hpts pt Hin) as [Hi Hj].
    rewrite !getitem_in_bounds by (cbn [load xsize ysize]; lia).
    cbn [rbind ok]. eexists. split; [reflexivity|].
    pose proof (tally_total (data (load big) (fst p + fst pt) (snd p + snd pt))
                  (data (load small) (fst pt) (snd pt)) s d Hs Hd) as Ht.
    destruct (tally _ _ (s, d)) as [s' d']. cbn [fst snd]. lia.
  - cbn [fst snd]. lia.
  - rewrite Hf. cbn [rbind ok fst snd Nat.add] in *. exists same, diff.
    repeat split; lia.
Qed.

Lemma pre_random_match_identical :
  identical_at small big p ->
  _pre_random_match (fst p) (snd p) point_list (load big) (load small) rate
  = (q <- int_truediv (Z.of_nat (List.length point_list))
                      (Z.of_nat (List.length point_list) + 0) ;;
     ok (num_ge (PyFloat q) rate))%res.
Proof.
  intros Hid. destruct Hp as [Hx Hy]. unfold _pre_random_match.
  destruct (for_each_invariant
    (fun k st => st = (Z.of_nat k, 0))
    point_list
    (fun point st =>
       (b <- getitem (load big) (fst p + fst point) (snd p + snd point) ;;
        s <- getitem (load small) (fst point) (snd point) ;;
        ok (tally b s st))%res)) with (k := 0%nat) (st := (0, 0)) as (st & Hf & Hst).
  - intros pt k st Hin ->.
    rewrite Forall_forall in Hpts. destruct (Hpts pt Hin) as [Hi Hj].
    rewrite !getitem_in_bounds by (cbn [load xsize ysize]; lia).
    cbn [rbind ok load data]. rewrite (Hid _ _ Hi Hj).
    eexists. split; [reflexivity|].
    unfold tally. rewrite pixel_eqb_refl. f_equal. lia.
  - reflexivity.
  - rewrite Hf, Hst. reflexivity.
Qed.

Hypothesis Hne : point_list <> [].

(** Neither test raises on a candidate placement. *)
Lemma tests_return :
  exists pre chk,
    _pre_random_match (fst p) (snd p) point_list (load big) (load small) rate = ok pre
    /\ _check_match (fst p) (snd p) small (load big) (load small) rate = ok chk.
Proof.
  destruct pre_random_match_counts as (s1 & d1 & Hs1 & Hd1 & Ht1 & ->).
  destruct check_match_counts as (s2 & d2 & Hs2 & Hd2 & Ht2 & ->).
  assert (0 < List.length point_list)%nat by (destruct point_list; [congruence | cbn; lia]).
  destruct (int_truediv_le_ok s1 (s1 + d1)) as (q1 & ->); try lia.
  destruct (int_truediv_le_ok s2 (s2 + d2)) as (q2 & ->); try lia.
  cbn [rbind ok]. eauto.
Qed.

End Placed.

(** ** The scan *)

Lemma candidates_In small big q : In q (candidates small big) <-> in_range small big q.
Proof.
  unfold candidates, in_range. rewrite in_flat_map. split.
  - intros (x & Hx & Hq). apply in_map_iff in Hq. destruct Hq as (y & <- & Hy).
    apply range_In in Hx. apply range_In in Hy. cbn [fst snd]. lia.
  - intros [Hx Hy]. exists (fst q). split; [apply range_In; lia|].
    apply in_map_iff. exists (snd q). split; [destruct q; reflexivity|].
    apply range_In. lia.
Qed.

(** The placements visited before [q] are those that come before it in
    x-major, y-minor order. *)
Lemma candidates_split small big q :
  in_range small big q ->
  exists l1 l2, candidates small big = l1 ++ q :: l2
                /\ (forall r, In r l1 -> before r q)
                /\ (forall r, In r l2 -> before q r).
Proof.
  intros [Hx Hy]. destruct q as [x y]. cbn [fst snd] in *. unfold candidates.
  destruct (range_split x _ Hx) as (lx & -> & Hlx).
  destruct (range_split y _ Hy) as (ly & Hry & Hly).
  set (f := fun _x : Z => map (pair _x) (range (height big - height small))).
  rewrite flat_map_app. cbn [flat_map].
  change (f x) with (map (pair x) (range (height big - height small))).
  rewrite Hry, map_app. cbn [map]. rewrite <- !app_assoc. cbn [app].
  eexists (_ ++ _), (_ ++ _). split; [rewrite <- app_assoc; reflexivity|]. split.
  - intros r Hr. apply in_app_or in Hr. destruct Hr as [Hr|Hr].
    + apply in_flat_map in Hr. destruct Hr as (x' & Hx' & Hr).
      apply in_map_iff in Hr. destruct Hr as (y' & <- & _).
      apply range_In in Hx'. left. cbn [fst]. lia.
    + apply in_map_iff in Hr. destruct Hr as (y' & <- & Hy').
      apply range_In in Hy'. right. cbn [fst snd]. lia.
  - intros r Hr. apply in_app_or in Hr. destruct Hr as [Hr|Hr].
    + apply in_map_iff in Hr. destruct Hr as (y' & <- & Hy').
      apply Hly in Hy'. right. cbn [fst snd]. lia.
    + apply in_flat_map in Hr. destruct Hr as (x' & Hx' & Hr).
      apply in_map_iff in Hr. destruct Hr as (y' & <- & _).
      apply Hlx in Hx'. left. cbn [fst]. lia.
Qed.

(** [int(_x + w / 2)] is [_x + w / 2] rounded down, below [2^53]. *)
Lemma center_exact x w :
  0 <= x -> 0 < w -> 2 * x + w < 2 ^ 53 -> center x w = ok (x + w / 2).
Proof.
  intros Hx Hw Hb. unfold center.
  destruct (int_truediv_2_exact w) as (m & e & -> & He & Hm); [lia|].
  cbn [rbind ok]. apply int_add_half_exact; assumption.
Qed.

Lemma centers_exact small big q :
  1 <= width small -> 1 <= height small -> pil_sized big ->
  in_range small big q -> centers small q = ok (center_of small q).
Proof.
  intros Hw Hh [Hbw Hbh] [Hx Hy]. unfold centers, center_of.
  assert (H31 : 2 ^ 31 * 4 <= 2 ^ 53) by (vm_compute; discriminate).
  rewrite !center_exact by lia. reflexivity.
Qed.

(** The scan returns at the first candidate that passes both tests. *)
Lemma scan_find small big point_list rate :
  1 <= width small -> 1 <= height small ->
  Forall (in_template small) point_list -> point_list <> [] ->
  scan small big point_list rate
  = match find (accepts small big point_list rate) (candidates small big) with
    | Some q => centers small q
    | None => ok (PyBool false)
    end.
Proof.
  intros Hw Hh Hpts Hne. unfold scan. rewrite for_return_nest. fold (candidates small big).
  rewrite (for_return_find (accepts small big point_list rate) (centers small)).
  - destruct (find _ _) as [q|]; [|reflexivity].
    destruct (centers small q); reflexivity.
  - intros q Hq. apply candidates_In in Hq. unfold accepts.
    destruct (tests_return small big rate Hw Hh q Hq point_list Hpts Hne)
      as (pre & chk & -> & ->).
    cbn [rbind ok]. destruct pre; [|reflexivity]. destruct chk; [|reflexivity].
    unfold centers. destruct (center (fst q) (width small)); [reflexivity|].
    cbn [rbind ok]. destruct (center (snd q) (height small)); reflexivity.
Qed.

(** ** The sampler *)

Lemma randrange_run lo hi tape n :
  lo < hi ->
  run_rand (randrange lo hi) tape n = (ok (lo + tape n mod (hi - lo)), Datatypes.S n).
Proof.
  intros H. unfold randrange. destruct (Z.leb_spec hi lo); [lia|]. reflexivity.
Qed.

Lemma sampler_loop_run small tape (l : list Z) :
  1 <= width small -> 1 <= height small ->
  forall acc n,
  exists pts,
    run_rand (pfor_each l acc (fun _ point_list =>
                (s_x <- randrange 0 (width small) ;;
                 s_y <- randrange 0 (height small) ;;
                 Ret (point_list ++ [(s_x, s_y)]))%prog)) tape n
    = (ok (acc ++ pts), (n + 2 * List.length l)%nat)
    /\ List.length pts = List.length l /\ Forall (in_template small) pts.
Proof.
  intros Hw Hh. induction l as [|x l IH]; intros acc n; cbn [pfor_each].
  - exists []. rewrite app_nil_r, Nat.add_0_r. cbn [run_rand]. auto.
  - rewrite !run_rand_bind, randrange_run by lia. cbn [ok].
    rewrite run_rand_bind, randrange_run by lia. cbn [ok run_rand].
    set (pt := (0 + tape n mod (width small - 0),
                0 + tape (Datatypes.S n) mod (height small - 0))).
    destruct (IH (acc ++ [pt]) (Datatypes.S (Datatypes.S n))) as (pts & -> & Hlen & Hall).
    exists (pt :: pts). rewrite <- app_assoc. cbn [app List.length]. split; [|split].
    + f_equal. lia.
    + lia.
    + constructor; [|exact Hall]. unfold in_template, pt. cbn [fst snd].
      pose proof (Z.mod_pos_bound (tape n) (width small - 0)).
      pose proof (Z.mod_pos_bound (tape (Datatypes.S n)) (height small - 0)). lia.
Qed.

(** The sampler returns a valid sample after [1 + 2 * count] draws. *)
Lemma sampler_run small tape n :
  1 <= width small -> 1 <= height small ->
  exists pts,
    run_rand (_pre_random_point small) tape n
    = (ok pts, (n + 1 + 2 * List.length pts)%nat)
    /\ valid_sample small pts.
Proof.
  intros Hw Hh. unfold _pre_random_point.
  rewrite run_rand_bind, randrange_run by lia. cbn [ok].
  set (count := 10 + tape n mod (20 - 10)).
  assert (Hc : 10 <= count < 20) by (unfold count; pose proof (Z.mod_pos_bound (tape n) (20 - 10)); lia).
  destruct (sampler_loop_run small tape (range count) Hw Hh [] (Datatypes.S n))
    as (pts & Hrun & Hlen & Hall).
  assert (Hl : Z.of_nat (List.length pts) = count) by (rewrite Hlen, range_length; lia).
  exists pts. unfold valid_sample, point in *. split; [|split].
  - etransitivity; [exact Hrun|]. rewrite Hlen. cbn [app]. f_equal. lia.
  - lia.
  - exact Hall.
Qed.

(** One call draws one sample and scans every placement with it. *)
Lemma image_center_run small big rate tape n :
  run_rand (image_center_by_rgb small big rate) tape n
  = match run_rand (_pre_random_point small) tape n with
    | (inr point_list, n') => (scan small big point_list rate, n')
    | (inl e, n') => (inl e, n')
    end.
Proof.
  unfold image_center_by_rgb. rewrite run_rand_bind.
  destruct (run_rand (_pre_random_point small) tape n) as [[e|pts] n']; [reflexivity|].
  apply run_rand_lift.
Qed.

Lemma valid_sample_nonempty small pts : valid_sample small pts -> pts <> [].
Proof. intros [Hl _] ->. cbn in Hl. lia. Qed.

(** ** First accepted placement *)

Lemma before_irrefl q : ~ before q q.
Proof. unfold before. lia. Qed.

Lemma before_asym q r : before q r -> ~ before r q.
Proof. unfold before. lia. Qed.

Lemma find_none_in {X} (P : X -> bool) l x : find P l = None -> In x l -> P x = false.
Proof. intros H Hin. exact (find_none P l H x Hin). Qed.

Lemma find_in_prefix {X} (P : X -> bool) (l1 l2 : list X) q :
  find P (l1 ++ l2) = Some q -> ~ In q l1 -> forall r, In r l1 -> P r = false.
Proof.
  induction l1 as [|x l1 IH]; cbn [app find In]; intros Hf Hq r Hr; [tauto|].
  destruct (P x) eqn:Hx.
  - injection Hf as ->. tauto.
  - destruct Hr as [<-|Hr]; [exact Hx|]. apply IH; auto.
Qed.

Section FirstAccepted.

Variables (small big : Image) (point_list : list point) (rate : num).

Let acc := accepts small big point_list rate.

(** What [find] over the candidates means in terms of the scan order. *)
Lemma first_accepted_spec q :
  find acc (candidates small big) = Some q ->
  in_range small big q /\ acc q = true
  /\ forall r, in_range small big r -> before r q -> acc r = false.
Proof.
  intros Hf. destruct (find_some _ _ Hf) as [Hin Hq].
  apply candidates_In in Hin. split; [exact Hin|]. split; [exact Hq|].
  intros r Hr Hb.
  destruct (candidates_split small big q Hin) as (l1 & l2 & Hc & H1 & H2).
  rewrite Hc in Hf.
  apply (find_in_prefix acc l1 (q :: l2) q Hf).
  - intros Hq1. exact (before_irrefl q (H1 q Hq1)).
  - apply candidates_In in Hr. rewrite Hc in Hr.
    apply in_app_or in Hr. destruct Hr as [Hr|[<-|Hr]]; auto.
    + exfalso. exact (before_irrefl q Hb).
    + exfalso. exact (before_asym _ _ Hb (H2 r Hr)).
Qed.

Lemma none_accepted_spec :
  find acc (candidates small big) = None <->
  forall r, in_range small big r -> acc r = false.
Proof.
  split.
  - intros Hf r Hr. apply (find_none_in acc _ r Hf). apply candidates_In. exact Hr.
  - intros Hall. destruct (find acc (candidates small big)) as [q|] eqn:Hf; [|reflexivity].
    destruct (find_some _ _ Hf) as [Hin Hq]. apply candidates_In in Hin.
    rewrite (Hall q Hin) in Hq. discriminate.
Qed.

Lemma first_accepted_found q :
  in_range small big q -> acc q = true ->
  (forall r, in_range small big r -> before r q -> acc r = false) ->
  find acc (candidates small big) = Some q.
Proof.
  intros Hin Hq Hbefore.
  destruct (candidates_split small big q Hin) as (l1 & l2 & Hc & H1 & _).
  rewrite Hc. apply find_first; [|exact Hq].
  intros r Hr. apply Hbefore; [|exact (H1 r Hr)].
  apply candidates_In. rewrite Hc. apply in_or_app. auto.
Qed.

Lemma some_accepted_found q :
  in_range small big q -> acc q = true ->
  exists r, find acc (candidates small big) = Some r /\ (r = q \/ before r q).
Proof.
  intros Hin Hq.
  destruct (candidates_split small big q Hin) as (l1 & l2 & Hc & H1 & _).
  rewrite Hc. destruct (find_upto acc l1 l2 q Hq) as (r & Hf & _ & Hr).
  exists r. split; [exact Hf|]. destruct Hr as [->|Hr]; auto.
Qed.

End FirstAccepted.

(** A placement where the template is pixel-identical passes both tests at
    rate [1.0], whatever the sample. *)
Lemma identical_accepted small big point_list q :
  1 <= width small -> 1 <= height small ->
  valid_sample small point_list ->
  in_range small big q -> identical_at small big q ->
  accepts small big point_list (PyFloat f_one) q = true.
Proof.
  intros Hw Hh [Hlen Hall] Hq Hid. unfold accepts.
  rewrite (pre_random_match_identical small big _ q Hq point_list Hall Hid).
  rewrite (check_match_identical small big _ Hw Hh q Hq Hid).
  rewrite !Z.add_0_r, !int_truediv_self by nia.
  reflexivity.
Qed.

(** At rate [1.0] the full comparison passes only a pixel-identical region
    (for a template of fewer than [2^53] pixels). *)
Lemma accepted_identical small big point_list q :
  1 <= width small -> 1 <= height small ->
  width small * height small < 2 ^ 53 ->
  in_range small big q ->
  accepts small big point_list (PyFloat f_one) q = true ->
  identical_at small big q.
Proof.
  intros Hw Hh Harea Hq Hacc. unfold accepts in Hacc.
  destruct (_pre_random_match _ _ _ _ _ _) as [e|[|]]; try discriminate.
  destruct (check_match_diff small big (PyFloat f_one) Hw Hh q Hq)
    as (same & diff & Hs & Hd & Hsum & Hiff & Hchk).
  rewrite Hchk in Hacc. apply Hiff.
  destruct (Z.eq_dec diff 0) as [Hz|Hnz]; [exact Hz|]. exfalso.
  destruct (int_truediv_below_one same (same + diff)) as (f & Hf & Hlt); try lia.
  rewrite Hf in Hacc. cbn [rbind ok] in Hacc. unfold num_ge in Hacc.
  rewrite Hlt in Hacc. discriminate.
Qed.

(** The only errors the center computation can raise. *)
Lemma center_raises x w e :
  center x w = throw e -> e = OverflowError \/ exists msg, e = ValueError msg.
Proof.
  unfold center, int_truediv, int_add_float, float_of_int.
  change (2 =? 0) with false. cbv iota.
  destruct (SFdiv prec emax (raw_of_int w) (raw_of_int 2)) as [s| s| |s m e0];
    cbn [rbind ok throw];
    try (intros H; injection H as <-; auto; fail);
    (destruct (binary_normalize prec emax x 0 false) as [s'| s'| |s' m' e'];
     cbn [rbind ok throw];
     try (intros H; injection H as <-; auto; fail);
     match goal with
     | |- int_of_float ?f = _ -> _ =>
         destruct f; cbn [int_of_float ok throw]; intros H;
         try discriminate; injection H as <-; eauto
     end).
Qed.

Lemma center_no_index_zero x w :
  center x w <> throw IndexError /\ center x w <> throw ZeroDivisionError.
Proof.
  split; intros H; apply center_raises in H; destruct H as [H|[msg H]]; discriminate.
Qed.

Lemma centers_no_index_zero small q :
  centers small q <> throw IndexError /\ centers small q <> throw ZeroDivisionError.
Proof.
  assert (Hr : forall e, centers small q = throw e ->
                 e = OverflowError \/ exists msg, e = ValueError msg).
  { intros e. unfold centers.
    destruct (center (fst q) (width small)) as [e1|cx] eqn:H1; cbn [rbind].
    - intros H. injection H as <-. exact (center_raises _ _ _ H1).
    - destruct (center (snd q) (height small)) as [e2|cy] eqn:H2; cbn [rbind ok].
      + intros H. injection H as <-. exact (center_raises _ _ _ H2).
      + discriminate. }
  split; intros H; apply Hr in H; destruct H as [H|[msg H]]; discriminate.
Qed.

End RGBFacts.

(** * Properties of the region matcher *)

Module RegionMatcher.
Import PyNum PyNumFacts ImageCenterByRGB Placement RGBFacts.

(** Split the conjunctions that are written in the goal. *)
Ltac splits := repeat match goal with |- _ /\ _ => split end.

(** What a call returns, in terms of the sample it drew. *)
Lemma matcher_result small big rate tape n :
  1 <= width small -> 1 <= height small ->
  exists point_list n',
    run_rand (_pre_random_point small) tape n = (ok point_list, n')
    /\ valid_sample small point_list
    /\ run_rand (image_center_by_rgb small big rate) tape n
       = (match find (accepts small big point_list rate) (candidates small big) with
          | Some q => centers small q
          | None => ok (PyBool false)
          end, n').
Proof.
  intros Hw Hh.
  destruct (sampler_run small tape n Hw Hh) as (pts & Hrun & Hvalid).
  exists pts, (n + 1 + 2 * List.length pts)%nat.
  split; [exact Hrun|]. split; [exact Hvalid|].
  rewrite image_center_run. unfold point in *. rewrite Hrun. unfold ok.
  rewrite scan_find; auto.
  - apply Hvalid.
  - exact (valid_sample_nonempty small pts Hvalid).
Qed.

Lemma matcher_result_for small big rate tape n point_list n' :
  1 <= width small -> 1 <= height small ->
  run_rand (_pre_random_point small) tape n = (ok point_list, n') ->
  run_rand (image_center_by_rgb small big rate) tape n
  = (match find (accepts small big point_list rate) (candidates small big) with
     | Some q => centers small q
     | None => ok (PyBool false)
     end, n').
Proof.
  intros Hw Hh Hrun.
  destruct (matcher_result small big rate tape n Hw Hh) as (pts & m & Hrun' & _ & Hres).
  rewrite Hrun in Hrun'. injection Hrun' as <- <-. exact Hres.
Qed.

(** C2. The scan visits the placements x-major, y-minor and returns, for
    the first placement in that order that passes the pre-filter and the
    full verification, the center [(x + width / 2, y + height / 2)] with
    the halves rounded down. *)
Theorem first_accepted_center small big rate tape n point_list n' p :
  1 <= width small -> 1 <= height small -> pil_sized big ->
  run_rand (_pre_random_point small) tape n = (ok point_list, n') ->
  in_range small big p ->
  accepts small big point_list rate p = true ->
  (forall q, in_range small big q -> before q p ->
             accepts small big point_list rate q = false) ->
  run_rand (image_center_by_rgb small big rate) tape n
  = (ok (PyPoint (fst p + width small / 2) (snd p + height small / 2)), n').
Proof.
  intros Hw Hh Hbig Hrun Hp Hacc Hfirst.
  rewrite (matcher_result_for small big rate tape n point_list n' Hw Hh Hrun).
  rewrite (first_accepted_found small big point_list rate p Hp Hacc Hfirst).
  rewrite (centers_exact small big p Hw Hh Hbig Hp). reflexivity.
Qed.

Lemma first_accepted_center_witness :
  run_rand (image_center_by_rgb Examples.template Examples.screen_a (PyFloat f_one))
           Examples.tape 0
  = (ok (PyPoint 1 1), 27%nat).
Proof.
  eapply (first_accepted_center Examples.template Examples.screen_a (PyFloat f_one)
            Examples.tape 0 _ 27%nat (0, 0)).
  - vm_compute. discriminate.
  - vm_compute. discriminate.
  - split; split; vm_compute; congruence.
  - vm_compute. reflexivity.
  - split; split; vm_compute; congruence.
  - vm_compute. reflexivity.
  - intros q [Hx Hy] Hb. unfold before in Hb. cbn [fst snd] in Hb. exfalso. lia.
Defined.

(** C1, as stated, fails: on a plain screen the one-pixel template is
    pixel-identical at the candidate placement [(1, 1)], yet the call at
    rate [1.0] returns the center of the placement [(0, 0)]. *)
Lemma identical_placement_not_returned :
  in_range Examples.dot Examples.plain (1, 1)
  /\ identical_at Examples.dot Examples.plain (1, 1)
  /\ fst (run_rand (image_center_by_rgb Examples.dot Examples.plain (PyFloat f_one))
                   Examples.tape 0)
     = ok (PyPoint 0 0)
  /\ center_of Examples.dot (1, 1) = PyPoint 1 1.
Proof.
  split; [|split; [|split]].
  - split; split; vm_compute; congruence.
  - intros i j Hi Hj. cbn in Hi, Hj.
    assert (i = 0) as -> by lia. assert (j = 0) as -> by lia. reflexivity.
  - vm_compute. reflexivity.
  - reflexivity.
Qed.

(** C1, amended. At rate [1.0], if the template is pixel-identical at a
    candidate placement [p0], the call returns, whatever sample was drawn,
    the center of the first candidate placement in scan order at which the
    template is pixel-identical: [p0] itself when no earlier placement is
    identical, else an earlier one. *)
Theorem identical_placement_found small big tape n p0 :
  1 <= width small -> 1 <= height small ->
  width small * height small < 2 ^ 53 -> pil_sized big ->
  in_range small big p0 -> identical_at small big p0 ->
  exists n' q,
    in_range small big q /\ identical_at small big q
    /\ (q = p0 \/ before q p0)
    /\ (forall r, in_range small big r -> before r q -> ~ identical_at small big r)
    /\ ((forall r, in_range small big r -> before r p0 -> ~ identical_at small big r)
        -> q = p0)
    /\ run_rand (image_center_by_rgb small big (PyFloat f_one)) tape n
       = (ok (PyPoint (fst q + width small / 2) (snd q + height small / 2)), n').
Proof.
  intros Hw Hh Harea Hbig Hp0 Hid.
  destruct (matcher_result small big (PyFloat f_one) tape n Hw Hh)
    as (pts & n' & Hrun & Hvalid & Hres).
  pose proof (identical_accepted small big pts p0 Hw Hh Hvalid Hp0 Hid) as Hacc0.
  destruct (some_accepted_found small big pts (PyFloat f_one) p0 Hp0 Hacc0)
    as (q & Hfind & Hq).
  destruct (first_accepted_spec small big pts (PyFloat f_one) q Hfind)
    as (Hqr & Hqa & Hqf).
  pose proof (accepted_identical small big pts q Hw Hh Harea Hqr Hqa) as Hqid.
  exists n', q. splits; auto.
  - intros r Hr Hb Hrid. specialize (Hqf r Hr Hb).
    rewrite (identical_accepted small big pts r Hw Hh Hvalid Hr Hrid) in Hqf.
    discriminate.
  - intros Hnone. destruct Hq as [Hq|Hq]; [exact Hq|].
    exfalso. exact (Hnone q Hqr Hq Hqid).
  - rewrite Hres, Hfind, (centers_exact small big q Hw Hh Hbig Hqr). reflexivity.
Qed.

Lemma identical_placement_found_witness :
  exists n' q,
    in_range Examples.dot Examples.plain q /\ identical_at Examples.dot Examples.plain q
    /\ (q = (1, 1) \/ before q (1, 1))
    /\ (forall r, in_range Examples.dot Examples.plain r -> before r q ->
                  ~ identical_at Examples.dot Examples.plain r)
    /\ ((forall r, in_range Examples.dot Examples.plain r -> before r (1, 1) ->
                   ~ identical_at Examples.dot Examples.plain r) -> q = (1, 1))
    /\ run_rand (image_center_by_rgb Examples.dot Examples.plain (PyFloat f_one))
                Examples.tape 0
       = (ok (PyPoint (fst q + width Examples.dot / 2) (snd q + height Examples.dot / 2)), n').
Proof.
  apply (identical_placement_found Examples.dot Examples.plain Examples.tape 0 (1, 1)).
  - vm_compute. discriminate.
  - vm_compute. discriminate.
  - vm_compute. reflexivity.
  - split; split; vm_compute; congruence.
  - split; split; vm_compute; congruence.
  - intros i j Hi Hj. cbn in Hi, Hj.
    assert (i = 0) as -> by lia. assert (j = 0) as -> by lia. reflexivity.
Defined.

Lemma for_each_same {X S} (l : list X) (body body' : X -> S -> res S) :
  (forall x st, In x l -> body x st = body' x st) ->
  forall st, for_each l st body = for_each l st body'.
Proof.
  induction l as [|x l IH]; intros Hb st; cbn [for_each]; [reflexivity|].
  rewrite (Hb x st (or_introl eq_refl)). destruct (body' x st) as [e|st']; [reflexivity|].
  cbn [rbind ok]. apply IH. intros y s Hy. apply Hb. right. exact Hy.
Qed.

Lemma find_same {X} (f g : X -> bool) (l : list X) :
  (forall x, In x l -> f x = g x) -> find f l = find g l.
Proof.
  induction l as [|x l IH]; intros H; cbn [find]; [reflexivity|].
  rewrite (H x (or_introl eq_refl)). destruct (g x); [reflexivity|].
  apply IH. intros y Hy. apply H. right. exact Hy.
Qed.

Lemma getitem_same_inside big big' x y :
  same_inside big big' -> 0 <= x < width big - 1 -> 0 <= y < height big - 1 ->
  getitem (load big') x y = getitem (load big) x y.
Proof.
  intros (Hw & Hh & Hp) Hx Hy.
  rewrite !getitem_in_bounds by (cbn [load xsize ysize]; lia).
  cbn [load data]. rewrite Hp by assumption. reflexivity.
Qed.

(** The two tests at a candidate placement read nothing of the last column
    and the last row. *)
Lemma accepts_same_inside small big big' point_list rate q :
  1 <= width small -> 1 <= height small ->
  same_inside big big' -> Forall (in_template small) point_list ->
  in_range small big q ->
  accepts small big' point_list rate q = accepts small big point_list rate q.
Proof.
  intros Hw Hh Hsame Hpts [Hx Hy]. unfold accepts.
  assert (Hpre : _pre_random_match (fst q) (snd q) point_list (load big') (load small) rate
                 = _pre_random_match (fst q) (snd q) point_list (load big) (load small) rate).
  { unfold _pre_random_match. f_equal. apply for_each_same.
    intros pt st Hin. rewrite Forall_forall in Hpts. destruct (Hpts pt Hin) as [Hpx Hpy].
    rewrite (getitem_same_inside big big') by (try exact Hsame; lia). reflexivity. }
  assert (Hchk : _check_match (fst q) (snd q) small (load big') (load small) rate
                 = _check_match (fst q) (snd q) small (load big) (load small) rate).
  { unfold _check_match. f_equal. apply for_each_same.
    intros i st Hi. apply range_In in Hi. apply for_each_same.
    intros j st' Hj. apply range_In in Hj.
    rewrite (getitem_same_inside big big') by (try exact Hsame; lia). reflexivity. }
  rewrite Hpre, Hchk. reflexivity.
Qed.

(** C3. The scan runs its two tests on the placements of [candidates], in
    that order, and on nothing else; on no input, whatever the sizes, is a
    placement whose right edge ([x = W - w]) or bottom edge ([y = H - h])
    lies on the screen's edge among them, so what the call returns is
    [False] or the center of a placement strictly inside these bounds. When
    the template is as wide (or as high) as the screen, the range on that
    axis is empty, no placement is tested and the call reports
    not-found. *)
Theorem full_extent_not_found small big rate tape n :
  1 <= width small -> 1 <= height small ->
  (forall point_list,
     scan small big point_list rate
     = (r <- for_return (candidates small big) (fun p =>
               pre <- _pre_random_match (fst p) (snd p) point_list (load big)
                        (load small) rate ;;
               if pre : bool then
                 chk <- _check_match (fst p) (snd p) small (load big) (load small) rate ;;
                 if chk : bool then
                   cx <- center (fst p) (width small) ;;
                   cy <- center (snd p) (height small) ;;
                   ok (Some (PyPoint cx cy))
                 else ok None
               else ok None) ;;
        match r with
        | Some v => ok v
        | None => ok (PyBool false)
        end)%res)
  /\ (forall x y, In (x, y) (candidates small big) ->
        0 <= x < width big - width small /\ 0 <= y < height big - height small)
  /\ (forall y, ~ In (width big - width small, y) (candidates small big))
  /\ (forall x, ~ In (x, height big - height small) (candidates small big))
  /\ (forall v, fst (run_rand (image_center_by_rgb small big rate) tape n) = ok v ->
        v = PyBool false
        \/ exists x y, In (x, y) (candidates small big) /\ centers small (x, y) = ok v)
  /\ (forall big', same_inside big big' ->
        fst (run_rand (image_center_by_rgb small big' rate) tape n)
        = fst (run_rand (image_center_by_rgb small big rate) tape n))
  /\ (width small = width big \/ height small = height big ->
        (range (width big - width small) = [] \/ range (height big - height small) = [])
        /\ candidates small big = []
        /\ fst (run_rand (image_center_by_rgb small big rate) tape n) = ok (PyBool false)).
Proof.
  intros Hw Hh.
  destruct (matcher_result small big rate tape n Hw Hh)
    as (pts & n' & Hrun & Hvalid & Hres).
  split; [|split; [|split; [|split; [|split; [|split]]]]].
  - intros point_list. unfold scan. rewrite for_return_nest. reflexivity.
  - intros x y Hin. apply candidates_In in Hin. exact Hin.
  - intros y Hin. apply candidates_In in Hin. destruct Hin as [Hx _]. cbn [fst] in Hx. lia.
  - intros x Hin. apply candidates_In in Hin. destruct Hin as [_ Hy]. cbn [snd] in Hy. lia.
  - intros v Hv. rewrite Hres in Hv. cbn [fst] in Hv.
    destruct (find _ _) as [[x y]|] eqn:Hf.
    + right. exists x, y. split; [|exact Hv].
      destruct (find_some _ _ Hf) as [Hin _]. exact Hin.
    + left. injection Hv as <-. reflexivity.
  - intros big' Hsame.
    rewrite (matcher_result_for small big' rate tape n pts n' Hw Hh Hrun).
    rewrite Hres. cbn [fst].
    assert (Hc : candidates small big' = candidates small big).
    { unfold candidates. destruct Hsame as (-> & -> & _). reflexivity. }
    rewrite Hc.
    rewrite (find_same (accepts small big' pts rate) (accepts small big pts rate)).
    + reflexivity.
    + intros q Hq. apply candidates_In in Hq.
      apply accepts_same_inside; try assumption. apply Hvalid.
  - intros Heq.
    assert (Hnil : candidates small big = []).
    { destruct (candidates small big) as [|q l] eqn:Hc; [reflexivity|].
      assert (Hin : In q (candidates small big)) by (rewrite Hc; left; reflexivity).
      apply candidates_In in Hin. destruct Hin as [Hx Hy]. lia. }
    split; [|split].
    + destruct Heq as [Heq|Heq]; [left|right]; apply range_nil; lia.
    + exact Hnil.
    + rewrite Hres, Hnil. reflexivity.
Qed.

Lemma full_extent_not_found_witness :
  (range (width Examples.screen_narrow - width Examples.template) = []
   \/ range (height Examples.screen_narrow - height Examples.template) = [])
  /\ candidates Examples.template Examples.screen_narrow = []
  /\ fst (run_rand (image_center_by_rgb Examples.template Examples.screen_narrow
                      (PyFloat f_one)) Examples.tape 0) = ok (PyBool false)
  /\ (forall y, ~ In (width Examples.screen_narrow - width Examples.template, y)
                    (candidates Examples.template Examples.screen_narrow))
  /\ (forall x, ~ In (x, height Examples.screen_narrow - height Examples.template)
                    (candidates Examples.template Examples.screen_narrow)).
Proof.
  destruct (full_extent_not_found Examples.template Examples.screen_narrow (PyFloat f_one)
              Examples.tape 0) as (_ & _ & Hx & Hy & _ & _ & Heq).
  - vm_compute. discriminate.
  - vm_compute. discriminate.
  - destruct Heq as (Hr & Hc & Hf); [left; reflexivity|].
    split; [exact Hr|]. split; [exact Hc|]. split; [exact Hf|]. split; [exact Hx|exact Hy].
Defined.

(** C4, as stated, fails: the matcher takes no [multiple] argument, and on
    a screen that holds the template at two disjoint placements, both of
    which pass both tests, it returns the first center alone. *)
Lemma two_blocks_one_center :
  (exists point_list n',
     run_rand (_pre_random_point Examples.template) Examples.tape 0 = (ok point_list, n')
     /\ accepts Examples.template Examples.screen_d point_list (PyFloat f_one) (0, 0) = true
     /\ accepts Examples.template Examples.screen_d point_list (PyFloat f_one) (2, 2) = true)
  /\ fst (run_rand (image_center_by_rgb Examples.template Examples.screen_d (PyFloat f_one))
                   Examples.tape 0)
     = ok (PyPoint 1 1)
  /\ ok (PyPoint 1 1) <> @ok pyval (PyPoints [(1, 1); (3, 3)]).
Proof.
  split; [|split].
  - eexists _, _. split; [vm_compute; reflexivity|].
    split; vm_compute; reflexivity.
  - vm_compute. reflexivity.
  - discriminate.
Qed.

(** C4, amended. The matcher has no mode that collects several matches:
    a call returns either [False], when no candidate placement passes both
    tests, or the single center of the first placement in scan order that
    passes them, however many later placements pass as well. *)
Theorem single_center_or_false small big rate tape n :
  1 <= width small -> 1 <= height small -> pil_sized big ->
  exists point_list n',
    run_rand (_pre_random_point small) tape n = (ok point_list, n')
    /\ ((run_rand (image_center_by_rgb small big rate) tape n = (ok (PyBool false), n')
         /\ forall r, in_range small big r ->
                      accepts small big point_list rate r = false)
        \/ exists q,
             in_range small big q
             /\ accepts small big point_list rate q = true
             /\ (forall r, in_range small big r -> before r q ->
                           accepts small big point_list rate r = false)
             /\ run_rand (image_center_by_rgb small big rate) tape n
                = (ok (PyPoint (fst q + width small / 2) (snd q + height small / 2)), n')).
Proof.
  intros Hw Hh Hbig.
  destruct (matcher_result small big rate tape n Hw Hh) as (pts & n' & Hrun & _ & Hres).
  exists pts, n'. split; [exact Hrun|].
  destruct (find (accepts small big pts rate) (candidates small big)) as [q|] eqn:Hfind.
  - right. exists q.
    destruct (first_accepted_spec small big pts rate q Hfind) as (Hqr & Hqa & Hqf).
    splits; auto.
    rewrite Hres, (centers_exact small big q Hw Hh Hbig Hqr). reflexivity.
  - left. split; [exact Hres|].
    apply none_accepted_spec. exact Hfind.
Qed.

Lemma single_center_or_false_witness :
  exists point_list n',
    run_rand (_pre_random_point Examples.template) Examples.tape 0 = (ok point_list, n')
    /\ ((run_rand (image_center_by_rgb Examples.template Examples.screen_d (PyFloat f_one))
                  Examples.tape 0 = (ok (PyBool false), n')
         /\ forall r, in_range Examples.template Examples.screen_d r ->
                      accepts Examples.template Examples.screen_d point_list
                              (PyFloat f_one) r = false)
        \/ exists q,
             in_range Examples.template Examples.screen_d q
             /\ accepts Examples.template Examples.screen_d point_list (PyFloat f_one) q = true
             /\ (forall r, in_range Examples.template Examples.screen_d r -> before r q ->
                           accepts Examples.template Examples.screen_d point_list
                                   (PyFloat f_one) r = false)
             /\ run_rand (image_center_by_rgb Examples.template Examples.screen_d
                            (PyFloat f_one)) Examples.tape 0
                = (ok (PyPoint (fst q + width Examples.template / 2)
                               (snd q + height Examples.template / 2)), n')).
Proof.
  apply (single_center_or_false Examples.template Examples.screen_d (PyFloat f_one)
           Examples.tape 0).
  - vm_compute. discriminate.
  - vm_compute. discriminate.
  - split; split; vm_compute; congruence.
Defined.

(** C5. Rate monotonicity: a placement that passes the pre-filter, or the
    full verification, at rate [r] passes it at every rate [r' <= r]. *)
Theorem rate_monotone _x _y small bdata sdata point_list r r' :
  num_le r' r = true ->
  (_pre_random_match _x _y point_list bdata sdata r = ok true ->
   _pre_random_match _x _y point_list bdata sdata r' = ok true)
  /\ (_check_match _x _y small bdata sdata r = ok true ->
      _check_match _x _y small bdata sdata r' = ok true).
Proof.
  intros Hle. unfold _pre_random_match, _check_match, num_ge. split.
  - destruct (for_each point_list _ _) as [e|[same diff]]; cbn [rbind]; [discriminate|].
    destruct (int_truediv same (same + diff)) as [e|q]; cbn [rbind ok]; [discriminate|].
    intros H. injection H as H. rewrite (num_le_trans _ _ _ Hle H). reflexivity.
  - destruct (for_each (range (width small)) _ _) as [e|[same diff]]; cbn [rbind];
      [discriminate|].
    destruct (int_truediv same (same + diff)) as [e|q]; cbn [rbind ok]; [discriminate|].
    intros H. injection H as H. rewrite (num_le_trans _ _ _ Hle H). reflexivity.
Qed.

Lemma rate_monotone_witness :
  (_pre_random_match 0 0 [(0, 0); (1, 1)] (load Examples.screen_a)
     (load Examples.template) (PyFloat f_one) = ok true ->
   _pre_random_match 0 0 [(0, 0); (1, 1)] (load Examples.screen_a)
     (load Examples.template) (PyFloat f_half) = ok true)
  /\ (_check_match 0 0 Examples.template (load Examples.screen_a)
        (load Examples.template) (PyFloat f_one) = ok true ->
      _check_match 0 0 Examples.template (load Examples.screen_a)
        (load Examples.template) (PyFloat f_half) = ok true).
Proof.
  apply (rate_monotone 0 0 Examples.template (load Examples.screen_a)
           (load Examples.template) [(0, 0); (1, 1)] (PyFloat f_one) (PyFloat f_half)).
  vm_compute. reflexivity.
Defined.

End RegionMatcher.

(** * The distribution of the sample *)

Module SamplerFacts.
Import PyNum ImageCenterByRGB Placement RGBFacts.

Lemma qsum_zero {X} (f : X -> Q) (l : list X) :
  (forall x, In x l -> (f x == 0)%Q) -> (qsum (map f l) == 0)%Q.
Proof.
  induction l as [|x l IH]; intros H; cbn [qsum map fold_right].
  - reflexivity.
  - fold (qsum (map f l)). rewrite (H x (or_introl eq_refl)), IH.
    + reflexivity.
    + intros y Hy. apply H. right. exact Hy.
Qed.

(** A sum with one non-zero term. *)
Lemma qsum_single {X} (f : X -> Q) (l : list X) (x0 : X) :
  NoDup l -> In x0 l ->
  (forall x, In x l -> x <> x0 -> (f x == 0)%Q) ->
  (qsum (map f l) == f x0)%Q.
Proof.
  induction l as [|x l IH]; intros Hnd Hin Hz; [contradiction|].
  cbn [qsum map fold_right]. fold (qsum (map f l)).
  inversion Hnd as [|? ? Hnotin Hnd']; subst.
  destruct Hin as [->|Hin].
  - rewrite qsum_zero.
    + apply Qplus_0_r.
    + intros y Hy. apply Hz; [right; exact Hy|]. intros ->. contradiction.
  - rewrite (Hz x (or_introl eq_refl)) by (intros ->; contradiction).
    rewrite IH; auto.
    + apply Qplus_0_l.
    + intros y Hy. apply Hz. right. exact Hy.
Qed.

Lemma qsum_const {X} (f : X -> Q) (l : list X) (c : Q) :
  (forall x, In x l -> (f x == c)%Q) ->
  (qsum (map f l) == inject_Z (Z.of_nat (List.length l)) * c)%Q.
Proof.
  induction l as [|x l IH]; intros H.
  - cbn. unfold Qeq. cbn. lia.
  - cbn [qsum map fold_right]. fold (qsum (map f l)).
    rewrite (H x (or_introl eq_refl)), IH by (intros y Hy; apply H; right; exact Hy).
    cbn [List.length]. rewrite Nat2Z.inj_succ. unfold Z.succ.
    rewrite inject_Z_plus. ring.
Qed.

Lemma shifted_range_length lo n : 0 <= n ->
  Z.of_nat (List.length (map (Z.add lo) (range n))) = n.
Proof. intros H. rewrite length_map, range_length. lia. Qed.

Lemma shifted_range_In lo n v : In v (map (Z.add lo) (range n)) <-> lo <= v < lo + n.
Proof.
  rewrite in_map_iff. split.
  - intros (i & <- & Hi). apply range_In in Hi. lia.
  - intros H. exists (v - lo). split; [lia|]. apply range_In. lia.
Qed.

Lemma shifted_range_NoDup lo n : NoDup (map (Z.add lo) (range n)).
Proof.
  apply Injective_map_NoDup.
  - intros a b. lia.
  - apply range_NoDup.
Qed.

Lemma randrange_vis lo hi : lo < hi -> randrange lo hi = Vis (Randrange lo hi) Ret.
Proof. intros H. unfold randrange. destruct (Z.leb_spec hi lo); [lia|reflexivity]. Qed.

Lemma point_eqb_eq a b : point_eqb a b = true <-> a = b.
Proof.
  destruct a as [a1 a2], b as [b1 b2]. unfold point_eqb. cbn [fst snd].
  rewrite andb_true_iff, !Z.eqb_eq. split.
  - intros [-> ->]. reflexivity.
  - intros H. injection H as -> ->. auto.
Qed.

Lemma points_eqb_eq l1 : forall l2, points_eqb l1 l2 = true <-> l1 = l2.
Proof.
  induction l1 as [|a l1 IH]; intros [|b l2]; cbn [points_eqb];
    try (split; [discriminate|discriminate]); try (split; reflexivity).
  rewrite andb_true_iff, point_eqb_eq, IH. split.
  - intros [-> ->]. reflexivity.
  - intros H. injection H as -> ->. auto.
Qed.

Section Sampler.

Variable small : Image.
Hypothesis Hw : 1 <= width small.
Hypothesis Hh : 1 <= height small.

(** The loop of [_pre_random_point] from the point list [acc] on. *)
Let loop (l : list Z) (acc : list point) : prog randE (list point) :=
  pfor_each l acc (fun _ point_list =>
    (s_x <- randrange 0 (width small) ;;
     s_y <- randrange 0 (height small) ;;
     Ret (point_list ++ [(s_x, s_y)]))%prog).

Lemma loop_cons x l acc good :
  prob (loop (x :: l) acc) good
  = Qdiv (qsum (map (fun s_x =>
            Qdiv (qsum (map (fun s_y => prob (loop l (acc ++ [(s_x, s_y)])) good)
                            (map (Z.add 0) (range (height small - 0)))))
                 (inject_Z (height small - 0)))
          (map (Z.add 0) (range (width small - 0)))))
         (inject_Z (width small - 0)).
Proof.
  unfold loop. cbn [pfor_each]. rewrite !randrange_vis by lia. reflexivity.
Qed.

(** Every outcome of the loop extends [acc] by one point per pass. *)
Lemma loop_support l : forall acc good,
  (forall q, List.length q = List.length l -> good (ok (acc ++ q)) = false) ->
  (prob (loop l acc) good == 0)%Q.
Proof.
  induction l as [|x l IH]; intros acc good Hgood.
  - unfold loop. cbn [pfor_each prob].
    specialize (Hgood [] eq_refl). rewrite app_nil_r in Hgood. rewrite Hgood. reflexivity.
  - rewrite loop_cons.
    rewrite qsum_zero; [unfold Qdiv; apply Qmult_0_l|].
    intros s_x _. rewrite qsum_zero; [unfold Qdiv; apply Qmult_0_l|].
    intros s_y _. apply IH. intros q Hq.
    rewrite <- app_assoc. apply Hgood. cbn [app List.length]. lia.
Qed.

(** The loop ends in one of these outcomes for sure. *)
Lemma loop_certain l : forall acc good,
  (forall q, List.length q = List.length l -> good (ok (acc ++ q)) = true) ->
  (prob (loop l acc) good == 1)%Q.
Proof.
  induction l as [|x l IH]; intros acc good Hgood.
  - unfold loop. cbn [pfor_each prob].
    specialize (Hgood [] eq_refl). rewrite app_nil_r in Hgood. rewrite Hgood. reflexivity.
  - rewrite loop_cons.
    assert (Hnw : ~ (inject_Z (width small - 0) == 0)%Q).
    { unfold Qeq, inject_Z. cbn. lia. }
    assert (Hnh : ~ (inject_Z (height small - 0) == 0)%Q).
    { unfold Qeq, inject_Z. cbn. lia. }
    rewrite (qsum_const _ _ 1%Q).
    + rewrite shifted_range_length by lia. field. exact Hnw.
    + intros s_x _. rewrite (qsum_const _ _ 1%Q).
      * rewrite shifted_range_length by lia. field. exact Hnh.
      * intros s_y _. apply IH. intros q Hq.
        rewrite <- app_assoc. apply Hgood. cbn [app List.length]. lia.
Qed.

Lemma point_prob_step (x : Q) :
  (x / inject_Z (height small - 0) / inject_Z (width small - 0)
   == point_prob small * x)%Q.
Proof.
  unfold point_prob. rewrite !Z.sub_0_r.
  assert (~ inject_Z (width small) == 0)%Q.
  { unfold Qeq, inject_Z. cbn. lia. }
  assert (~ inject_Z (height small) == 0)%Q.
  { unfold Qeq, inject_Z. cbn. lia. }
  field. split; assumption.
Qed.

(** Each list of in-template points of the right length is the outcome
    with the same probability. *)
Lemma loop_uniform l : forall acc pts,
  List.length pts = List.length l -> Forall (in_template small) pts ->
  (prob (loop l acc) (is_sample (acc ++ pts)) == qpow (point_prob small) (List.length l))%Q.
Proof.
  induction l as [|x l IH]; intros acc pts Hlen Hall.
  - destruct pts; [|discriminate]. unfold loop. cbn [pfor_each prob is_sample ok qpow List.length].
    rewrite app_nil_r.
    assert (Hr : points_eqb acc acc = true) by (apply points_eqb_eq; reflexivity).
    rewrite Hr. reflexivity.
  - destruct pts as [|pt pts]; [discriminate|].
    inversion Hall as [|? ? [Hx Hy] Hall']; subst.
    rewrite loop_cons.
    rewrite (qsum_single _ _ (fst pt)).
    + rewrite (qsum_single _ _ (snd pt)).
      * rewrite point_prob_step. cbn [qpow List.length].
        replace (acc ++ pt :: pts) with ((acc ++ [pt]) ++ pts)
          by (rewrite <- app_assoc; reflexivity).
        rewrite <- surjective_pairing.
        rewrite IH; [reflexivity| |exact Hall'].
        cbn [List.length] in Hlen. lia.
      * apply shifted_range_NoDup.
      * apply shifted_range_In. lia.
      * intros s_y _ Hne. apply loop_support. intros q _.
        cbn [is_sample ok].
        destruct (points_eqb ((acc ++ [(fst pt, s_y)]) ++ q) (acc ++ pt :: pts)) eqn:E;
          [|reflexivity].
        apply points_eqb_eq in E. rewrite <- app_assoc in E.
        apply app_inv_head in E. cbn [app] in E. injection E as E _.
        destruct pt as [a b]. cbn [snd] in Hne. injection E as E. congruence.
    + apply shifted_range_NoDup.
    + apply shifted_range_In. lia.
    + intros s_x _ Hne. rewrite qsum_zero; [unfold Qdiv; apply Qmult_0_l|].
      intros s_y _. apply loop_support. intros q _.
      cbn [is_sample ok].
      destruct (points_eqb ((acc ++ [(s_x, s_y)]) ++ q) (acc ++ pt :: pts)) eqn:E;
        [|reflexivity].
      apply points_eqb_eq in E. rewrite <- app_assoc in E.
      apply app_inv_head in E. cbn [app] in E. injection E as E _.
      destruct pt as [a b]. cbn [fst] in Hne. injection E as E _. congruence.
Qed.

(** The sampler returns each valid sample of [k] points with probability
    [1/10 * (1 / (width * height))^k]. *)
Lemma sampler_uniform pts :
  valid_sample small pts ->
  (prob (_pre_random_point small) (is_sample pts)
   == (1 # 10) * qpow (point_prob small) (List.length pts))%Q.
Proof.
  intros [Hlen Hall]. unfold _pre_random_point.
  rewrite randrange_vis by lia. cbn [pbind prob].
  rewrite (qsum_single _ _ (Z.of_nat (List.length pts))).
  - assert (Hl : List.length (range (Z.of_nat (List.length pts))) = List.length pts).
    { apply Nat2Z.inj. rewrite range_length. lia. }
    pose proof (loop_uniform (range (Z.of_nat (List.length pts))) [] pts
                  (eq_sym Hl) Hall) as HU.
    rewrite Hl in HU. cbn [app] in HU. unfold loop in HU.
    etransitivity; [apply Qmult_comp; [exact HU|reflexivity]|].
    change (inject_Z (20 - 10)) with (10 # 1)%Q. field.
  - apply shifted_range_NoDup.
  - apply shifted_range_In. lia.
  - intros count Hc Hne. apply shifted_range_In in Hc.
    apply (loop_support (range count) []). intros q Hq. cbn [app is_sample ok].
    destruct (points_eqb q pts) eqn:E; [|reflexivity].
    apply points_eqb_eq in E. subst q. exfalso. apply Hne.
    rewrite Hq. rewrite range_length. lia.
Qed.

(** The number of points is uniform on [10 .. 19]. *)
Lemma sampler_count_uniform k :
  (10 <= k < 20)%nat ->
  (prob (_pre_random_point small) (has_length k) == 1 # 10)%Q.
Proof.
  intros Hk. unfold _pre_random_point.
  rewrite randrange_vis by lia. cbn [pbind prob].
  rewrite (qsum_single _ _ (Z.of_nat k)).
  - pose proof (loop_certain (range (Z.of_nat k)) [] (has_length k)) as HC.
    unfold loop in HC.
    etransitivity; [apply Qmult_comp; [apply HC|reflexivity]|].
    + intros q Hq. cbn [app has_length]. apply Nat.eqb_eq.
      rewrite Hq. apply Nat2Z.inj. rewrite range_length. lia.
    + reflexivity.
  - apply shifted_range_NoDup.
  - apply shifted_range_In. lia.
  - intros count Hc Hne. apply shifted_range_In in Hc.
    apply (loop_support (range count) []). intros q Hq. cbn [app has_length].
    apply Nat.eqb_neq. intros E. apply Hne.
    rewrite <- E, Hq, range_length. lia.
Qed.

End Sampler.

End SamplerFacts.

(** * Facts about the polling controller *)

Module PollingFacts.
Import PyNum ImageCenter Polling.

Lemma run_bind {A B} (p : prog ioE A) (f : A -> prog ioE B) w : forall n,
  run (pbind p f) w n
  = match run p w n with
    | (inr a, tr) =>
        let '(r, tr') := run (f a) w (n + List.length tr)%nat in (r, tr ++ tr')
    | (inl e, tr) => (inl e, tr)
    end.
Proof.
  induction p as [a|e|X ev k IH]; intros n; cbn [pbind run ok throw].
  - rewrite Nat.add_0_r. destruct (run (f a) w n). reflexivity.
  - reflexivity.
  - rewrite IH. destruct (run (k (w X n ev)) w (S n)) as [[e|a] tr].
    + reflexivity.
    + cbn [List.length]. replace (n + S (List.length tr))%nat
        with (S n + List.length tr)%nat by lia.
      destruct (run (f a) w (S n + List.length tr)). reflexivity.
Qed.

Lemma run_lift {A} (c : res A) w n : run (lift c) w n = (c, []).
Proof. destruct c; reflexivity. Qed.

(** Catching an exception only to raise it again changes nothing. *)
Lemma run_reraise {A} cls (p : prog ioE A) w : forall n,
  run (pexcept cls p (fun exc => Raise exc)) w n = run p w n.
Proof.
  induction p as [a|e|X ev k IH]; intros n; cbn [pexcept run].
  - reflexivity.
  - destruct (cls e); reflexivity.
  - rewrite IH. reflexivity.
Qed.

Lemma run_bind_fst {A B} (p : prog ioE A) (f : A -> prog ioE B) w n :
  fst (run (pbind p f) w n)
  = match run p w n with
    | (inr a, tr) => fst (run (f a) w (n + List.length tr)%nat)
    | (inl e, _) => inl e
    end.
Proof.
  rewrite run_bind. destruct (run p w n) as [[e|a] tr]; [reflexivity|].
  destruct (run (f a) w (n + List.length tr)). reflexivity.
Qed.

(** A loop none of whose passes returns leaves without a value. *)
Lemma pfor_ctl_no_return {X R} (l : list X) (body : X -> prog ioE (ctl R)) w :
  (forall x n, In x l ->
     exists c tr, run (body x) w n = (ok c, tr) /\ (c = Next \/ c = Break)) ->
  forall n, exists tr, run (pfor_ctl l body) w n = (ok None, tr).
Proof.
  induction l as [|x l IH]; intros Hbody n; cbn [pfor_ctl].
  - eexists. reflexivity.
  - rewrite run_bind.
    destruct (Hbody x n (or_introl eq_refl)) as (c & tr & -> & Hc).
    cbn [ok]. destruct Hc as [->| ->].
    + destruct (IH (fun y m Hy => Hbody y m (or_intror Hy)) (n + List.length tr)%nat)
        as (tr' & ->).
      eexists. reflexivity.
    + cbn [run]. eexists. reflexivity.
Qed.

Section Exhausted.

Variables (conf : Conf) (widget : list string) (rate : option num) (multiple : bool)
  (picture_abspath : option string) (screen_bbox : option (list Z))
  (log_level : string) (network_retry : option Z)
  (pause timeout max_match_number : option num) (w : world).

Variables (retry_number secs : Z) (rate' : num).

Hypothesis Hretry :
  to_int (num_or max_match_number (MAX_MATCH_NUMBER conf)) = ok retry_number.
Hypothesis Hnonneg : 0 <= retry_number.
Hypothesis Hrate : effective_rate conf rate = ok rate'.
Hypothesis Hpause : to_int (num_or pause (PAUSE conf)) = ok secs.
Hypothesis Hsecs : 0 <= secs.

(** Every matching attempt comes back without a match. *)
Hypothesis Hnomatch : forall element n, In element widget ->
  exists v tr,
    run (_match_image_by_opencv conf element (Some rate') multiple picture_abspath
           screen_bbox log_level (int_or network_retry (NETWORK_RETRY conf))) w n
    = (ok v, tr)
    /\ truthy v = false.

Lemma attempt_without_match element start_time n :
  In element widget ->
  exists c tr,
    run (locate <- _match_image_by_opencv conf element (Some rate') multiple
                     picture_abspath screen_bbox log_level
                     (int_or network_retry (NETWORK_RETRY conf)) ;;
         if negb (truthy locate) then
           secs <- lift (to_int (num_or pause (PAUSE conf))) ;;
           sleep secs ;;;
           end_time <- Vis TimeTime Ret ;;
           if num_gt (PyFloat (SFsub prec emax end_time start_time))
                     (num_or timeout (TIMEOUT conf))
           then Ret Break
           else Ret Next
         else Ret (Return locate))%prog w n
    = (ok c, tr) /\ (c = Next \/ c = @Break pyval).
Proof.
  intros Hin. rewrite run_bind.
  destruct (Hnomatch element n Hin) as (v & tr & -> & Hv).
  cbn [ok]. rewrite Hv, Hpause. cbn [negb lift ok pbind]. unfold sleep.
  destruct (Z.ltb_spec secs 0) as [?|_]; [lia|]. cbn [pbind run].
  destruct (num_gt _ _); cbn [run ok]; eexists _, _; split; eauto.
Qed.

(** When no attempt finds a match, the search ends in
    [TemplateElementNotFound] with all the templates as arguments. *)
Lemma find_image_exhausted n :
  fst (run (find_image conf widget rate multiple picture_abspath screen_bbox log_level
              network_retry pause timeout max_match_number) w n)
  = throw (TemplateElementNotFound (not_found_args widget)).
Proof.
  unfold find_image. rewrite Hretry. cbn [lift ok pbind].
  destruct (Z.ltb_spec retry_number 0) as [?|_]; [lia|].
  assert (Hr : (match rate with
                | None => (f <- lift (to_float (IMAGE_RATE conf)) ;; Ret (PyFloat f))%prog
                | Some r => Ret r
                end : prog ioE num) = Ret rate').
  { unfold effective_rate in Hrate. destruct rate as [r|].
    - injection Hrate as ->. reflexivity.
    - destruct (to_float (IMAGE_RATE conf)) as [e|f]; cbn [rbind ok] in Hrate;
        [discriminate|]. injection Hrate as <-. reflexivity. }
  rewrite Hr. cbn [pbind]. rewrite run_reraise, run_bind_fst.
  match goal with
  | |- context [run (pfor_ctl widget ?body) w n] =>
      destruct (pfor_ctl_no_return widget body w) with (n := n) as (tr & ->)
  end.
  - intros element m Hin. cbn [pbind run]. rewrite run_bind.
    match goal with
    | |- context [run (pfor_ctl (range (retry_number + 1)) ?body) w (S m)] =>
        destruct (pfor_ctl_no_return (range (retry_number + 1)) body w)
          with (n := S m) as (tr & ->)
    end.
    + intros _ k _. apply attempt_without_match. exact Hin.
    + cbn [run ok]. eexists _, _. split; [reflexivity|]. left. reflexivity.
  - reflexivity.
Qed.

End Exhausted.

End PollingFacts.

(** * Properties of the sampler and safety of the scan *)

Module Sampling.
Import PyNum ImageCenterByRGB Placement RGBFacts SamplerFacts.

(** C6. The sampler returns a list whose length is uniform on [10 .. 19]
    and whose points are uniform and independent on the template: each
    list of [k] in-template points has probability
    [1/10 * (1 / (width * height))^k]. Within one call the sample is drawn
    once, before the scan ([1 + 2 * k] draws in all, however many
    placements there are), and the scan uses that one sample for every
    placement. *)
Theorem sample_once_uniform small big rate :
  1 <= width small -> 1 <= height small ->
  (forall k, (10 <= k < 20)%nat ->
     (prob (_pre_random_point small) (has_length k) == 1 # 10)%Q)
  /\ (forall point_list, valid_sample small point_list ->
        (prob (_pre_random_point small) (is_sample point_list)
         == (1 # 10) * qpow (point_prob small) (List.length point_list))%Q)
  /\ (forall tape n, exists point_list,
        run_rand (_pre_random_point small) tape n
        = (ok point_list, (n + 1 + 2 * List.length point_list)%nat)
        /\ valid_sample small point_list
        /\ run_rand (image_center_by_rgb small big rate) tape n
           = (scan small big point_list rate,
              (n + 1 + 2 * List.length point_list)%nat)).
Proof.
  intros Hw Hh. split; [|split].
  - intros k Hk. apply sampler_count_uniform; assumption.
  - intros pts Hpts. apply sampler_uniform; assumption.
  - intros tape n.
    destruct (sampler_run small tape n Hw Hh) as (pts & Hrun & Hvalid).
    exists pts. split; [exact Hrun|]. split; [exact Hvalid|].
    rewrite image_center_run. unfold point in *. rewrite Hrun. reflexivity.
Qed.

Lemma sample_once_uniform_witness :
  (forall k, (10 <= k < 20)%nat ->
     (prob (_pre_random_point Examples.template) (has_length k) == 1 # 10)%Q)
  /\ (forall point_list, valid_sample Examples.template point_list ->
        (prob (_pre_random_point Examples.template) (is_sample point_list)
         == (1 # 10) * qpow (point_prob Examples.template) (List.length point_list))%Q)
  /\ (forall tape n, exists point_list,
        run_rand (_pre_random_point Examples.template) tape n
        = (ok point_list, (n + 1 + 2 * List.length point_list)%nat)
        /\ valid_sample Examples.template point_list
        /\ run_rand (image_center_by_rgb Examples.template Examples.screen_a
                       (PyFloat f_one)) tape n
           = (scan Examples.template Examples.screen_a point_list (PyFloat f_one),
              (n + 1 + 2 * List.length point_list)%nat)).
Proof.
  apply (sample_once_uniform Examples.template Examples.screen_a (PyFloat f_one)).
  - vm_compute. discriminate.
  - vm_compute. discriminate.
Defined.

(** C10. For a template of at least one pixel and a screen at least as
    large, the sample has at least 10 points, the full comparison divides
    by [width * height >= 1], every pixel access of both tests is inside
    its image at every candidate placement, neither test raises, and the
    call ends in neither [IndexError] nor [ZeroDivisionError]. *)
Theorem scan_is_safe small big rate tape n :
  1 <= width small -> 1 <= height small ->
  width small <= width big -> height small <= height big ->
  exists point_list n',
    run_rand (_pre_random_point small) tape n = (ok point_list, n')
    /\ (10 <= List.length point_list)%nat
    /\ 1 <= width small * height small
    /\ (forall q, in_range small big q ->
          (forall pt, In pt point_list ->
             getitem (load big) (fst q + fst pt) (snd q + snd pt)
             = ok (pixels big (fst q + fst pt) (snd q + snd pt))
             /\ getitem (load small) (fst pt) (snd pt)
                = ok (pixels small (fst pt) (snd pt)))
          /\ (forall i j, 0 <= i < width small -> 0 <= j < height small ->
                getitem (load big) (fst q + i) (snd q + j)
                = ok (pixels big (fst q + i) (snd q + j))
                /\ getitem (load small) i j = ok (pixels small i j))
          /\ (exists pre chk,
                _pre_random_match (fst q) (snd q) point_list (load big) (load small) rate
                = ok pre
                /\ _check_match (fst q) (snd q) small (load big) (load small) rate
                   = ok chk))
    /\ fst (run_rand (image_center_by_rgb small big rate) tape n) <> throw IndexError
    /\ fst (run_rand (image_center_by_rgb small big rate) tape n)
       <> throw ZeroDivisionError.
Proof.
  intros Hw Hh Hbw Hbh.
  destruct (RegionMatcher.matcher_result small big rate tape n Hw Hh)
    as (pts & n' & Hrun & Hvalid & Hres).
  exists pts, n'. destruct Hvalid as [Hlen Hall].
  split; [exact Hrun|]. split; [lia|]. split; [nia|]. split.
  - intros q Hq. split; [|split].
    + intros pt Hpt. rewrite Forall_forall in Hall. destruct (Hall pt Hpt) as [Hi Hj].
      destruct Hq as [Hx Hy].
      split; apply getitem_in_bounds; cbn [load xsize ysize]; lia.
    + intros i j Hi Hj. destruct Hq as [Hx Hy].
      split; apply getitem_in_bounds; cbn [load xsize ysize]; lia.
    + apply tests_return; auto. intros ->. cbn in Hlen. lia.
  - rewrite Hres. cbn [fst].
    destruct (find _ _) as [q|]; [apply centers_no_index_zero|].
    split; discriminate.
Qed.

Lemma scan_is_safe_witness :
  exists point_list n',
    run_rand (_pre_random_point Examples.template) Examples.tape 0 = (ok point_list, n')
    /\ (10 <= List.length point_list)%nat
    /\ 1 <= width Examples.template * height Examples.template
    /\ (forall q, in_range Examples.template Examples.screen_a q ->
          (forall pt, In pt point_list ->
             getitem (load Examples.screen_a) (fst q + fst pt) (snd q + snd pt)
             = ok (pixels Examples.screen_a (fst q + fst pt) (snd q + snd pt))
             /\ getitem (load Examples.template) (fst pt) (snd pt)
                = ok (pixels Examples.template (fst pt) (snd pt)))
          /\ (forall i j, 0 <= i < width Examples.template ->
                0 <= j < height Examples.template ->
                getitem (load Examples.screen_a) (fst q + i) (snd q + j)
                = ok (pixels Examples.screen_a (fst q + i) (snd q + j))
                /\ getitem (load Examples.template) i j
                   = ok (pixels Examples.template i j))
          /\ (exists pre chk,
                _pre_random_match (fst q) (snd q) point_list (load Examples.screen_a)
                  (load Examples.template) (PyFloat f_one) = ok pre
                /\ _check_match (fst q) (snd q) Examples.template (load Examples.screen_a)
                     (load Examples.template) (PyFloat f_one) = ok chk))
    /\ fst (run_rand (image_center_by_rgb Examples.template Examples.screen_a
                        (PyFloat f_one)) Examples.tape 0) <> throw IndexError
    /\ fst (run_rand (image_center_by_rgb Examples.template Examples.screen_a
                        (PyFloat f_one)) Examples.tape 0) <> throw ZeroDivisionError.
Proof.
  apply (scan_is_safe Examples.template Examples.screen_a (PyFloat f_one) Examples.tape 0).
  - vm_compute. discriminate.
  - vm_compute. discriminate.
  - vm_compute. discriminate.
  - vm_compute. discriminate.
Defined.

End Sampling.

(** * Properties of the polling controller *)

Module PollingController.
Import PyNum ImageCenterByRGB Placement RGBFacts ImageCenter Polling PollingFacts.
Local Open Scope string_scope.

(** C8, on the code: an explicit [max_match_number = 0] is taken for "not
    given" and replaced by [conf.MAX_MATCH_NUMBER]; with two retries
    configured and no match anywhere, the call makes three matching
    attempts, not one, before it raises. *)
Theorem zero_attempts_uses_default :
  (forall conf widget rate multiple picture_abspath screen_bbox log_level
          network_retry pause timeout,
     find_image conf widget rate multiple picture_abspath screen_bbox log_level
                network_retry pause timeout (Some (PyInt 0))
     = find_image conf widget rate multiple picture_abspath screen_bbox log_level
                  network_retry pause timeout None)
  /\ (let r := run (find_image Examples.conf ["a.png"] (Some (PyFloat f_one)) false None
                      None "info" None None None (Some (PyInt 0))) Examples.quiet 0 in
      fst r = throw (TemplateElementNotFound (not_found_args ["a.png"]))
      /\ match_attempts (snd r) = 3%nat
      /\ captures (snd r) = 3%nat).
Proof.
  split.
  - reflexivity.
  - vm_compute. auto.
Qed.

(** C9, as stated, fails: the rate is not validated. With the
    out-of-range rate [2.0] the call captures the screen and queries the
    matching service on every attempt, and ends like any search without a
    match. *)
Lemma out_of_range_rate_not_rejected :
  out_of_range (PyFloat Examples.f_two) = true
  /\ (let r := run (find_image Examples.conf ["a.png"] (Some (PyFloat Examples.f_two))
                      false None None "info" None None None (Some (PyInt 1)))
                   Examples.quiet 0 in
      fst r = throw (TemplateElementNotFound (not_found_args ["a.png"]))
      /\ captures (snd r) = 2%nat
      /\ match_attempts (snd r) = 2%nat).
Proof. vm_compute. auto. Qed.

(** C9, amended. A negative attempt count is rejected eagerly: the call
    raises [ValueError] before any external call, so with no screen capture
    and no matching work. The rate is not checked. *)
Theorem negative_attempts_rejected conf widget rate multiple picture_abspath
    screen_bbox log_level network_retry pause timeout max_match_number w n
    retry_number :
  to_int (num_or max_match_number (MAX_MATCH_NUMBER conf)) = ok retry_number ->
  (retry_number < 0)%Z ->
  run (find_image conf widget rate multiple picture_abspath screen_bbox log_level
         network_retry pause timeout max_match_number) w n
  = (throw (ValueError "重试次数不能小于0"), [])
  /\ captures (snd (run (find_image conf widget rate multiple picture_abspath screen_bbox
                           log_level network_retry pause timeout max_match_number) w n))
     = 0%nat.
Proof.
  intros Hretry Hneg.
  assert (H : run (find_image conf widget rate multiple picture_abspath screen_bbox
                     log_level network_retry pause timeout max_match_number) w n
              = (throw (ValueError "重试次数不能小于0"), [])).
  { unfold find_image. rewrite Hretry. cbn [lift ok pbind].
    destruct (Z.ltb_spec retry_number 0) as [_|?]; [|lia]. reflexivity. }
  rewrite H. split; reflexivity.
Qed.

Lemma negative_attempts_rejected_witness :
  run (find_image Examples.conf ["a.png"] None false None None "info" None None None
         (Some (PyInt (-1)))) Examples.quiet 0
  = (throw (ValueError "重试次数不能小于0"), [])
  /\ captures (snd (run (find_image Examples.conf ["a.png"] None false None None "info"
                           None None None (Some (PyInt (-1)))) Examples.quiet 0))
     = 0%nat.
Proof.
  apply (negative_attempts_rejected Examples.conf ["a.png"] None false None None "info"
           None None None (Some (PyInt (-1))) Examples.quiet 0 (-1)).
  - reflexivity.
  - lia.
Defined.

End PollingController.

(** * Edge cases of the region matcher *)

Module MatcherEdges.
Import PyNum PyNumFacts ImageCenterByRGB Placement RGBFacts.

(** A loop raises [e] when one pass raises it whatever the state and every
    other pass either succeeds or raises [e] as well. *)
Lemma for_each_raises {X S} (e : exn) (l : list X) (body : X -> S -> res S) :
  (forall x st, In x l -> body x st = throw e \/ exists st', body x st = ok st') ->
  (exists x, In x l /\ forall st, body x st = throw e) ->
  forall st, for_each l st body = throw e.
Proof.
  induction l as [|x l IH]; intros Hall (x0 & Hin & Hx0) st.
  - destruct Hin.
  - cbn [for_each]. destruct (Hall x st (or_introl eq_refl)) as [H | (st' & H)].
    + rewrite H. reflexivity.
    + destruct Hin as [Heq | Hin].
      * subst x0. rewrite Hx0 in H. discriminate.
      * rewrite H. cbn [rbind ok]. apply IH.
        -- intros y s Hy. apply Hall. right. exact Hy.
        -- exists x0. auto.
Qed.

Lemma getitem_outside acc x y :
  0 <= x -> 0 <= y -> (xsize acc <= x \/ ysize acc <= y) ->
  getitem acc x y = throw IndexError.
Proof.
  intros Hx Hy Hout. unfold getitem.
  destruct (Z.ltb_spec x 0); try lia. destruct (Z.ltb_spec y 0); try lia.
  destruct (Z.leb_spec 0 x); try lia. destruct (Z.leb_spec 0 y); try lia.
  destruct (Z.ltb_spec x (xsize acc)); destruct (Z.ltb_spec y (ysize acc));
    try reflexivity; lia.
Qed.

Lemma getitem_cases acc x y :
  getitem acc x y = throw IndexError \/ exists v, getitem acc x y = ok v.
Proof.
  unfold getitem. destruct (_ && _); [right; eexists; reflexivity | left; reflexivity].
Qed.

Lemma for_each_ok_or {X S} (e : exn) (l : list X) (body : X -> S -> res S) :
  (forall x st, In x l -> body x st = throw e \/ exists st', body x st = ok st') ->
  forall st, for_each l st body = throw e \/ exists st', for_each l st body = ok st'.
Proof.
  induction l as [|x l IH]; intros Hall st; cbn [for_each].
  - right. eexists. reflexivity.
  - destruct (Hall x st (or_introl eq_refl)) as [-> | (st' & ->)]; [left; reflexivity|].
    cbn [rbind ok]. apply IH. intros y s Hy. apply Hall. right. exact Hy.
Qed.

(** X1. A template placed (at non-negative coordinates) so that it sticks out
    of the screen makes the full comparison raise [IndexError]. *)
Theorem check_match_outside small big rate _x _y :
  1 <= width small -> 1 <= height small ->
  0 <= _x -> 0 <= _y ->
  width big < _x + width small \/ height big < _y + height small ->
  _check_match _x _y small (load big) (load small) rate = throw IndexError.
Proof.
  intros Hw Hh Hx Hy Hout. unfold _check_match.
  set (pass := fun (i j : Z) (st : Z * Z) =>
         (b <- getitem (load big) (_x + i) (_y + j) ;;
          s <- getitem (load small) i j ;; ok (tally b s st))%res).
  assert (Hpass : forall i j st, In i (range (width small)) -> In j (range (height small)) ->
            pass i j st = throw IndexError \/ exists st', pass i j st = ok st').
  { intros i j st Hi Hj. apply range_In in Hi. apply range_In in Hj. unfold pass.
    destruct (getitem_cases (load big) (_x + i) (_y + j)) as [-> | (v & ->)];
      [left; reflexivity|].
    rewrite (getitem_in_bounds (load small) i j) by (cbn [load xsize ysize]; lia).
    right. eexists. reflexivity. }
  assert (Hfail : exists i j, In i (range (width small)) /\ In j (range (height small))
                              /\ forall st, pass i j st = throw IndexError).
  { destruct Hout as [Hout|Hout].
    - exists (Z.max 0 (width big - _x)), 0.
      split; [apply range_In; lia|]. split; [apply range_In; lia|].
      intros st. unfold pass. rewrite getitem_outside; [reflexivity|lia|lia|].
      left. cbn [load xsize]. lia.
    - exists 0, (Z.max 0 (height big - _y)).
      split; [apply range_In; lia|]. split; [apply range_In; lia|].
      intros st. unfold pass. rewrite getitem_outside; [reflexivity|lia|lia|].
      right. cbn [load ysize]. lia. }
  destruct Hfail as (i0 & j0 & Hi0 & Hj0 & Hfail).
  rewrite (for_each_raises IndexError (range (width small))
             (fun i st => for_each (range (height small)) st (pass i))).
  - reflexivity.
  - intros i st Hi. apply for_each_ok_or. intros j s Hj. apply Hpass; assumption.
  - exists i0. split; [exact Hi0|]. intros st.
    apply for_each_raises.
    + intros j s Hj. apply Hpass; assumption.
    + exists j0. split; [exact Hj0|]. exact Hfail.
Qed.

Lemma check_match_outside_witness :
  _check_match 3 0 Examples.template (load Examples.screen_a) (load Examples.template)
    (PyFloat f_one) = throw IndexError.
Proof.
  apply (check_match_outside Examples.template Examples.screen_a (PyFloat f_one) 3 0).
  - vm_compute. discriminate.
  - vm_compute. discriminate.
  - lia.
  - lia.
  - left. vm_compute. reflexivity.
Defined.

(** X2. Given accesses inside the images, the pre-filter raises
    [ZeroDivisionError] exactly when the point list is empty; otherwise it
    returns a boolean. *)
Theorem pre_random_match_empty small big rate p point_list :
  in_range small big p -> Forall (in_template small) point_list ->
  (_pre_random_match (fst p) (snd p) point_list (load big) (load small) rate
   = throw ZeroDivisionError <-> point_list = [])
  /\ (point_list <> [] ->
      exists b, _pre_random_match (fst p) (snd p) point_list (load big) (load small) rate
                = ok b).
Proof.
  intros Hp Hpts.
  assert (Hne : point_list <> [] ->
            exists b, _pre_random_match (fst p) (snd p) point_list (load big) (load small) rate
                      = ok b).
  { intros Hne.
    destruct (pre_random_match_counts small big rate p Hp point_list Hpts)
      as (s1 & d1 & Hs1 & Hd1 & Ht1 & ->).
    assert (0 < List.length point_list)%nat by (destruct point_list; [congruence | cbn; lia]).
    destruct (int_truediv_le_ok s1 (s1 + d1)) as (q1 & ->); try lia.
    cbn [rbind ok]. eauto. }
  split; [|exact Hne]. split.
  - intros Hz. destruct point_list as [|pt l]; [reflexivity|].
    destruct Hne as (b & Hb); [discriminate|]. rewrite Hb in Hz. discriminate.
  - intros ->. reflexivity.
Qed.

Lemma pre_random_match_empty_witness :
  (_pre_random_match 0 0 [] (load Examples.screen_a) (load Examples.template) (PyFloat f_one)
   = throw ZeroDivisionError <-> @nil point = [])
  /\ (@nil point <> [] ->
      exists b, _pre_random_match 0 0 [] (load Examples.screen_a) (load Examples.template)
                  (PyFloat f_one) = ok b).
Proof.
  apply (pre_random_match_empty Examples.template Examples.screen_a (PyFloat f_one) (0, 0) []).
  - split; split; vm_compute; congruence.
  - constructor.
Defined.

End MatcherEdges.

Module PyNumOrder.
Import PyNum PyNumFacts.

Lemma binary_round_aux_sign s m ex l :
  binary_round_aux prec emax s m ex l = S754_zero s
  \/ binary_round_aux prec emax s m ex l = S754_infinity s
  \/ binary_round_aux prec emax s m ex l = S754_nan
  \/ exists m' e', binary_round_aux prec emax s m ex l = S754_finite s m' e'.
Proof.
  unfold binary_round_aux.
  destruct (shr_fexp prec emax m ex l) as [mrs1 e1].
  destruct (shr_fexp prec emax _ e1 loc_Exact) as [mrs2 e2].
  destruct (shr_m mrs2) as [|p|p].
  - left. reflexivity.
  - destruct (e2 <=? emax - prec).
    + right. right. right. eexists _, _. reflexivity.
    + right. left. reflexivity.
  - right. right. left. reflexivity.
Qed.

(** A quotient of non-negative ints is a non-negative float. *)
Lemma int_truediv_nonneg a b f :
  0 <= a -> 0 < b -> int_truediv a b = ok f ->
  f = S754_zero false \/ exists m e, f = S754_finite false m e.
Proof.
  intros Ha Hb. unfold int_truediv.
  destruct (Z.eqb_spec b 0) as [?|_]; try lia.
  destruct b as [|pb|pb]; try lia.
  destruct a as [|pa|pa]; try lia.
  - cbn. intros H. injection H as <-. auto.
  - unfold raw_of_int, SFdiv, SFdiv_core_binary.
    set (e' := Z.min _ _). set (m' := match 0 - 0 - e' with Z0 => _ | _ => _ end).
    assert (Hm' : 0 <= m').
    { unfold m'. destruct (0 - 0 - e'); try lia. rewrite Z.shiftl_mul_pow2 by lia.
      apply Z.mul_nonneg_nonneg; [lia|]. apply Z.pow_nonneg. lia. }
    pose proof (Z.div_eucl_eq m' (Zpos pb) ltac:(lia)) as Heq.
    pose proof (Z.mod_pos_bound m' (Zpos pb) ltac:(lia)) as Hr.
    unfold Z.modulo in Hr.
    destruct (Z.div_eucl m' (Zpos pb)) as [q r].
    assert (Hq : 0 <= q) by nia.
    cbn [xorb].
    destruct (binary_round_aux_sign false q e' (new_location (Zpos pb) r))
      as [H | [H | [H | (m1 & e1 & H)]]]; rewrite H.
    + intros E. injection E as <-. auto.
    + discriminate.
    + exfalso. exact (binary_round_aux_not_nan _ _ _ _ Hq H).
    + intros E. injection E as <-. eauto.
Qed.

Lemma ext_leb_total a b : ext_leb a b = false -> ext_leb b a = true.
Proof.
  destruct a as [|m1 e1|], b as [|m2 e2|]; cbn [ext_leb]; try discriminate; try reflexivity.
  rewrite Z.min_comm. intros H. apply Z.leb_gt in H. apply Z.leb_le. lia.
Qed.

(** A quotient [a / b] with [0 <= a <= b < 2^53] lies between [0] and [1]. *)
Lemma int_truediv_unit a b f :
  0 <= a <= b -> 0 < b -> b < 2 ^ 53 -> int_truediv a b = ok f ->
  num_le (PyInt 0) (PyFloat f) = true /\ num_le (PyFloat f) (PyInt 1) = true.
Proof.
  intros Hab Hb Hb53 Hf.
  pose proof (int_truediv_nonneg a b f ltac:(lia) Hb Hf) as Hshape.
  split.
  - destruct Hshape as [-> | (m & e & ->)]; [reflexivity|].
    unfold num_le. cbn [num_val float_val ext_leb]. apply Z.leb_le.
    rewrite Z.mul_0_l. apply Z.mul_nonneg_nonneg; [lia|]. apply Z.pow_nonneg. lia.
  - destruct (Z.eq_dec a b) as [->|Hne].
    + rewrite int_truediv_self in Hf by lia. injection Hf as <-. reflexivity.
    + destruct (int_truediv_below_one a b) as (f' & Hf' & Hlt); try lia.
      rewrite Hf in Hf'. injection Hf' as <-.
      apply (num_le_trans _ (PyFloat f_one)); [|reflexivity].
      unfold num_le in *. destruct Hshape as [-> | (m & e & ->)]; [reflexivity|].
      cbn [num_val float_val] in *. apply ext_leb_total. exact Hlt.
Qed.

End PyNumOrder.

Module MatcherRates.
Import PyNum PyNumFacts PyNumOrder ImageCenterByRGB Placement RGBFacts.

(** X3. An empty template (width or height not positive) makes the call
    raise the [ValueError] of [randrange] while it draws the first sample
    point, before any pixel is read. *)
Theorem empty_template_value_error small big rate tape n :
  width small <= 0 \/ height small <= 0 ->
  exists msg,
    fst (run_rand (image_center_by_rgb small big rate) tape n) = throw (ValueError msg)
    /\ fst (run_rand (_pre_random_point small) tape n) = throw (ValueError msg).
Proof.
  intros Hempty. exists "empty range for randrange()"%string.
  assert (Hs : fst (run_rand (_pre_random_point small) tape n)
               = throw (ValueError "empty range for randrange()")).
  { unfold _pre_random_point.
    rewrite run_rand_bind, randrange_run by lia. cbn [ok].
    set (count := 10 + tape n mod (20 - 10)).
    assert (Hc : 10 <= count) by (unfold count; pose proof (Z.mod_pos_bound (tape n) (20 - 10)); lia).
    destruct (range_split 0 count ltac:(lia)) as (l2 & -> & _).
    rewrite (range_nil 0) by lia. cbn [app pfor_each].
    rewrite run_rand_bind.
    destruct (Z.leb_spec (width small) 0) as [Hw|Hw].
    - unfold randrange. destruct (Z.leb_spec (width small) 0); [|lia]. reflexivity.
    - rewrite run_rand_bind, randrange_run by lia. cbn [ok].
      rewrite run_rand_bind.
      unfold randrange. destruct (Z.leb_spec (height small) 0); [|lia]. reflexivity. }
  split; [|exact Hs].
  rewrite image_center_run.
  destruct (run_rand (_pre_random_point small) tape n) as [[e|pts] n'];
    cbn [fst] in *; [|discriminate].
  injection Hs as ->. reflexivity.
Qed.

Lemma empty_template_value_error_witness :
  exists msg,
    fst (run_rand (image_center_by_rgb (image_of_rows []) Examples.screen_a (PyFloat f_one))
           Examples.tape 0)
    = throw (ValueError msg)
    /\ fst (run_rand (_pre_random_point (image_of_rows [])) Examples.tape 0)
       = throw (ValueError msg).
Proof.
  apply (empty_template_value_error (image_of_rows []) Examples.screen_a (PyFloat f_one)
           Examples.tape 0).
  left. vm_compute. discriminate.
Defined.

(** X4. A returned point lies inside the screen, and inside the region of
    the placement it is the center of; the call returns nothing but [False]
    or such a point. *)
Theorem result_inside_screen small big rate tape n v :
  1 <= width small -> 1 <= height small -> pil_sized big ->
  fst (run_rand (image_center_by_rgb small big rate) tape n) = ok v ->
  v = PyBool false
  \/ exists cx cy q,
       v = PyPoint cx cy /\ in_range small big q
       /\ fst q <= cx < fst q + width small /\ snd q <= cy < snd q + height small
       /\ 0 <= cx < width big /\ 0 <= cy < height big.
Proof.
  intros Hw Hh Hbig Hv.
  destruct (RegionMatcher.matcher_result small big rate tape n Hw Hh)
    as (pts & n' & _ & _ & Hres).
  rewrite Hres in Hv. cbn [fst] in Hv.
  destruct (find _ _) as [q|] eqn:Hfind.
  - right.
    destruct (first_accepted_spec small big pts rate q Hfind) as (Hq & _ & _).
    rewrite (centers_exact small big q Hw Hh Hbig Hq) in Hv. injection Hv as <-.
    exists (fst q + width small / 2), (snd q + height small / 2), q.
    destruct Hq as [Hx Hy].
    pose proof (Z.div_pos (width small) 2 ltac:(lia) ltac:(lia)).
    pose proof (Z.div_pos (height small) 2 ltac:(lia) ltac:(lia)).
    pose proof (Z.div_lt (width small) 2 ltac:(lia) ltac:(lia)).
    pose proof (Z.div_lt (height small) 2 ltac:(lia) ltac:(lia)).
    split; [reflexivity|]. split; [split; assumption|]. lia.
  - left. injection Hv as <-. reflexivity.
Qed.

Lemma result_inside_screen_witness :
  PyPoint 1 1 = PyBool false
  \/ exists cx cy q,
       PyPoint 1 1 = PyPoint cx cy /\ in_range Examples.template Examples.screen_a q
       /\ fst q <= cx < fst q + width Examples.template
       /\ snd q <= cy < snd q + height Examples.template
       /\ 0 <= cx < width Examples.screen_a /\ 0 <= cy < height Examples.screen_a.
Proof.
  apply (result_inside_screen Examples.template Examples.screen_a (PyFloat f_one)
           Examples.tape 0 (PyPoint 1 1)).
  - vm_compute. discriminate.
  - vm_compute. discriminate.
  - split; split; vm_compute; congruence.
  - vm_compute. reflexivity.
Defined.

(** The pre-filter's quotient lies between [0] and [1]. *)
Lemma pre_random_match_quotient small big rate p point_list :
  1 <= width small -> 1 <= height small ->
  in_range small big p -> valid_sample small point_list ->
  exists f,
    num_le (PyInt 0) (PyFloat f) = true /\ num_le (PyFloat f) (PyInt 1) = true
    /\ _pre_random_match (fst p) (snd p) point_list (load big) (load small) rate
       = ok (num_ge (PyFloat f) rate).
Proof.
  intros Hw Hh Hp [Hlen Hall].
  destruct (pre_random_match_counts small big rate p Hp point_list Hall)
    as (s1 & d1 & Hs1 & Hd1 & Ht1 & ->).
  destruct (int_truediv_le_ok s1 (s1 + d1)) as (f & Hf); try lia.
  assert (H53 : 20 < 2 ^ 53) by (vm_compute; reflexivity).
  destruct (int_truediv_unit s1 (s1 + d1) f) as [H0 H1]; try lia; [exact Hf|].
  exists f. rewrite Hf. cbn [rbind ok]. auto.
Qed.

(** X5. A rate that is not [<= 1] (a number above 1, or NaN) can never be
    met: whatever the images, the call returns [False]. *)
Theorem rate_above_one_never_matches small big rate tape n :
  1 <= width small -> 1 <= height small ->
  num_le rate (PyInt 1) = false ->
  fst (run_rand (image_center_by_rgb small big rate) tape n) = ok (PyBool false).
Proof.
  intros Hw Hh Hrate.
  destruct (RegionMatcher.matcher_result small big rate tape n Hw Hh)
    as (pts & n' & _ & Hvalid & ->).
  cbn [fst].
  assert (Hnone : find (accepts small big pts rate) (candidates small big) = None).
  { apply none_accepted_spec. intros r Hr. unfold accepts.
    destruct (pre_random_match_quotient small big rate r pts Hw Hh Hr Hvalid)
      as (f & _ & H1 & ->).
    unfold num_ge. destruct (num_le rate (PyFloat f)) eqn:E; [|reflexivity].
    rewrite (num_le_trans _ _ _ E H1) in Hrate. discriminate. }
  rewrite Hnone. reflexivity.
Qed.

Lemma rate_above_one_never_matches_witness :
  fst (run_rand (image_center_by_rgb Examples.template Examples.screen_a
                   (PyFloat Examples.f_two)) Examples.tape 0) = ok (PyBool false).
Proof.
  apply (rate_above_one_never_matches Examples.template Examples.screen_a
           (PyFloat Examples.f_two) Examples.tape 0).
  - vm_compute. discriminate.
  - vm_compute. discriminate.
  - vm_compute. reflexivity.
Defined.

(** X6. A rate [<= 0] is met by every placement: when the candidate range
    is not empty, the call returns the center of the placement [(0, 0)],
    whatever the pixels are. *)
Theorem rate_zero_matches_first small big rate tape n :
  1 <= width small -> 1 <= height small -> pil_sized big ->
  width small < width big -> height small < height big ->
  num_le rate (PyInt 0) = true ->
  fst (run_rand (image_center_by_rgb small big rate) tape n)
  = ok (PyPoint (width small / 2) (height small / 2)).
Proof.
  intros Hw Hh Hbig Hbw Hbh Hrate.
  destruct (RegionMatcher.matcher_result small big rate tape n Hw Hh)
    as (pts & n' & _ & Hvalid & ->).
  cbn [fst].
  assert (H00 : in_range small big (0, 0)) by (split; cbn [fst snd]; lia).
  assert (Hacc : accepts small big pts rate (0, 0) = true).
  { unfold accepts.
    destruct (pre_random_match_quotient small big rate (0, 0) pts Hw Hh H00 Hvalid)
      as (f & H0 & _ & ->).
    unfold num_ge. rewrite (num_le_trans _ _ _ Hrate H0).
    destruct (check_match_counts small big rate Hw Hh (0, 0) H00)
      as (s2 & d2 & Hs2 & Hd2 & Ht2 & ->).
    destruct (int_truediv_le_ok s2 (s2 + d2)) as (f2 & Hf2); try nia.
    rewrite Hf2. cbn [rbind ok].
    assert (H02 : num_le (PyInt 0) (PyFloat f2) = true).
    { destruct (int_truediv_nonneg s2 (s2 + d2) f2) as [-> | (m & e & ->)];
        try nia; auto.
      unfold num_le. cbn [num_val float_val ext_leb]. apply Z.leb_le.
      rewrite Z.mul_0_l. apply Z.mul_nonneg_nonneg; [lia|]. apply Z.pow_nonneg. lia. }
    unfold num_ge. rewrite (num_le_trans _ _ _ Hrate H02). reflexivity. }
  rewrite (first_accepted_found small big pts rate (0, 0) H00 Hacc).
  - rewrite (centers_exact small big (0, 0) Hw Hh Hbig H00). reflexivity.
  - intros r [Hx Hy] Hb. unfold before in Hb. cbn [fst snd] in Hb. lia.
Qed.

Lemma rate_zero_matches_first_witness :
  fst (run_rand (image_center_by_rgb Examples.template Examples.screen_edge (PyInt 0))
         Examples.tape 0)
  = ok (PyPoint (width Examples.template / 2) (height Examples.template / 2)).
Proof.
  apply (rate_zero_matches_first Examples.template Examples.screen_edge (PyInt 0)
           Examples.tape 0).
  - vm_compute. discriminate.
  - vm_compute. discriminate.
  - split; split; vm_compute; congruence.
  - vm_compute. reflexivity.
  - vm_compute. reflexivity.
  - vm_compute. reflexivity.
Defined.

(** X7. At rate [1.0] the full comparison returns [True] exactly on a
    pixel-identical region, and [False] on any other (for a template of
    fewer than [2^53] pixels). *)
Theorem check_match_exact small big p :
  1 <= width small -> 1 <= height small ->
  width small * height small < 2 ^ 53 ->
  in_range small big p ->
  (identical_at small big p ->
   _check_match (fst p) (snd p) small (load big) (load small) (PyFloat f_one) = ok true)
  /\ (~ identical_at small big p ->
      _check_match (fst p) (snd p) small (load big) (load small) (PyFloat f_one) = ok false).
Proof.
  intros Hw Hh Harea Hp.
  destruct (check_match_diff small big (PyFloat f_one) Hw Hh p Hp)
    as (same & diff & Hs & Hd & Hsum & Hiff & ->).
  split.
  - intros Hid. apply Hiff in Hid. subst diff.
    rewrite Z.add_0_r, int_truediv_self by nia. reflexivity.
  - intros Hnid.
    assert (diff <> 0) by (intros Hz; apply Hnid, Hiff, Hz).
    destruct (int_truediv_below_one same (same + diff)) as (f & -> & Hlt); try lia.
    cbn [rbind ok]. unfold num_ge. rewrite Hlt. reflexivity.
Qed.

Lemma check_match_exact_witness :
  (identical_at Examples.template Examples.screen_a (0, 0) ->
   _check_match 0 0 Examples.template (load Examples.screen_a) (load Examples.template)
     (PyFloat f_one) = ok true)
  /\ (~ identical_at Examples.template Examples.screen_a (0, 0) ->
      _check_match 0 0 Examples.template (load Examples.screen_a) (load Examples.template)
        (PyFloat f_one) = ok false).
Proof.
  apply (check_match_exact Examples.template Examples.screen_a (0, 0)).
  - vm_compute. discriminate.
  - vm_compute. discriminate.
  - vm_compute. reflexivity.
  - split; split; vm_compute; congruence.
Defined.

End MatcherRates.

(** * What every run of a program does *)

Module Logic.

Section Rules.

Context {E : Type -> Type}.
Variables (P : obs E -> Prop) (f : obs E -> bool).

Lemma meets_exec {A} (p : prog E A) : forall k (Q : res A -> Prop),
  meets P f k Q p ->
  forall w n,
    Q (fst (exec p w n)) /\ Forall P (snd (exec p w n))
    /\ (count f (snd (exec p w n)) <= k)%nat.
Proof.
  induction p as [a|e|X ev kont IH]; intros k Q H w n; cbn [meets exec] in *.
  - cbn. auto with arith.
  - cbn. auto with arith.
  - destruct H as (HP & Hk & Hrest).
    specialize (IH (w X n ev) _ Q (Hrest (w X n ev)) w (S n)).
    destruct (exec (kont (w X n ev)) w (S n)) as [r tr]. cbn [fst snd] in *.
    destruct IH as (HQ & HF & Hc). split; [exact HQ|]. split; [constructor; assumption|].
    unfold count in *. cbn [filter]. destruct (f (Obs ev)); cbn [List.length].
    + specialize (Hk eq_refl). lia.
    + exact Hc.
Qed.

Lemma meets_weaken {A} (p : prog E A) : forall k k' (Q Q' : res A -> Prop),
  meets P f k Q p -> (k <= k')%nat -> (forall r, Q r -> Q' r) -> meets P f k' Q' p.
Proof.
  induction p as [a|e|X ev kont IH]; intros k k' Q Q' H Hk HQ; cbn [meets] in *.
  - auto.
  - auto.
  - destruct H as (HP & Hf & Hrest). split; [exact HP|]. split.
    + intros Ht. specialize (Hf Ht). lia.
    + intros x. eapply IH; [apply Hrest| |exact HQ].
      destruct (f (Obs ev)); lia.
Qed.

Lemma meets_bind {A B} (p : prog E A) (q : A -> prog E B) : forall k1 k2 Q1 (Q : res B -> Prop),
  meets P f k1 Q1 p ->
  (forall a, Q1 (ok a) -> meets P f k2 Q (q a)) ->
  (forall e, Q1 (throw e) -> Q (throw e)) ->
  meets P f (k1 + k2) Q (pbind p q).
Proof.
  induction p as [a|e|X ev kont IH]; intros k1 k2 Q1 Q H Hq He; cbn [meets pbind] in *.
  - eapply meets_weaken; [apply Hq; exact H|lia|auto].
  - apply He. exact H.
  - destruct H as (HP & Hf & Hrest). split; [exact HP|]. split.
    + intros Ht. specialize (Hf Ht). lia.
    + intros x. destruct (f (Obs ev)) eqn:Ef.
      * specialize (Hf eq_refl).
        replace (k1 + k2 - 1)%nat with ((k1 - 1) + k2)%nat by lia.
        eapply IH; eauto.
      * eapply IH; eauto.
Qed.

Lemma meets_lift {A} (c : res A) k (Q : res A -> Prop) : Q c -> meets P f k Q (lift c).
Proof. destruct c; cbn; auto. Qed.

Lemma meets_pexcept {A} (cls : exn -> bool) (p : prog E A) (h : exn -> prog E A) :
  forall k1 k2 Q1 (Q : res A -> Prop),
  meets P f k1 Q1 p ->
  (forall a, Q1 (ok a) -> Q (ok a)) ->
  (forall e, Q1 (throw e) -> cls e = true -> meets P f k2 Q (h e)) ->
  (forall e, Q1 (throw e) -> cls e = false -> Q (throw e)) ->
  meets P f (k1 + k2) Q (pexcept cls p h).
Proof.
  induction p as [a|e|X ev kont IH]; intros k1 k2 Q1 Q H Ha He Hn;
    cbn [meets pexcept] in *.
  - auto.
  - destruct (cls e) eqn:Ec.
    + eapply meets_weaken; [exact (He e H Ec)|lia|auto].
    + exact (Hn e H Ec).
  - destruct H as (HP & Hf & Hrest). split; [exact HP|]. split.
    + intros Ht. specialize (Hf Ht). lia.
    + intros x. destruct (f (Obs ev)) eqn:Ef.
      * specialize (Hf eq_refl).
        replace (k1 + k2 - 1)%nat with ((k1 - 1) + k2)%nat by lia.
        eapply IH; eauto.
      * eapply IH; eauto.
Qed.

(** A loop: each pass within [k], so all passes within [length l * k]. *)
Lemma meets_pfor_ctl {X R} (l : list X) (body : X -> prog E (ctl R)) k Qb
    (Q : res (option R) -> Prop) :
  (forall x, In x l -> meets P f k Qb (body x)) ->
  Q (ok None) ->
  (forall v, Qb (ok (Return v)) -> Q (ok (Some v))) ->
  (forall e, Qb (throw e) -> Q (throw e)) ->
  meets P f (List.length l * k) Q (pfor_ctl l body).
Proof.
  intros Hbody HN HR HE. induction l as [|x l IH]; cbn [pfor_ctl List.length].
  - exact HN.
  - replace (S (List.length l) * k)%nat with (k + List.length l * k)%nat by lia.
    eapply meets_bind.
    + apply Hbody. left. reflexivity.
    + intros [| |v] Hc.
      * apply IH. intros y Hy. apply Hbody. right. exact Hy.
      * exact HN.
      * apply HR. exact Hc.
    + exact HE.
Qed.

(** A loop whose passes never ask for the next one runs at most once. *)
Lemma meets_pfor_ctl_once {X R} (l : list X) (body : X -> prog E (ctl R)) k Qb
    (Q : res (option R) -> Prop) :
  (forall x, In x l -> meets P f k Qb (body x)) ->
  ~ Qb (ok Next) ->
  Q (ok None) ->
  (forall v, Qb (ok (Return v)) -> Q (ok (Some v))) ->
  (forall e, Qb (throw e) -> Q (throw e)) ->
  meets P f k Q (pfor_ctl l body).
Proof.
  intros Hbody HNext HN HR HE. destruct l as [|x l]; cbn [pfor_ctl].
  - exact HN.
  - replace k with (k + 0)%nat by lia. eapply meets_bind.
    + apply Hbody. left. reflexivity.
    + intros [| |v] Hc; cbn [meets]; auto. contradiction.
    + exact HE.
Qed.

End Rules.

Section Equal.

Context {E : Type -> Type}.

Lemma prog_eq_refl {A} (p : prog E A) : prog_eq p p.
Proof. induction p; constructor; auto. Qed.

Lemma prog_eq_exec {A} (p q : prog E A) :
  prog_eq p q -> forall w n, exec p w n = exec q w n.
Proof.
  induction 1 as [a|e|X ev k k' _ IH]; intros w n; cbn [exec]; [reflexivity..|].
  rewrite IH. reflexivity.
Qed.

Lemma prog_eq_bind {A B} (p p' : prog E A) (q q' : A -> prog E B) :
  prog_eq p p' -> (forall a, prog_eq (q a) (q' a)) ->
  prog_eq (pbind p q) (pbind p' q').
Proof.
  induction 1 as [a|e|X ev k k' _ IH]; intros Hq; cbn [pbind].
  - apply Hq.
  - constructor.
  - constructor. intros x. apply IH. exact Hq.
Qed.

(** After the same first step, the continuations need only agree on the
    values that step can produce. *)
Lemma prog_eq_bind_post {A B} P f k (Q : res A -> Prop) (p : prog E A)
    (q q' : A -> prog E B) :
  meets P f k Q p -> (forall a, Q (ok a) -> prog_eq (q a) (q' a)) ->
  prog_eq (pbind p q) (pbind p q').
Proof.
  revert k. induction p as [a|e|X ev kont IH]; intros k Hp Hq; cbn [pbind meets] in *.
  - apply Hq. exact Hp.
  - constructor.
  - constructor. intros x. destruct Hp as (_ & _ & Hk). eapply IH; [apply Hk|exact Hq].
Qed.

End Equal.

Section MoreRules.
Context {E : Type -> Type}.
Variables (P : obs E -> Prop) (f : obs E -> bool).

(** A sequence whose calls of the kind [f] are all in its first step. *)
Lemma meets_bind_l {A B} (p : prog E A) (q : A -> prog E B) k Q1 (Q : res B -> Prop) :
  meets P f k Q1 p ->
  (forall a, Q1 (ok a) -> meets P f 0 Q (q a)) ->
  (forall e, Q1 (throw e) -> Q (throw e)) ->
  meets P f k Q (pbind p q).
Proof.
  intros Hp Hq He. eapply meets_weaken with (k := (k + 0)%nat) (Q := Q); [|lia|auto].
  eapply meets_bind; eauto.
Qed.

Lemma meets_reraise {A} cls (p : prog E A) k (Q : res A -> Prop) :
  meets P f k Q p -> meets P f k Q (pexcept cls p (fun exc => Raise exc)).
Proof.
  intros Hp. eapply meets_weaken with (k := (k + 0)%nat) (Q := Q); [|lia|auto].
  eapply meets_pexcept with (Q1 := Q); eauto.
Qed.

(** A call that is not of the kind [f]. *)
Lemma meets_vis_free {X A} (ev : E X) (kont : X -> prog E A) k (Q : res A -> Prop) :
  P (Obs ev) -> f (Obs ev) = false ->
  (forall x, meets P f k Q (kont x)) ->
  meets P f k Q (Vis ev kont).
Proof.
  intros HP Hf Hk. cbn [meets]. rewrite Hf. split; [exact HP|].
  split; [discriminate|]. exact Hk.
Qed.

End MoreRules.

(** What holds of every program. *)
Lemma meets_any {E A} (p : prog E A) :
  meets (fun _ => True) (fun _ => false) 0 (fun _ => True) p.
Proof.
  induction p as [a|e|X ev k IH]; cbn [meets]; [exact I..|].
  split; [exact I|]. split; [discriminate|]. exact IH.
Qed.

End Logic.

(** * The service calls of [ImageCenter], in every environment *)

Module ObservedFacts.
Import PyNum ImageCenter Polling Observed Logic.
Local Open Scope string_scope.

Lemma run_exec {A} (p : prog ioE A) (w : world) : forall n,
  run p w n = (fst (exec p w n), map to_event (snd (exec p w n))).
Proof.
  induction p as [a|e|X ev k IH]; intros n; cbn [run exec].
  - reflexivity.
  - reflexivity.
  - rewrite IH. destruct (exec (k (w X n ev)) w (S n)). reflexivity.
Qed.

Lemma filter_to_event (g : event -> bool) tr :
  List.length (filter g (map to_event tr)) = count (fun c => g (to_event c)) tr.
Proof.
  unfold count. induction tr as [|c tr IH]; cbn [map filter]; [reflexivity|].
  destruct (g (to_event c)); cbn [List.length]; congruence.
Qed.

(** What [meets] says about a run of [ImageCenter.run]. *)
Lemma meets_run {A} (P : event -> Prop) (g : event -> bool) k (Q : res A -> Prop)
    (p : prog ioE A) (w : world) n :
  meets (fun c => P (to_event c)) (fun c => g (to_event c)) k Q p ->
  Q (fst (run p w n)) /\ Forall P (snd (run p w n))
  /\ (List.length (filter g (snd (run p w n))) <= k)%nat.
Proof.
  intros H. rewrite run_exec. cbn [fst snd].
  destruct (meets_exec _ _ p k Q H w n) as (HQ & HF & Hc).
  split; [exact HQ|]. split.
  - apply Forall_map. exact HF.
  - rewrite filter_to_event. exact Hc.
Qed.

(** Walk through every path of a program without loops. *)
Ltac walk leaf :=
  repeat first
    [ progress cbn [meets pbind pexcept lift call ok throw to_event is_match is_capture is_upload
                    Nat.sub]
    | match goal with
      | |- _ /\ _ => split
      | |- forall _, _ => intro
      | |- meets _ _ _ _ ?p =>
          match p with
          | context [lift ?x] => destruct x
          | context [match ?x with _ => _ end] => is_var x; destruct x
          | context [if ?b then _ else _] => destruct b
          end
      end
    | leaf ].

(** Cut a sequence at its first step, which gets the budget [k1]. *)
Ltac first_step k1 :=
  eapply (meets_bind _ _ _ _ k1 _ (fun _ => True)); [ | intros ? _ | intros; exact I].

Ltac easy_leaf := first [exact I | discriminate | lia].

(** One call of [_match_image_by_opencv] asks the service at most once,
    whatever [network_retry] is. *)
Lemma match_once conf image_path rate multiple picture_abspath screen_bbox log_level
    network_retry :
  meets (fun _ => True) (fun c => is_match (to_event c)) 1 (fun _ => True)
    (_match_image_by_opencv conf image_path rate multiple picture_abspath screen_bbox
       log_level network_retry).
Proof.
  unfold _match_image_by_opencv.
  first_step 0%nat; [walk easy_leaf|].
  first_step 0%nat; [walk easy_leaf|].
  first_step 0%nat; [walk easy_leaf|].
  first_step 0%nat; [walk easy_leaf|].
  destruct (range (network_retry + 1)) as [|x l]; cbn [pfor_ctl]; walk easy_leaf.
Qed.

(** It captures the screen at most once, and not at all when a reference
    picture is given. *)
Lemma match_captures conf image_path rate multiple picture_abspath screen_bbox log_level
    network_retry :
  meets (fun _ => True) (fun c => is_capture (to_event c))
    (match picture_abspath with Some (String _ _) => 0 | _ => 1 end)%nat (fun _ => True)
    (_match_image_by_opencv conf image_path rate multiple picture_abspath screen_bbox
       log_level network_retry).
Proof.
  unfold _match_image_by_opencv.
  destruct picture_abspath as [[|c p]|].
  - first_step 0%nat; [walk easy_leaf|].
    eapply (meets_bind _ _ _ _ 1 0 (fun _ => True)); [ | intros ? _ | intros; exact I].
    { walk easy_leaf. }
    first_step 0%nat; [walk easy_leaf|].
    first_step 0%nat; [walk easy_leaf|].
    destruct (range (network_retry + 1)) as [|x l]; cbn [pfor_ctl]; walk easy_leaf.
  - first_step 0%nat; [walk easy_leaf|].
    first_step 0%nat; [walk easy_leaf|].
    first_step 0%nat; [walk easy_leaf|].
    first_step 0%nat; [walk easy_leaf|].
    destruct (range (network_retry + 1)) as [|x l]; cbn [pfor_ctl]; walk easy_leaf.
  - first_step 0%nat; [walk easy_leaf|].
    eapply (meets_bind _ _ _ _ 1 0 (fun _ => True)); [ | intros ? _ | intros; exact I].
    { walk easy_leaf. }
    first_step 0%nat; [walk easy_leaf|].
    first_step 0%nat; [walk easy_leaf|].
    destruct (range (network_retry + 1)) as [|x l]; cbn [pfor_ctl]; walk easy_leaf.
Qed.

(** Every request to the service carries the rate and the flag of the
    call. *)
Lemma match_forwards conf image_path rate multiple picture_abspath screen_bbox log_level
    network_retry :
  meets (fun c => forwards rate multiple (to_event c)) (fun _ => false) 0 (fun _ => True)
    (_match_image_by_opencv conf image_path (Some rate) multiple picture_abspath screen_bbox
       log_level network_retry).
Proof.
  unfold _match_image_by_opencv.
  eapply (meets_bind _ _ _ _ 0 _ (fun r => r = ok rate));
    [reflexivity | intros a Ha; injection Ha as -> | intros e He; discriminate].
  first_step 0%nat; [walk easy_leaf|].
  first_step 0%nat; [walk easy_leaf|].
  first_step 0%nat; [walk easy_leaf|].
  destruct (range (network_retry + 1)) as [|x l]; cbn [pfor_ctl];
    walk ltac:(first [exact I | discriminate | lia | cbn [forwards]; auto; fail]).
Qed.

(** It uploads at most two pictures, whatever [network_retry] is. *)
Lemma match_uploads conf image_path rate multiple picture_abspath screen_bbox log_level
    network_retry :
  meets (fun _ => True) (fun c => is_upload (to_event c)) 2 (fun _ => True)
    (_match_image_by_opencv conf image_path rate multiple picture_abspath screen_bbox
       log_level network_retry).
Proof.
  unfold _match_image_by_opencv.
  first_step 0%nat; [walk easy_leaf|].
  first_step 0%nat; [walk easy_leaf|].
  first_step 0%nat; [walk easy_leaf|].
  first_step 0%nat; [walk easy_leaf|].
  destruct (range (network_retry + 1)) as [|x l]; cbn [pfor_ctl]; walk easy_leaf.
Qed.

(** With no pass through the retry loop the service is not reached, and
    the only value the call can return is [None]. *)
Lemma match_no_pass conf image_path rate multiple picture_abspath screen_bbox log_level
    network_retry :
  network_retry + 1 <= 0 ->
  meets (fun c => is_server (to_event c) = false) (fun _ => false) 0
    (fun r => forall v, r = ok v -> v = PyNone)
    (_match_image_by_opencv conf image_path rate multiple picture_abspath screen_bbox
       log_level network_retry).
Proof.
  intros Hn. unfold _match_image_by_opencv. rewrite (range_nil _ Hn). cbn [pfor_ctl].
  eapply (meets_bind _ _ _ _ 0 _ (fun _ => True));
    [walk easy_leaf | intros ? _ | discriminate].
  eapply (meets_bind _ _ _ _ 0 _ (fun _ => True));
    [walk ltac:(first [exact I | discriminate | lia | reflexivity])
    | intros ? _ | discriminate].
  eapply (meets_bind _ _ _ _ 0 _ (fun _ => True));
    [walk ltac:(first [exact I | discriminate | lia | reflexivity])
    | intros ? _ | discriminate].
  eapply (meets_bind _ _ _ _ 0 _ (fun _ => True));
    [walk ltac:(first [exact I | discriminate | lia | reflexivity])
    | intros ? _ | discriminate].
  walk ltac:(first [discriminate | lia | reflexivity
                    | unfold ok, throw in *; congruence]).
Qed.

End ObservedFacts.

Module FindImageFacts.
Import PyNum ImageCenter Polling Observed Logic ObservedFacts.
Local Open Scope string_scope.

Section FindImage.

Variables (P : event -> Prop) (g : event -> bool) (ka K : nat) (Qa : res pyval -> Prop).
Variables (conf : Conf) (widget : list string) (rate : option num) (multiple : bool)
  (picture_abspath : option string) (screen_bbox : option (list Z))
  (log_level : string) (network_retry : option Z)
  (pause timeout max_match_number : option num).

Hypothesis Hbudget : forall retry_number,
  to_int (num_or max_match_number (MAX_MATCH_NUMBER conf)) = ok retry_number ->
  (List.length widget * (List.length (range (retry_number + 1)) * ka) <= K)%nat.
Hypothesis Hmatch : forall element rate',
  effective_rate conf rate = ok rate' ->
  meets (fun c => P (to_event c)) (fun c => g (to_event c)) ka Qa
    (_match_image_by_opencv conf element (Some rate') multiple picture_abspath
       screen_bbox log_level (int_or network_retry (NETWORK_RETRY conf))).
Hypothesis Htime : P (Event TimeTime) /\ g (Event TimeTime) = false.
Hypothesis Hsleep : forall secs, P (Event (TimeSleep secs)) /\ g (Event (TimeSleep secs)) = false.

(** The search as a whole, from one attempt: every call satisfies [P], the
    calls of the kind [g] are at most [ka] per attempt, and a returned value
    is a truthy value that an attempt returned. *)
Lemma find_image_meets :
  meets (fun c => P (to_event c)) (fun c => g (to_event c)) K
    (fun r => forall v, r = ok v -> truthy v = true /\ Qa (ok v))
    (find_image conf widget rate multiple picture_abspath screen_bbox log_level
       network_retry pause timeout max_match_number).
Proof.
  destruct Htime as [HPt Hgt].
  unfold find_image.
  destruct (to_int (num_or max_match_number (MAX_MATCH_NUMBER conf)))
    as [e|retry_number] eqn:Hretry; cbn [lift ok pbind]; [cbn; discriminate|].
  destruct (retry_number <? 0)%Z; [cbn; discriminate|].
  eapply meets_weaken; [|apply (Hbudget retry_number eq_refl)|intros r Hr; exact Hr].
  assert (Hr : exists r0 : res num,
             (match rate with
              | None => (f <- lift (to_float (IMAGE_RATE conf)) ;; Ret (PyFloat f))%prog
              | Some r => Ret r
              end : prog ioE num) = lift r0 /\ effective_rate conf rate = r0).
  { unfold effective_rate. destruct rate as [r|].
    - exists (ok r). split; reflexivity.
    - destruct (to_float (IMAGE_RATE conf)) as [e|f]; cbn [rbind ok lift pbind].
      + exists (throw e). split; reflexivity.
      + exists (ok (PyFloat f)). split; reflexivity. }
  destruct Hr as (r0 & -> & Hrate). destruct r0 as [e|rate'];
    cbn [lift pbind]; [cbn; discriminate|].
  apply meets_reraise.
  eapply meets_bind_l
    with (Q1 := fun r => forall v, r = ok (Some v) -> truthy v = true /\ Qa (ok v)).
  - eapply meets_pfor_ctl
      with (Qb := fun r => forall v, r = ok (Return v) -> truthy v = true /\ Qa (ok v)).
    + intros element _. apply meets_vis_free; [exact HPt|exact Hgt|].
      intros start_time.
      eapply meets_bind_l
        with (Q1 := fun r => forall v, r = ok (Some v) -> truthy v = true /\ Qa (ok v)).
      * eapply meets_pfor_ctl
          with (Qb := fun r => forall v, r = ok (Return v) -> truthy v = true /\ Qa (ok v)).
        -- intros _ _. eapply meets_bind_l with (Q1 := Qa).
           ++ apply Hmatch. exact Hrate.
           ++ intros locate HQ. destruct (truthy locate) eqn:Ht; cbn [negb].
              ** cbn [meets]. intros v Hv. injection Hv as <-. split; assumption.
              ** destruct (to_int (num_or pause (PAUSE conf))) as [e|secs];
                   cbn [lift pbind meets]; [discriminate|].
                 unfold sleep. destruct (secs <? 0)%Z; cbn [pbind];
                   [cbn [meets]; discriminate|].
                 destruct (Hsleep secs) as [HPs Hgs].
                 apply meets_vis_free; [exact HPs|exact Hgs|]. intros _.
                 apply meets_vis_free; [exact HPt|exact Hgt|]. intros end_time.
                 destruct (num_gt _ _); cbn [meets]; discriminate.
           ++ discriminate.
        -- discriminate.
        -- intros v Hv w Hw. injection Hw as <-. apply Hv. reflexivity.
        -- discriminate.
      * intros [locate|] Hl; cbn [meets].
        -- intros v Hv. injection Hv as <-. apply Hl. reflexivity.
        -- discriminate.
      * discriminate.
    + discriminate.
    + intros v Hv w Hw. injection Hw as <-. apply Hv. reflexivity.
    + discriminate.
  - intros [locate|] Hl; cbn [meets].
    + intros v Hv. injection Hv as <-. apply Hl. reflexivity.
    + discriminate.
  - discriminate.
Qed.

(** The same, about the runs. *)
Lemma find_image_run w n :
  let r := run (find_image conf widget rate multiple picture_abspath screen_bbox log_level
                  network_retry pause timeout max_match_number) w n in
  (forall v, fst r = ok v -> truthy v = true /\ Qa (ok v))
  /\ Forall P (snd r) /\ (List.length (filter g (snd r)) <= K)%nat.
Proof.
  cbv zeta.
  exact (meets_run P g K (fun r => forall v, r = ok v -> truthy v = true /\ Qa (ok v))
           _ w n find_image_meets).
Qed.

End FindImage.

End FindImageFacts.

Module ServiceCalls.
Import PyNum ImageCenter Polling PollingFacts Observed Logic ObservedFacts FindImageFacts.
Local Open Scope string_scope.

(** X8. One call of [_match_image_by_opencv] goes through its retry loop
    at most once: in every environment it asks the matching service at most
    once, uploads at most two pictures and captures the screen at most once,
    whatever [network_retry] is. *)
Theorem match_single_pass conf image_path rate multiple picture_abspath screen_bbox
    log_level network_retry w n :
  let tr := snd (run (_match_image_by_opencv conf image_path rate multiple picture_abspath
                        screen_bbox log_level network_retry) w n) in
  (match_attempts tr <= 1)%nat /\ (uploads tr <= 2)%nat /\ (captures tr <= 1)%nat.
Proof.
  cbv zeta. split; [|split].
  - apply (meets_run (fun _ => True) is_match 1 (fun _ => True)). apply match_once.
  - apply (meets_run (fun _ => True) is_upload 2 (fun _ => True)). apply match_uploads.
  - pose proof (meets_run (fun _ => True) is_capture _ (fun _ => True) _ w n
                  (match_captures conf image_path rate multiple picture_abspath
                     screen_bbox log_level network_retry)) as (_ & _ & H).
    unfold captures. destruct picture_abspath as [[|c p]|]; lia.
Qed.

(** X9. With a reference picture (a non-empty [picture_abspath]) the
    screen is never captured: neither by one matching call nor by a whole
    search, in any environment. *)
Theorem reference_picture_no_capture conf widget image_path rate rate0 multiple p
    screen_bbox log_level network_retry network_retry0 pause timeout max_match_number w n :
  p <> "" ->
  captures (snd (run (_match_image_by_opencv conf image_path rate0 multiple (Some p)
                        screen_bbox log_level network_retry0) w n)) = 0%nat
  /\ captures (snd (run (find_image conf widget rate multiple (Some p) screen_bbox
                           log_level network_retry pause timeout max_match_number) w n))
     = 0%nat.
Proof.
  intros Hp. destruct p as [|c p]; [contradiction|]. unfold captures. split.
  - pose proof (meets_run (fun _ => True) is_capture _ (fun _ => True) _ w n
                  (match_captures conf image_path rate0 multiple (Some (String c p))
                     screen_bbox log_level network_retry0)) as (_ & _ & H).
    cbn beta iota in H. lia.
  - assert (H : (List.length
                   (filter is_capture
                      (snd (run (find_image conf widget rate multiple (Some (String c p))
                                   screen_bbox log_level network_retry pause timeout
                                   max_match_number) w n))) <= 0)%nat).
    { apply (find_image_run (fun _ => True) is_capture 0 0 (fun _ => True)).
      - intros. lia.
      - intros element rate' _.
        exact (match_captures conf element (Some rate') multiple (Some (String c p))
                 screen_bbox log_level _).
      - split; reflexivity.
      - split; reflexivity. }
    lia.
Qed.

Lemma reference_picture_no_capture_witness :
  captures (snd (run (_match_image_by_opencv Examples.conf "a.png" None false
                        (Some "/tmp/big.png") None "info" 1) Examples.quiet 0)) = 0%nat
  /\ captures (snd (run (find_image Examples.conf ["a.png"; "b"] None false
                           (Some "/tmp/big.png") None "info" None None None None)
                      Examples.quiet 0))
     = 0%nat.
Proof.
  apply (reference_picture_no_capture Examples.conf ["a.png"; "b"] "a.png" None None false
           "/tmp/big.png" None "info" None 1 None None None Examples.quiet 0).
  discriminate.
Defined.

(** X10. A search makes at most [retry_number + 1] attempts per template:
    in any environment the number of requests to the service and the number
    of screen captures are at most [len(widget) * (retry_number + 1)], and
    the number of uploads at most twice that. *)
Theorem find_image_attempt_bound conf widget rate multiple picture_abspath screen_bbox
    log_level network_retry pause timeout max_match_number w n retry_number :
  to_int (num_or max_match_number (MAX_MATCH_NUMBER conf)) = ok retry_number ->
  let tr := snd (run (find_image conf widget rate multiple picture_abspath screen_bbox
                        log_level network_retry pause timeout max_match_number) w n) in
  let limit := (List.length widget * Z.to_nat (retry_number + 1))%nat in
  (match_attempts tr <= limit)%nat /\ (captures tr <= limit)%nat
  /\ (uploads tr <= 2 * limit)%nat.
Proof.
  intros Hretry. cbv zeta.
  assert (Hlen : forall r, to_int (num_or max_match_number (MAX_MATCH_NUMBER conf)) = ok r ->
                 List.length (range (r + 1)) = Z.to_nat (retry_number + 1)).
  { intros r Hr. rewrite Hretry in Hr. injection Hr as <-.
    unfold range. rewrite length_map, length_seq. reflexivity. }
  assert (H : forall g ka,
            (forall element rate',
               meets (fun _ => True) (fun c => g (to_event c)) ka (fun _ => True)
                 (_match_image_by_opencv conf element (Some rate') multiple picture_abspath
                    screen_bbox log_level (int_or network_retry (NETWORK_RETRY conf)))) ->
            g (Event TimeTime) = false ->
            (forall secs, g (Event (TimeSleep secs)) = false) ->
            (List.length
               (filter g (snd (run (find_image conf widget rate multiple picture_abspath
                                      screen_bbox log_level network_retry pause timeout
                                      max_match_number) w n)))
             <= List.length widget * (Z.to_nat (retry_number + 1) * ka))%nat).
  { intros g ka Hm Ht Hs.
    apply (find_image_run (fun _ => True) g ka _ (fun _ => True)).
    - intros r Hr. rewrite (Hlen r Hr). lia.
    - intros element rate' _. apply Hm.
    - split; [exact I|exact Ht].
    - intros secs. split; [exact I|apply Hs]. }
  split; [|split].
  - pose proof (H is_match 1%nat) as H1. unfold match_attempts.
    etransitivity; [apply H1|].
    + intros. apply match_once.
    + reflexivity.
    + reflexivity.
    + lia.
  - pose proof (H is_capture 1%nat) as H1. unfold captures.
    etransitivity; [apply H1|].
    + intros. eapply meets_weaken; [apply match_captures| |auto].
      destruct picture_abspath as [[|c p]|]; lia.
    + reflexivity.
    + reflexivity.
    + lia.
  - pose proof (H is_upload 2%nat) as H1. unfold uploads.
    etransitivity; [apply H1|].
    + intros. apply match_uploads.
    + reflexivity.
    + reflexivity.
    + lia.
Qed.

Lemma find_image_attempt_bound_witness :
  let tr := snd (run (find_image Examples.conf ["a.png"; "b"] None false None None "info"
                        None None None None) Worlds.found 0) in
  let limit := (List.length ["a.png"; "b"] * Z.to_nat (2 + 1))%nat in
  (match_attempts tr <= limit)%nat /\ (captures tr <= limit)%nat
  /\ (uploads tr <= 2 * limit)%nat.
Proof.
  apply (find_image_attempt_bound Examples.conf ["a.png"; "b"] None false None None "info"
           None None None None Worlds.found 0 2).
  reflexivity.
Defined.

(** X11. Every request a search sends to the matching service carries the
    effective rate (the caller's, or [float(conf.IMAGE_RATE)]) and the
    caller's [multiple] flag, on every attempt and for every template. *)
Theorem find_image_forwards conf widget rate multiple picture_abspath screen_bbox
    log_level network_retry pause timeout max_match_number w n rate' :
  effective_rate conf rate = ok rate' ->
  Forall (forwards rate' multiple)
    (snd (run (find_image conf widget rate multiple picture_abspath screen_bbox
                 log_level network_retry pause timeout max_match_number) w n)).
Proof.
  intros Hrate.
  apply (find_image_run (forwards rate' multiple) (fun _ => false) 0 0 (fun _ => True)).
  - intros. lia.
  - intros element rate'' Hr. rewrite Hrate in Hr. injection Hr as <-.
    apply match_forwards.
  - split; [exact I|reflexivity].
  - intros secs. split; [exact I|reflexivity].
Qed.

Lemma find_image_forwards_witness :
  Forall (forwards (PyFloat Examples.f_09) true)
    (snd (run (find_image Examples.conf ["a.png"; "b"] None true None None "info"
                 None None None None) Examples.quiet 0)).
Proof.
  apply (find_image_forwards Examples.conf ["a.png"; "b"] None true None None "info"
           None None None None Examples.quiet 0 (PyFloat Examples.f_09)).
  reflexivity.
Defined.

(** X12. A search never returns a falsy value: whatever the service
    answers, a value [find_image] returns is truthy (so never [None],
    [False] or an empty list). *)
Theorem find_image_returns_truthy conf widget rate multiple picture_abspath screen_bbox
    log_level network_retry pause timeout max_match_number w n v :
  fst (run (find_image conf widget rate multiple picture_abspath screen_bbox
              log_level network_retry pause timeout max_match_number) w n) = ok v ->
  truthy v = true.
Proof.
  intros Hv.
  apply (find_image_run (fun _ => True) (fun _ => false) 0 0 (fun _ => True)
           conf widget rate multiple picture_abspath screen_bbox log_level network_retry
           pause timeout max_match_number) with (w := w) (n := n) (v := v).
  - intros. lia.
  - intros element rate' _. apply meets_any.
  - split; [exact I|reflexivity].
  - intros secs. split; [exact I|reflexivity].
  - exact Hv.
Qed.

Lemma find_image_returns_truthy_witness :
  fst (run (find_image Examples.conf ["a.png"; "b"] None false None None "info" None None
              None None) Worlds.found 0) = ok (PyPoint 3 4)
  /\ truthy (PyPoint 3 4) = true.
Proof.
  assert (H : fst (run (find_image Examples.conf ["a.png"; "b"] None false None None
                          "info" None None None None) Worlds.found 0)
              = ok (PyPoint 3 4)) by (vm_compute; reflexivity).
  split; [exact H|].
  apply (find_image_returns_truthy Examples.conf ["a.png"; "b"] None false None None
           "info" None None None None Worlds.found 0 (PyPoint 3 4)).
  exact H.
Defined.

(** X13. With a negative [network_retry] the retry loop has no pass: a
    matching call then never reaches the service and can only return [None],
    and a search built on it never reaches the service either and never
    returns a value. *)
Theorem negative_network_retry conf widget image_path rate rate0 multiple picture_abspath
    screen_bbox log_level network_retry network_retry0 pause timeout max_match_number w n :
  int_or network_retry (NETWORK_RETRY conf) = network_retry0 ->
  network_retry0 + 1 <= 0 ->
  (let r := run (_match_image_by_opencv conf image_path rate0 multiple picture_abspath
                   screen_bbox log_level network_retry0) w n in
   Forall (fun e => is_server e = false) (snd r)
   /\ forall v, fst r = ok v -> v = PyNone)
  /\ (let r := run (find_image conf widget rate multiple picture_abspath screen_bbox
                      log_level network_retry pause timeout max_match_number) w n in
      Forall (fun e => is_server e = false) (snd r)
      /\ forall v, fst r <> ok v).
Proof.
  intros Hnr Hneg. cbv zeta. split.
  - pose proof (meets_run (fun e => is_server e = false) (fun _ => false) 0
                  (fun r => forall v, r = ok v -> v = PyNone) _ w n
                  (match_no_pass conf image_path rate0 multiple picture_abspath
                     screen_bbox log_level network_retry0 Hneg)) as (HQ & HF & _).
    split; assumption.
  - pose proof (find_image_run (fun e => is_server e = false) (fun _ => false) 0 0
                  (fun r => forall v, r = ok v -> v = PyNone)
                  conf widget rate multiple picture_abspath screen_bbox log_level
                  network_retry pause timeout max_match_number) as H.
    destruct (H ltac:(intros; lia)
                ltac:(intros element rate' _; rewrite Hnr; apply match_no_pass; exact Hneg)
                ltac:(split; reflexivity) ltac:(intros; split; reflexivity) w n)
      as (HQ & HF & _).
    split; [exact HF|]. intros v Hv. destruct (HQ v Hv) as [Ht Hnone].
    rewrite (Hnone v eq_refl) in Ht. discriminate.
Qed.

Lemma negative_network_retry_witness :
  (let r := run (_match_image_by_opencv Examples.conf "a.png" None false None
                   None "info" (-1)) Worlds.found 0 in
   Forall (fun e => is_server e = false) (snd r)
   /\ forall v, fst r = ok v -> v = PyNone)
  /\ (let r := run (find_image Examples.conf ["a.png"] None false None None
                      "info" (Some (-1)) None None None) Worlds.found 0 in
      Forall (fun e => is_server e = false) (snd r)
      /\ forall v, fst r <> ok v).
Proof.
  apply (negative_network_retry Examples.conf ["a.png"] "a.png" None None false None None
           "info" (Some (-1)) (-1) None None None Worlds.found 0).
  - reflexivity.
  - lia.
Defined.

Lemma range_first n : 0 <= n -> exists l, range (n + 1) = 0 :: l.
Proof.
  intros Hn. unfold range. replace (Z.to_nat (n + 1)) with (S (Z.to_nat n)) by lia.
  cbn [seq map]. eexists. reflexivity.
Qed.

(** X14. [network_retry] makes no difference unless it is negative: a pass
    through the retry loop always returns or raises, so with any two
    non-negative values the call makes the same external calls and ends in
    the same outcome, in every environment. *)
Theorem network_retry_ignored conf image_path rate multiple picture_abspath screen_bbox
    log_level network_retry network_retry' w n :
  0 <= network_retry -> 0 <= network_retry' ->
  run (_match_image_by_opencv conf image_path rate multiple picture_abspath screen_bbox
         log_level network_retry) w n
  = run (_match_image_by_opencv conf image_path rate multiple picture_abspath screen_bbox
           log_level network_retry') w n.
Proof.
  intros H1 H2.
  assert (He : prog_eq
            (_match_image_by_opencv conf image_path rate multiple picture_abspath
               screen_bbox log_level network_retry)
            (_match_image_by_opencv conf image_path rate multiple picture_abspath
               screen_bbox log_level network_retry')).
  { unfold _match_image_by_opencv.
    repeat (apply prog_eq_bind; [apply prog_eq_refl|intros ?]).
    destruct (_ =? _)%string; [constructor|].
    repeat (apply prog_eq_bind; [apply prog_eq_refl|intros ?]).
    apply prog_eq_bind; [|intros ?; apply prog_eq_refl].
    destruct (range_first network_retry H1) as [l ->].
    destruct (range_first network_retry' H2) as [l' ->].
    cbn [pfor_ctl].
    apply prog_eq_bind_post
      with (P := fun _ => True) (f := fun _ => false) (k := 0%nat)
           (Q := fun r => forall c, r = ok c -> exists v, c = Return v).
    - walk ltac:(first [exact I | discriminate | lia
                        | match goal with
                          | H : ok _ = ok _ |- _ =>
                              injection H as <-; eexists; reflexivity
                          end]).
    - intros c Hc. destruct (Hc c eq_refl) as [v ->]. apply prog_eq_refl. }
  rewrite !run_exec. rewrite (prog_eq_exec _ _ He). reflexivity.
Qed.

Lemma network_retry_ignored_witness :
  run (_match_image_by_opencv Examples.conf "a.png" None false None None "info" 0)
      Worlds.found 0
  = run (_match_image_by_opencv Examples.conf "a.png" None false None None "info" 5)
        Worlds.found 0.
Proof.
  apply (network_retry_ignored Examples.conf "a.png" None false None None "info" 0 5
           Worlds.found 0); lia.
Defined.

(** X15. A template path without a known extension, for which none of the
    files [.png], [.jpg], [.jpeg] exists: the call logs the warning and
    raises a [ValueError] without a message, and it has then opened no file
    and not reached the service. Here for a call with a reference picture,
    where the calls made are exactly these five. *)
Theorem missing_template_value_error conf image_path rate multiple p screen_bbox
    log_level network_retry (w : world) n rate' :
  p <> "" ->
  effective_rate conf rate = ok rate' ->
  let path := w _ n (Expanduser image_path) in
  endswith path ".png" || endswith path ".jpg" || endswith path ".jpeg" = false ->
  w _ (n + 1)%nat (PathExists (path ++ ".png")) = false ->
  w _ (n + 2)%nat (PathExists (path ++ ".jpg")) = false ->
  w _ (n + 3)%nat (PathExists (path ++ ".jpeg")) = false ->
  run (_match_image_by_opencv conf image_path rate multiple (Some p) screen_bbox
         log_level network_retry) w n
  = (throw (ValueError ""),
     [Event (Expanduser image_path);
      Event (PathExists (path ++ ".png"));
      Event (PathExists (path ++ ".jpg"));
      Event (PathExists (path ++ ".jpeg"));
      Event (LoggerWarning
        "The image format is not supported. Please confirm your image_path again")]).
Proof.
  intros Hp Hrate path Hext Hpng Hjpg Hjpeg.
  destruct p as [|c p]; [contradiction|].
  unfold _match_image_by_opencv.
  assert (Hr : (match rate with
                | None => (f <- lift (to_float (IMAGE_RATE conf)) ;; Ret (PyFloat f))%prog
                | Some r => Ret r
                end : prog ioE num) = Ret rate').
  { unfold effective_rate in Hrate. destruct rate as [r|].
    - injection Hrate as ->. reflexivity.
    - destruct (to_float (IMAGE_RATE conf)) as [e|f]; cbn [rbind ok] in Hrate;
        [discriminate|]. injection Hrate as <-. reflexivity. }
  rewrite Hr. cbn [pbind run]. fold path. rewrite Hext. cbn [negb pbind run].
  replace (S n) with (n + 1)%nat by lia. rewrite Hpng. cbn [pbind run].
  replace (S (n + 1)) with (n + 2)%nat by lia. rewrite Hjpg. cbn [pbind run].
  replace (S (n + 2)) with (n + 3)%nat by lia. rewrite Hjpeg. cbn [pbind run].
  reflexivity.
Qed.

Lemma missing_template_value_error_witness :
  run (_match_image_by_opencv Examples.conf "button" None false (Some "/tmp/big.png")
         None "info" 1) Worlds.bare 0
  = (throw (ValueError ""),
     [Event (Expanduser "button");
      Event (PathExists "button.png");
      Event (PathExists "button.jpg");
      Event (PathExists "button.jpeg");
      Event (LoggerWarning
        "The image format is not supported. Please confirm your image_path again")]).
Proof.
  apply (missing_template_value_error Examples.conf "button" None false "/tmp/big.png"
           None "info" 1 Worlds.bare 0 (PyFloat Examples.f_09)).
  - discriminate.
  - reflexivity.
  - reflexivity.
  - reflexivity.
  - reflexivity.
  - reflexivity.
Defined.

(** X16. The first attempt decides when it can: if the first matching call
    for the first template returns a truthy value, the search returns that
    value at once; if it raises, the search raises the same exception
    unchanged. In both cases the search has read the clock once, made the
    calls of that attempt and nothing else (no pause, no further template). *)
Theorem first_attempt_decides conf element rest rate multiple picture_abspath screen_bbox
    log_level network_retry pause timeout max_match_number w n retry_number rate' r tr :
  to_int (num_or max_match_number (MAX_MATCH_NUMBER conf)) = ok retry_number ->
  0 <= retry_number ->
  effective_rate conf rate = ok rate' ->
  run (_match_image_by_opencv conf element (Some rate') multiple picture_abspath
         screen_bbox log_level (int_or network_retry (NETWORK_RETRY conf))) w (S n)
  = (r, tr) ->
  match r with
  | inr v => truthy v = true
  | inl _ => True
  end ->
  run (find_image conf (element :: rest) rate multiple picture_abspath screen_bbox
         log_level network_retry pause timeout max_match_number) w n
  = (r, Event TimeTime :: tr).
Proof.
  intros Hretry Hpos Hrate Hm Hr.
  unfold find_image. rewrite Hretry. cbn [lift ok pbind].
  destruct (Z.ltb_spec retry_number 0) as [?|_]; [lia|].
  assert (Hrp : (match rate with
                 | None => (f <- lift (to_float (IMAGE_RATE conf)) ;; Ret (PyFloat f))%prog
                 | Some r => Ret r
                 end : prog ioE num) = Ret rate').
  { unfold effective_rate in Hrate. destruct rate as [r0|].
    - injection Hrate as ->. reflexivity.
    - destruct (to_float (IMAGE_RATE conf)) as [e|f]; cbn [rbind ok] in Hrate;
        [discriminate|]. injection Hrate as <-. reflexivity. }
  rewrite Hrp. cbn [pbind]. rewrite run_reraise.
  destruct (range_first retry_number Hpos) as [l ->].
  cbn [pfor_ctl pbind run].
  rewrite !run_bind. rewrite Hm.
  destruct r as [e|v]; [reflexivity|].
  rewrite Hr. cbn [negb run ok]. rewrite !app_nil_r. reflexivity.
Qed.

Lemma first_attempt_decides_witness :
  run (find_image Examples.conf ["a.png"; "b"] None false None None "info" None None None
         None) Worlds.found 0
  = (ok (PyPoint 3 4),
     Event TimeTime
     :: snd (run (_match_image_by_opencv Examples.conf "a.png"
                    (Some (PyFloat Examples.f_09)) false None None "info" 1)
                 Worlds.found 1)).
Proof.
  apply (first_attempt_decides Examples.conf "a.png" ["b"] None false None None "info"
           None None None None Worlds.found 0 2 (PyFloat Examples.f_09)).
  - reflexivity.
  - lia.
  - reflexivity.
  - vm_compute. reflexivity.
  - reflexivity.
Defined.

End ServiceCalls.

(** * The remaining methods of [ImageCenter] *)

Module AuxFacts.
Import PyNum ImageCenter Polling Observed Logic ObservedFacts FindImageFacts.
Import ImageCenterAux AuxObserved.
Local Open Scope string_scope.

Lemma exec_bind {E A B} (p : prog E A) (f : A -> prog E B) w : forall n,
  exec (pbind p f) w n
  = match exec p w n with
    | (inr a, tr) =>
        let '(r, tr') := exec (f a) w (n + List.length tr)%nat in (r, (tr ++ tr')%list)
    | (inl e, tr) => (inl e, tr)
    end.
Proof.
  induction p as [a|e|X ev k IH]; intros n; cbn [pbind exec ok throw].
  - rewrite Nat.add_0_r. destruct (exec (f a) w n). reflexivity.
  - reflexivity.
  - rewrite IH. destruct (exec (k (w X n ev)) w (S n)) as [[e|a] tr].
    + reflexivity.
    + cbn [List.length]. replace (n + S (List.length tr))%nat
        with (S n + List.length tr)%nat by lia.
      destruct (exec (f a) w (S n + List.length tr)). reflexivity.
Qed.

Lemma exec_pexcept {E A} cls (p : prog E A) (h : exn -> prog E A) w : forall n,
  exec (pexcept cls p h) w n
  = match exec p w n with
    | (inr a, tr) => (inr a, tr)
    | (inl e, tr) =>
        if cls e : bool then
          let '(r, tr') := exec (h e) w (n + List.length tr)%nat in (r, (tr ++ tr')%list)
        else (inl e, tr)
    end.
Proof.
  induction p as [a|e|X ev k IH]; intros n; cbn [pexcept exec ok throw].
  - reflexivity.
  - destruct (cls e); cbn [exec throw]; [|reflexivity].
    rewrite Nat.add_0_r. destruct (exec (h e) w n). reflexivity.
  - rewrite IH. destruct (exec (k (w X n ev)) w (S n)) as [[e|a] tr]; [|reflexivity].
    destruct (cls e); [|reflexivity].
    cbn [List.length]. replace (n + S (List.length tr))%nat
      with (S n + List.length tr)%nat by lia.
    destruct (exec (h e) w (S n + List.length tr)). reflexivity.
Qed.

(** A program of [ImageCenter] inside these methods runs as it does alone. *)
Lemma exec_embed {A} (p : prog ioE A) (w : env auxE) : forall n,
  exec (embed p) w n
  = (fst (run p (core_env w) n), map of_event (snd (run p (core_env w) n))).
Proof.
  induction p as [a|e|X ev k IH]; intros n; cbn [embed exec run].
  - reflexivity.
  - reflexivity.
  - rewrite IH. change (core_env w X n ev) with (w X n (Core ev)).
    destruct (run (k (w X n (Core ev))) (core_env w) (S n)). reflexivity.
Qed.

Lemma core_events_of tr : core_events (map of_event tr) = tr.
Proof.
  unfold core_events. induction tr as [|[X ev] tr IH]; cbn [map flat_map of_event app].
  - reflexivity.
  - rewrite IH. reflexivity.
Qed.

Lemma meets_embed {A} (P : event -> Prop) (g : event -> bool) (p : prog ioE A) :
  forall k (Q : res A -> Prop),
  meets (fun c => P (to_event c)) (fun c => g (to_event c)) k Q p ->
  meets (on_core P) (is_core g) k Q (embed p).
Proof.
  induction p as [a|e|X ev kont IH]; intros k Q H; cbn [meets embed] in *.
  - exact H.
  - exact H.
  - destruct H as (HP & Hg & Hk). split; [exact HP|]. split; [exact Hg|].
    intros x. apply IH. apply Hk.
Qed.

Lemma count_core (g : event -> bool) tr :
  List.length (filter g (core_events tr)) = count (is_core g) tr.
Proof.
  unfold count, core_events.
  induction tr as [|[X ev] tr IH]; cbn [flat_map filter]; [reflexivity|].
  destruct ev; cbn [app filter is_core]; try exact IH.
  destruct (g (Event ev)); cbn [List.length]; congruence.
Qed.

Lemma Forall_core (P : event -> Prop) tr :
  Forall (on_core P) tr -> Forall P (core_events tr).
Proof.
  unfold core_events. induction 1 as [|[X ev] tr H _ IH]; cbn [flat_map].
  - constructor.
  - destruct ev; cbn [app]; try exact IH. constructor; [exact H|exact IH].
Qed.

End AuxFacts.

Module ColorFacts.
Import PyNum ImageCenterAux AuxObserved.

Lemma unpack3_three p : List.length p = 3%nat -> unpack3 p = ok (rgb_of p).
Proof.
  destruct p as [|r [|g [|b [|a p]]]]; cbn [List.length]; intros H; try discriminate.
  reflexivity.
Qed.

Lemma unpack3_tuple p :
  List.length p <> 3%nat -> List.length p <> 1%nat ->
  exists e, unpack3 p = throw e /\ is_ValueError e.
Proof.
  destruct p as [|r [|g [|b [|a p]]]]; cbn [List.length]; intros H3 H1;
    try contradiction; eexists; (split; [reflexivity|]); eexists; reflexivity.
Qed.

Lemma unpack3_number p : List.length p = 1%nat -> unpack3 p = throw TypeError.
Proof.
  destruct p as [|r [|g p]]; cbn [List.length]; intros H; try discriminate. reflexivity.
Qed.

Lemma unpack3_other p :
  List.length p <> 3%nat -> exists e, unpack3 p = throw e /\ unpack_error e.
Proof.
  intros H3. destruct (Nat.eq_dec (List.length p) 1) as [H1|H1].
  - exists TypeError. split; [apply unpack3_number; exact H1|left; reflexivity].
  - destruct (unpack3_tuple p H3 H1) as (e & He & Hv). exists e.
    split; [exact He|right; exact Hv].
Qed.

Lemma colors_eq image :
  colors image
  = for_each (range (width image)) [] (fun _x _color =>
      for_each (range (height image)) _color (step image _x)).
Proof. reflexivity. Qed.

Lemma getitem_inside image x y :
  0 <= x < width image -> 0 <= y < height image ->
  getitem (load image) x y = ok (pixels image x y).
Proof.
  intros Hx Hy. unfold getitem, load. cbn [xsize ysize data].
  destruct (Z.ltb_spec x 0); [lia|]. destruct (Z.ltb_spec y 0); [lia|].
  destruct (Z.leb_spec 0 x); [|lia]. destruct (Z.ltb_spec x (width image)); [|lia].
  destruct (Z.leb_spec 0 y); [|lia]. destruct (Z.ltb_spec y (height image)); [|lia].
  reflexivity.
Qed.

Lemma column_ok image x : three_bands image -> 0 <= x < width image ->
  forall ys acc, (forall y, In y ys -> 0 <= y < height image) ->
  for_each ys acc (step image x)
  = ok (acc ++ map (fun y => rgb_of (pixels image x y)) ys)%list.
Proof.
  intros H3 Hx. induction ys as [|y ys IH]; intros acc Hys; cbn [for_each map].
  - rewrite app_nil_r. reflexivity.
  - unfold step at 1. rewrite getitem_inside by (auto; apply Hys; left; reflexivity).
    cbn [rbind ok]. rewrite unpack3_three by (apply H3; auto; apply Hys; left; reflexivity).
    cbn [rbind ok]. rewrite IH by (intros; apply Hys; right; assumption).
    rewrite <- app_assoc. reflexivity.
Qed.

Lemma columns_ok image : three_bands image ->
  forall xs acc, (forall x, In x xs -> 0 <= x < width image) ->
  for_each xs acc (fun _x _color => for_each (range (height image)) _color (step image _x))
  = ok (acc ++ flat_map (fun x => map (fun y => rgb_of (pixels image x y))
                                   (range (height image))) xs)%list.
Proof.
  intros H3. induction xs as [|x xs IH]; intros acc Hxs; cbn [for_each flat_map].
  - rewrite app_nil_r. reflexivity.
  - rewrite (column_ok image x H3) by
      (try (apply Hxs; left; reflexivity); intros y Hy; apply range_In in Hy; exact Hy).
    cbn [rbind ok]. rewrite IH by (intros; apply Hxs; right; assumption).
    rewrite <- app_assoc. reflexivity.
Qed.

(** The colours of a picture of three bands, column after column. *)
Lemma colors_three_bands image : three_bands image ->
  colors image
  = ok (flat_map (fun x => map (fun y => rgb_of (pixels image x y)) (range (height image)))
          (range (width image))).
Proof.
  intros H3. rewrite colors_eq.
  rewrite (columns_ok image H3) by (intros x Hx; apply range_In in Hx; exact Hx).
  reflexivity.
Qed.

Lemma flat_map_uniform_length {A B} (f : A -> list B) m l :
  (forall a, In a l -> List.length (f a) = m) ->
  List.length (flat_map f l) = (List.length l * m)%nat.
Proof.
  intros H. induction l as [|a l IH]; cbn [flat_map List.length]; [reflexivity|].
  rewrite length_app, H by (left; reflexivity).
  rewrite IH by (intros; apply H; right; assumption). lia.
Qed.

Lemma flat_map_uniform_nth {A B} (f : A -> list B) m (d : B) (a0 : A) : forall l i j,
  (forall a, In a l -> List.length (f a) = m) ->
  (i < List.length l)%nat -> (j < m)%nat ->
  nth (i * m + j) (flat_map f l) d = nth j (f (nth i l a0)) d.
Proof.
  induction l as [|a l IH]; intros i j H Hi Hj; cbn [List.length] in Hi; [lia|].
  cbn [flat_map]. destruct i as [|i].
  - cbn [Nat.mul Nat.add nth]. rewrite app_nth1 by (rewrite H by (left; reflexivity); lia).
    reflexivity.
  - rewrite app_nth2 by (rewrite H by (left; reflexivity); lia).
    rewrite H by (left; reflexivity).
    replace (S i * m + j - m)%nat with (i * m + j)%nat by lia.
    cbn [nth]. apply IH; [intros; apply H; right; assumption|lia|lia].
Qed.

Lemma range_nth i n : (i < Z.to_nat n)%nat -> nth i (range n) 0 = Z.of_nat i.
Proof.
  intros Hi. unfold range.
  change 0 with (Z.of_nat 0). rewrite map_nth. rewrite seq_nth by exact Hi. reflexivity.
Qed.

Lemma range_len n : List.length (range n) = Z.to_nat n.
Proof. unfold range. rewrite length_map, length_seq. reflexivity. Qed.

(** A loop raises an exception of the kind [Pe] when one pass always does
    and no pass raises anything else. *)
Lemma for_each_raises_kind {X S} (Pe : exn -> Prop) (body : X -> S -> res S) :
  forall l st,
  (forall x st, In x l ->
     (exists st', body x st = ok st') \/ (exists e, body x st = throw e /\ Pe e)) ->
  (exists x, In x l /\ forall st, exists e, body x st = throw e /\ Pe e) ->
  exists e, for_each l st body = throw e /\ Pe e.
Proof.
  induction l as [|x l IH]; intros st Hall (x0 & Hin & Hx0); [destruct Hin|].
  cbn [for_each].
  destruct (Hall x st (or_introl eq_refl)) as [(st' & Hb) | (e & Hb & He)].
  - rewrite Hb. cbn [rbind ok]. destruct Hin as [<- | Hin].
    + destruct (Hx0 st) as (e & He & _). rewrite Hb in He. discriminate.
    + apply IH.
      * intros y s Hy. apply Hall. right. exact Hy.
      * exists x0. split; assumption.
  - rewrite Hb. exists e. split; [reflexivity|exact He].
Qed.

Lemma for_each_ok_or_kind {X S} (Pe : exn -> Prop) (body : X -> S -> res S) :
  forall l st,
  (forall x st, In x l ->
     (exists st', body x st = ok st') \/ (exists e, body x st = throw e /\ Pe e)) ->
  (exists st', for_each l st body = ok st')
  \/ (exists e, for_each l st body = throw e /\ Pe e).
Proof.
  induction l as [|x l IH]; intros st Hall; cbn [for_each].
  - left. eexists. reflexivity.
  - destruct (Hall x st (or_introl eq_refl)) as [(st' & Hb) | (e & Hb & He)]; rewrite Hb.
    + cbn [rbind ok]. apply IH. intros y s Hy. apply Hall. right. exact Hy.
    + right. exists e. split; [reflexivity|exact He].
Qed.

Section Kind.

(** The kind of exception the unpacking raises on this picture. *)
Variables (image : Image) (Pe : exn -> Prop).

Hypothesis Hkind : forall x y, 0 <= x < width image -> 0 <= y < height image ->
  List.length (pixels image x y) <> 3%nat ->
  exists e, unpack3 (pixels image x y) = throw e /\ Pe e.

Lemma step_cases x y st :
  0 <= x < width image -> 0 <= y < height image ->
  (exists st', step image x y st = ok st')
  \/ (exists e, step image x y st = throw e /\ Pe e).
Proof.
  intros Hx Hy. unfold step. rewrite getitem_inside by assumption. cbn [rbind ok].
  destruct (Nat.eq_dec (List.length (pixels image x y)) 3) as [H3|H3].
  - left. rewrite unpack3_three by exact H3. eexists. reflexivity.
  - right. destruct (Hkind x y Hx Hy H3) as (e & -> & He). exists e.
    split; [reflexivity|exact He].
Qed.

(** A pixel that has not three bands makes the loops raise. *)
Lemma colors_other_bands x y :
  0 <= x < width image -> 0 <= y < height image ->
  List.length (pixels image x y) <> 3%nat ->
  exists e, colors image = throw e /\ Pe e.
Proof.
  intros Hx Hy H3. rewrite colors_eq.
  apply (for_each_raises_kind Pe
           (fun _x _color => for_each (range (height image)) _color (step image _x))
           (range (width image)) []).
  - intros x' st Hx'. apply range_In in Hx'.
    apply for_each_ok_or_kind. intros y' st' Hy'. apply range_In in Hy'.
    apply step_cases; assumption.
  - exists x. split; [apply range_In; exact Hx|]. intros st.
    apply for_each_raises_kind.
    + intros y' st' Hy'. apply range_In in Hy'. apply step_cases; assumption.
    + exists y. split; [apply range_In; exact Hy|]. intros st'.
      unfold step. rewrite getitem_inside by assumption. cbn [rbind ok].
      destruct (Hkind x y Hx Hy H3) as (e & -> & He). exists e.
      split; [reflexivity|exact He].
Qed.

End Kind.

End ColorFacts.

Module DuringFacts.
Import PyNum ImageCenter Polling Observed Logic ObservedFacts FindImageFacts.
Import ImageCenterAux AuxObserved AuxFacts ColorFacts.
Local Open Scope string_scope.

(** A loop with [break]: each pass within [k] and keeping [J], which counts
    the passes. *)
Lemma meets_pfor_break {E X St} (P : obs E -> Prop) (f : obs E -> bool)
    (J : St -> nat -> Prop) (Qe : exn -> Prop) (body : X -> St -> prog E (St * bool)) k :
  forall l st i,
  J st i ->
  (forall x st i, In x l -> J st i ->
     meets P f k (fun r => match r with
                           | inr sb => J (fst sb) (S i)
                           | inl e => Qe e
                           end) (body x st)) ->
  meets P f (List.length l * k)
    (fun r => match r with
              | inr st' => exists j, (i <= j <= i + List.length l)%nat /\ J st' j
              | inl e => Qe e
              end)
    (pfor_break l st body).
Proof.
  induction l as [|x l IH]; intros st i HJ Hbody; cbn [pfor_break List.length].
  - cbn [meets ok]. exists i. split; [lia|exact HJ].
  - replace (S (List.length l) * k)%nat with (k + List.length l * k)%nat by lia.
    eapply meets_bind.
    + apply Hbody; [left; reflexivity|exact HJ].
    + intros [st' b] HJ'. cbn [fst snd ok] in *. destruct b.
      * cbn [meets ok]. exists (S i). split; [lia|exact HJ'].
      * eapply meets_weaken; [apply (IH st' (S i) HJ')|lia|].
        -- intros y s j Hy. apply Hbody. right. exact Hy.
        -- intros [e|st'']; [auto|]. intros (j & Hj & HJj). exists j. split; [lia|exact HJj].
    + intros e He. exact He.
Qed.

(** A weaker condition on the calls. *)
Lemma meets_calls {E A} (P P' : obs E -> Prop) (f : obs E -> bool) (p : prog E A) :
  (forall c, P c -> P' c) ->
  forall k (Q : res A -> Prop), meets P f k Q p -> meets P' f k Q p.
Proof.
  intros HP. induction p as [a|e|X ev kont IH]; intros k Q H; cbn [meets] in *; auto.
  destruct H as (H1 & H2 & H3). split; [apply HP; exact H1|]. split; [exact H2|].
  intros x. apply IH. apply H3.
Qed.

Lemma in_during_pic_name float_str t i : in_during (pic_name float_str t i).
Proof. eexists. unfold pic_name. reflexivity. Qed.

Section Matching.

Variables (P : event -> Prop) (g : event -> bool) (ka : nat) (Qa : res pyval -> Prop).
Variables (P' : obs auxE -> Prop) (g' : obs auxE -> bool).
Variables (conf : Conf) (image_path : string) (rate : option num).

Hypothesis HP' : forall X (ev : ioE X), P (Event ev) -> P' (Obs (Core ev)).
Hypothesis Hg' : forall X (ev : ioE X), g' (Obs (Core ev)) = g (Event ev).
Hypothesis Hmatch : forall pic_path, in_during pic_path ->
  meets (fun c => P (to_event c)) (fun c => g (to_event c)) ka Qa
    (_match_image_by_opencv conf image_path rate false (Some pic_path) None "info" 1).

Lemma meets_embed_as {A} (p : prog ioE A) :
  forall k (Q : res A -> Prop),
  meets (fun c => P (to_event c)) (fun c => g (to_event c)) k Q p ->
  meets P' g' k Q (embed p).
Proof.
  induction p as [a|e|X ev kont IH]; intros k Q H; cbn [meets embed] in *.
  - exact H.
  - exact H.
  - destruct H as (H1 & H2 & H3). rewrite Hg'. cbn [to_event] in *.
    split; [apply HP'; exact H1|]. split; [exact H2|].
    intros x. apply IH. apply H3.
Qed.

(** The matching phase: one matching call per picture at most. *)
Lemma match_pictures_meets pics :
  Forall in_during pics ->
  meets P' g' (List.length pics * ka)
    (fun r => forall v, r = ok v -> truthy v = true /\ Qa (ok v))
    (match_pictures conf image_path rate pics).
Proof.
  intros Hall. unfold match_pictures.
  destruct pics as [|pic pics']; [cbn [meets]; discriminate|].
  set (pics := pic :: pics') in *.
  eapply meets_bind_l
    with (Q1 := fun r => forall v, r = ok (Some v) -> truthy v = true /\ Qa (ok v)).
  - eapply meets_pfor_ctl
      with (Qb := fun r => forall v, r = ok (Return v) -> truthy v = true /\ Qa (ok v)).
    + intros pic_path Hin.
      eapply meets_bind_l with (Q1 := Qa).
      * apply meets_embed_as. apply Hmatch.
        rewrite Forall_forall in Hall. apply Hall. exact Hin.
      * intros res HQ. destruct (truthy res) eqn:Ht; cbn [meets].
        -- intros v Hv. injection Hv as <-. split; assumption.
        -- discriminate.
      * discriminate.
    + discriminate.
    + intros v Hv v' Hv'. injection Hv' as <-. apply Hv. reflexivity.
    + discriminate.
  - intros [res|] Hr; cbn [meets].
    + intros v Hv. injection Hv as <-. apply Hr. reflexivity.
    + discriminate.
  - discriminate.
Qed.

End Matching.

Section During.

Variables (P : event -> Prop) (g : event -> bool) (kp ka : nat) (Qa : res pyval -> Prop).
Variables (float_str : float -> string) (conf : Conf) (image_path : string)
  (screen_time : num) (rate : option num) (pause : option num) (max_range : Z).

Hypothesis Htime : P (Event TimeTime) /\ g (Event TimeTime) = false.
Hypothesis Hsleep : forall secs, P (Event (TimeSleep secs)) /\ g (Event (TimeSleep secs)) = false.
Hypothesis Hgrab : forall path, in_during path ->
  P (Event (GrabSave path)) /\ (g (Event (GrabSave path)) = true -> (1 <= kp)%nat).
Hypothesis Hmatch : forall pic_path, in_during pic_path ->
  meets (fun c => P (to_event c)) (fun c => g (to_event c)) ka Qa
    (_match_image_by_opencv conf image_path rate false (Some pic_path) None "info" 1).

(** The capturing phase: at most [max_range] pictures, all in the
    directory. *)
Lemma take_pictures_meets start_time :
  meets (on_core P) (is_core g) (Z.to_nat max_range * kp)
    (fun r => forall pics, r = ok pics ->
       (List.length pics <= Z.to_nat max_range)%nat /\ Forall in_during pics)
    (take_pictures float_str screen_time pause max_range start_time).
Proof.
  destruct Htime as [HPt Hgt].
  unfold take_pictures.
  eapply meets_weaken.
  - apply (meets_pfor_break (on_core P) (is_core g)
             (fun pics i => List.length pics = i /\ Forall in_during pics) (fun _ => True))
      with (i := 0%nat) (k := kp).
    + split; [reflexivity|constructor].
    + intros i pics j _ [Hlen Hall].
      apply meets_vis_free; [exact HPt|exact Hgt|]. intros t.
      destruct (Hgrab (pic_name float_str t i) (in_during_pic_name _ _ _)) as [HPg Hgg].
      unfold call. cbn [pbind meets]. split; [exact HPg|]. split; [exact Hgg|].
      intros [e|[]]; cbn [lift pbind meets]; [exact I|].
      assert (HJ : List.length (pics ++ [pic_name float_str t i]) = S j
                   /\ Forall in_during (pics ++ [pic_name float_str t i])).
      { split; [rewrite length_app; cbn [List.length]; lia|].
        apply Forall_app. split; [exact Hall|].
        constructor; [apply in_during_pic_name|constructor]. }
      split; [exact HPt|]. split; [cbn [is_core]; rewrite Hgt; discriminate|].
      intros now. cbn [is_core]. rewrite Hgt.
      eapply meets_weaken with (k := 0%nat); [|lia|intros r Hr; exact Hr].
      destruct (num_ge _ _); [cbn [meets fst]; exact HJ|].
      destruct pause as [secs|]; [|cbn [pbind meets fst]; exact HJ].
      destruct (num_truthy secs); [|cbn [pbind meets fst]; exact HJ].
      destruct secs as [z|fl]; cbn [sleep_num].
      * unfold sleep. destruct (z <? 0)%Z; cbn [embed pbind meets]; [exact I|].
        destruct (Hsleep z) as [HPs Hgs]. cbn [is_core on_core]. rewrite Hgs.
        split; [exact HPs|]. split; [discriminate|]. intros _. exact HJ.
      * unfold call. cbn [pbind meets is_core on_core].
        split; [exact I|]. split; [discriminate|].
        intros [e|[]]; cbn [lift pbind meets]; [exact I|exact HJ].
  - rewrite range_len. lia.
  - intros [e|pics]; [discriminate|]. intros (j & Hj & Hlen & Hall) pics' Hp.
    injection Hp as <-. rewrite range_len in Hj. split; [lia|exact Hall].
Qed.

(** [get_during] as a whole. *)
Lemma get_during_meets :
  meets (on_core P) (is_core g) (Z.to_nat max_range * kp + Z.to_nat max_range * ka)
    (fun r => forall v, r = ok v -> truthy v = true /\ Qa (ok v))
    (get_during float_str conf image_path screen_time rate pause max_range).
Proof.
  destruct Htime as [HPt Hgt].
  unfold get_during.
  apply meets_vis_free; [exact I|reflexivity|]. intros _.
  unfold call. cbn [pbind]. apply meets_vis_free; [exact I|reflexivity|].
  intros [e|[]]; cbn [lift pbind]; [cbn [meets]; discriminate|].
  apply meets_vis_free; [exact HPt|exact Hgt|]. intros start_time.
  eapply meets_bind.
  - apply take_pictures_meets.
  - intros pics Hp. destruct (Hp pics eq_refl) as [Hlen Hall].
    eapply meets_weaken;
      [apply (match_pictures_meets P g ka Qa (on_core P) (is_core g) conf image_path rate)
      | |intros r Hr; exact Hr].
    + intros X ev H. exact H.
    + reflexivity.
    + exact Hmatch.
    + exact Hall.
    + apply Nat.mul_le_mono_r. exact Hlen.
  - discriminate.
Qed.

(** The same, about the runs. *)
Lemma get_during_run (w : env auxE) n :
  let r := exec (get_during float_str conf image_path screen_time rate pause max_range)
             w n in
  (forall v, fst r = ok v -> truthy v = true /\ Qa (ok v))
  /\ Forall P (core_events (snd r))
  /\ (List.length (filter g (core_events (snd r)))
      <= Z.to_nat max_range * kp + Z.to_nat max_range * ka)%nat.
Proof.
  cbv zeta.
  destruct (meets_exec _ _ _ _ _ get_during_meets w n) as (HQ & HF & Hc).
  split; [exact HQ|]. split; [apply Forall_core; exact HF|].
  rewrite count_core. exact Hc.
Qed.

End During.

(** A trace in two phases: calls that satisfy [P1], then calls that satisfy
    [P2]. *)
Lemma phased_bind {E A B} (P1 P2 : obs E -> Prop) (Q1 : res A -> Prop)
    (p : prog E A) (q : A -> prog E B) f1 k1 f2 k2 w n :
  meets P1 f1 k1 Q1 p ->
  (forall a, Q1 (ok a) -> meets P2 f2 k2 (fun _ => True) (q a)) ->
  phased P1 P2 (snd (exec (pbind p q) w n)).
Proof.
  intros Hp Hq. rewrite exec_bind.
  destruct (meets_exec _ _ _ _ _ Hp w n) as (HQ & HF & _).
  destruct (exec p w n) as [[e|a] tr]; cbn [fst snd] in *.
  - exists tr, []. rewrite app_nil_r. split; [reflexivity|]. split; [exact HF|constructor].
  - destruct (meets_exec _ _ _ _ _ (Hq a HQ) w (n + List.length tr)%nat) as (_ & HF2 & _).
    destruct (exec (q a) w (n + List.length tr)) as [r tr']; cbn [fst snd] in *.
    exists tr, tr'. split; [reflexivity|]. split; assumption.
Qed.

Lemma phased_cons {E} (P1 P2 : obs E -> Prop) c tr :
  P1 c -> phased P1 P2 tr -> phased P1 P2 (c :: tr).
Proof.
  intros Hc (tr1 & tr2 & -> & H1 & H2). exists (c :: tr1), tr2.
  split; [reflexivity|]. split; [constructor; assumption|exact H2].
Qed.

End DuringFacts.

Module AuxMethods.
Import PyNum ImageCenter Polling Observed Logic ObservedFacts FindImageFacts.
Import ImageCenterAux AuxObserved AuxFacts ColorFacts.
Local Open Scope string_scope.

(** X17. For a picture file that exists and whose pixels all have three
    bands, [find_image_color] returns the colours of all pixels column after
    column: [width * height] of them, the pixel [(x, y)] at the index
    [x * height + y]; it opens the picture once and leaves the [with]
    block. *)
Theorem find_image_color_lists_pixels widget (w : env auxE) n image :
  w _ n (Core (PathExists widget)) = true ->
  w _ (S n) (ImageOpen widget) = ok image ->
  three_bands image ->
  exists _color,
    exec (find_image_color widget) w n
    = (ok _color,
       [Obs (Core (PathExists widget)); Obs (ImageOpen widget); Obs (ImageExit image)])
    /\ List.length _color = (Z.to_nat (width image) * Z.to_nat (height image))%nat
    /\ forall x y, 0 <= x < width image -> 0 <= y < height image ->
         nth (Z.to_nat (x * height image + y)) _color (0, 0, 0)
         = rgb_of (pixels image x y).
Proof.
  intros He Ho H3.
  set (col := fun x => map (fun y => rgb_of (pixels image x y)) (range (height image))).
  assert (Hcol : forall a, In a (range (width image)) ->
                 List.length (col a) = Z.to_nat (height image)).
  { intros a _. unfold col. rewrite length_map. apply range_len. }
  exists (flat_map col (range (width image))). split; [|split].
  - unfold find_image_color. rewrite exec_pexcept. cbn [pbind exec].
    rewrite He. cbn [negb pbind call exec]. rewrite Ho. cbn [lift pbind ok].
    rewrite (colors_three_bands image H3). fold col. reflexivity.
  - rewrite (flat_map_uniform_length col (Z.to_nat (height image))) by exact Hcol.
    rewrite range_len. reflexivity.
  - intros x y Hx Hy.
    replace (Z.to_nat (x * height image + y))
      with (Z.to_nat x * Z.to_nat (height image) + Z.to_nat y)%nat by nia.
    rewrite (flat_map_uniform_nth col (Z.to_nat (height image)) (0, 0, 0) 0)
      by (try exact Hcol; rewrite ?range_len; lia).
    rewrite range_nth by lia. unfold col. rewrite Z2Nat.id by lia.
    rewrite (nth_indep _ (0, 0, 0) (rgb_of (pixels image x 0)))
      by (rewrite length_map, range_len; lia).
    rewrite (map_nth (fun y => rgb_of (pixels image x y))).
    rewrite range_nth by lia. rewrite Z2Nat.id by lia. reflexivity.
Qed.

Lemma find_image_color_lists_pixels_witness :
  exists _color,
    exec (find_image_color "a.png") (AuxWorlds.over Examples.quiet Examples.template) 0
    = (ok _color,
       [Obs (Core (PathExists "a.png")); Obs (ImageOpen "a.png");
        Obs (ImageExit Examples.template)])
    /\ List.length _color
       = (Z.to_nat (width Examples.template) * Z.to_nat (height Examples.template))%nat
    /\ forall x y, 0 <= x < width Examples.template -> 0 <= y < height Examples.template ->
         nth (Z.to_nat (x * height Examples.template + y)) _color (0, 0, 0)
         = rgb_of (pixels Examples.template x y).
Proof.
  apply (find_image_color_lists_pixels "a.png"
           (AuxWorlds.over Examples.quiet Examples.template) 0 Examples.template).
  - reflexivity.
  - reflexivity.
  - intros x y Hx Hy. cbn in Hx, Hy.
    assert (Hxx : x = 0 \/ x = 1) by lia. assert (Hyy : y = 0 \/ y = 1) by lia.
    destruct Hxx as [-> | ->], Hyy as [-> | ->]; reflexivity.
Defined.

(** X18. A picture with a pixel that has not three bands makes
    [find_image_color] raise from the unpacking, after it opened the picture
    and left the [with] block: [TypeError] for a picture of one band, whose
    pixels are bare numbers, and [ValueError] for a picture whose pixels are
    tuples of another length (an RGBA picture, say). *)
Theorem find_image_color_other_bands widget (w : env auxE) n image x y :
  w _ n (Core (PathExists widget)) = true ->
  w _ (S n) (ImageOpen widget) = ok image ->
  0 <= x < width image -> 0 <= y < height image ->
  List.length (pixels image x y) <> 3%nat ->
  exists e,
    exec (find_image_color widget) w n
    = (throw e,
       [Obs (Core (PathExists widget)); Obs (ImageOpen widget); Obs (ImageExit image)])
    /\ unpack_error e
    /\ (one_band image -> e = TypeError)
    /\ (tuples image -> is_ValueError e).
Proof.
  intros He Ho Hx Hy H3.
  destruct (colors_other_bands image unpack_error
              (fun x' y' _ _ H => unpack3_other _ H) x y Hx Hy H3) as (e & Hc & Hu).
  exists e. split; [|split; [exact Hu|split]].
  - unfold find_image_color. rewrite exec_pexcept. cbn [pbind exec].
    rewrite He. cbn [negb pbind call exec]. rewrite Ho. cbn [lift pbind ok].
    rewrite Hc. cbn [exec].
    destruct Hu as [-> | (msg & ->)]; reflexivity.
  - intros H1.
    destruct (colors_other_bands image (fun e' => e' = TypeError)
                (fun x' y' Hx' Hy' _ =>
                   ex_intro _ TypeError
                     (conj (unpack3_number _ (H1 x' y' Hx' Hy')) eq_refl))
                x y Hx Hy H3) as (e' & Hc' & ->).
    rewrite Hc in Hc'. injection Hc' as ->. reflexivity.
  - intros Ht.
    destruct (colors_other_bands image is_ValueError
                (fun x' y' Hx' Hy' H => unpack3_tuple _ H (Ht x' y' Hx' Hy'))
                x y Hx Hy H3) as (e' & Hc' & Hv).
    rewrite Hc in Hc'. injection Hc' as ->. exact Hv.
Qed.

Lemma find_image_color_other_bands_witness :
  (exists msg,
     exec (find_image_color "a.png") (AuxWorlds.over Examples.quiet AuxWorlds.rgba) 0
     = (throw (ValueError msg),
        [Obs (Core (PathExists "a.png")); Obs (ImageOpen "a.png");
         Obs (ImageExit AuxWorlds.rgba)]))
  /\ exec (find_image_color "a.png") (AuxWorlds.over Examples.quiet AuxWorlds.gray) 0
     = (throw TypeError,
        [Obs (Core (PathExists "a.png")); Obs (ImageOpen "a.png");
         Obs (ImageExit AuxWorlds.gray)]).
Proof.
  split.
  - destruct (find_image_color_other_bands "a.png"
                (AuxWorlds.over Examples.quiet AuxWorlds.rgba) 0 AuxWorlds.rgba 0 0)
      as (e & Hexec & _ & _ & Ht).
    + reflexivity.
    + reflexivity.
    + cbn. lia.
    + cbn. lia.
    + cbn. discriminate.
    + destruct Ht as [msg ->].
      * intros x y Hx Hy. cbn in Hx, Hy.
        assert (Hx0 : x = 0) by lia. assert (Hy0 : y = 0) by lia. subst x y.
        cbn. discriminate.
      * exists msg. exact Hexec.
  - destruct (find_image_color_other_bands "a.png"
                (AuxWorlds.over Examples.quiet AuxWorlds.gray) 0 AuxWorlds.gray 0 0)
      as (e & Hexec & _ & H1 & _).
    + reflexivity.
    + reflexivity.
    + cbn. lia.
    + cbn. lia.
    + cbn. discriminate.
    + rewrite H1 in Hexec; [exact Hexec|].
      intros x y Hx Hy. cbn in Hx, Hy.
      assert (Hx0 : x = 0) by lia. assert (Hy0 : y = 0) by lia. subst x y.
      reflexivity.
Defined.

(** X19. For a path at which no file exists [find_image_color] logs the
    error message and raises [TemplatePictureNotExist], which its
    [except Exception] clause does not catch; the picture is not opened. *)
Theorem find_image_color_missing widget (w : env auxE) n :
  w _ n (Core (PathExists widget)) = false ->
  exec (find_image_color widget) w n
  = (throw TemplatePictureNotExist,
     [Obs (Core (PathExists widget));
      Obs (LoggerError ("图片资源：" ++ widget ++ " 文件不存在!"))]).
Proof.
  intros He. unfold find_image_color. rewrite exec_pexcept. cbn [pbind exec].
  rewrite He. reflexivity.
Qed.

Lemma find_image_color_missing_witness :
  exec (find_image_color "a.png") (AuxWorlds.over Worlds.bare Examples.template) 0
  = (throw TemplatePictureNotExist,
     [Obs (Core (PathExists "a.png"));
      Obs (LoggerError ("图片资源：" ++ "a.png" ++ " 文件不存在!"))]).
Proof.
  apply (find_image_color_missing "a.png"
           (AuxWorlds.over Worlds.bare Examples.template) 0).
  reflexivity.
Defined.

(** X20. [img_exists] in terms of the search it runs, [find_image] for the
    one template at the effective rate: it returns [True] whenever the
    search returns a value, [False] (after logging the exception as a
    warning) exactly when the search raises [TemplateElementNotFound], and
    it lets every other exception through; it makes the calls of the
    search and no other but the warning. *)
Theorem img_exists_spec conf widget rate (w : env auxE) n rate' :
  effective_rate conf rate = ok rate' ->
  let search := run (find_image conf [widget] (Some rate') false None None "info"
                       None None None None) (core_env w) n in
  exec (img_exists conf widget rate) w n
  = match fst search with
    | inr _ => (ok (PyBool true), map of_event (snd search))
    | inl (TemplateElementNotFound args) =>
        (ok (PyBool false),
         (map of_event (snd search)
          ++ [Obs (LoggerWarningExc (TemplateElementNotFound args))])%list)
    | inl e => (throw e, map of_event (snd search))
    end.
Proof.
  intros Hrate search.
  assert (Hrp : (match rate with
                 | None => (f <- lift (to_float (IMAGE_RATE conf)) ;; Ret (PyFloat f))%prog
                 | Some r => Ret r
                 end : prog auxE num) = Ret rate').
  { unfold effective_rate in Hrate. destruct rate as [r0|].
    - injection Hrate as ->. reflexivity.
    - destruct (to_float (IMAGE_RATE conf)) as [e|f]; cbn [rbind ok] in Hrate;
        [discriminate|]. injection Hrate as <-. reflexivity. }
  unfold img_exists. rewrite Hrp. cbn [pbind].
  rewrite exec_pexcept, exec_bind, exec_embed. fold search.
  assert (Ht : forall v, fst search = ok v -> truthy v = true).
  { intros v Hv.
    apply (find_image_run (fun _ => True) (fun _ => false) 0 0 (fun _ => True)
             conf [widget] (Some rate') false None None "info" None None None None)
      with (w := core_env w) (n := n) (v := v).
    - intros. lia.
    - intros element rate'' _. apply meets_any.
    - split; [exact I|reflexivity].
    - intros secs. split; [exact I|reflexivity].
    - exact Hv. }
  destruct search as [[e|v] tr]; cbn [fst snd] in *.
  - destruct e; cbn [is_TemplateElementNotFound exec]; reflexivity.
  - cbn [exec]. rewrite (Ht v eq_refl). rewrite app_nil_r. reflexivity.
Qed.

Lemma img_exists_spec_witness :
  let search := run (find_image Examples.conf ["a.png"] (Some (PyFloat Examples.f_09)) false
                       None None "info" None None None None)
                    (core_env (AuxWorlds.over Examples.quiet Examples.template)) 0 in
  exec (img_exists Examples.conf "a.png" None)
       (AuxWorlds.over Examples.quiet Examples.template) 0
  = match fst search with
    | inr _ => (ok (PyBool true), map of_event (snd search))
    | inl (TemplateElementNotFound args) =>
        (ok (PyBool false),
         (map of_event (snd search)
          ++ [Obs (LoggerWarningExc (TemplateElementNotFound args))])%list)
    | inl e => (throw e, map of_event (snd search))
    end.
Proof.
  apply (img_exists_spec Examples.conf "a.png" None
           (AuxWorlds.over Examples.quiet Examples.template) 0 (PyFloat Examples.f_09)).
  reflexivity.
Defined.

End AuxMethods.

Module During.
Import PyNum ImageCenter Polling Observed Logic ObservedFacts FindImageFacts.
Import ImageCenterAux AuxObserved AuxFacts ColorFacts DuringFacts.
Local Open Scope string_scope.

(** A matching call with a reference picture makes no call of the capturing
    phase. *)
Lemma match_no_capturing conf image_path rate multiple c p screen_bbox log_level
    network_retry :
  meets (fun e => no_capturing (to_event e)) (fun e => is_capture (to_event e)) 0
    (fun _ => True)
    (_match_image_by_opencv conf image_path rate multiple (Some (String c p)) screen_bbox
       log_level network_retry).
Proof.
  unfold _match_image_by_opencv.
  first_step 0%nat; [walk ltac:(first [exact I | discriminate | lia])|].
  first_step 0%nat; [walk ltac:(first [exact I | discriminate | lia])|].
  first_step 0%nat; [walk ltac:(first [exact I | discriminate | lia])|].
  first_step 0%nat; [walk ltac:(first [exact I | discriminate | lia])|].
  destruct (range (network_retry + 1)) as [|x l]; cbn [pfor_ctl];
    walk ltac:(first [exact I | discriminate | lia]).
Qed.

Lemma match_no_capturing_free conf image_path rate multiple c p screen_bbox log_level
    network_retry :
  meets (fun e => no_capturing (to_event e)) (fun _ => false) 0 (fun _ => True)
    (_match_image_by_opencv conf image_path rate multiple (Some (String c p)) screen_bbox
       log_level network_retry).
Proof.
  unfold _match_image_by_opencv.
  first_step 0%nat; [walk ltac:(first [exact I | discriminate | lia])|].
  first_step 0%nat; [walk ltac:(first [exact I | discriminate | lia])|].
  first_step 0%nat; [walk ltac:(first [exact I | discriminate | lia])|].
  first_step 0%nat; [walk ltac:(first [exact I | discriminate | lia])|].
  destruct (range (network_retry + 1)) as [|x l]; cbn [pfor_ctl];
    walk ltac:(first [exact I | discriminate | lia]).
Qed.

Lemma in_during_cons path : in_during path -> exists c p, path = String c p.
Proof. intros [name ->]. unfold during_path. cbn [append]. eexists _, _. reflexivity. Qed.

(** X21. In every environment [get_during] takes at most [max_range]
    pictures, each with [pyscreenshot.grab] into [/tmp/youqu_during], and
    sends at most one match request and two uploads per picture; matching
    itself never captures the screen. *)
Theorem get_during_bounds float_str conf image_path screen_time rate pause max_range
    (w : env auxE) n :
  let tr := core_events (snd (exec (get_during float_str conf image_path screen_time rate
                                      pause max_range) w n)) in
  (captures tr <= Z.to_nat max_range)%nat
  /\ Forall during_capture tr
  /\ (match_attempts tr <= Z.to_nat max_range)%nat
  /\ (uploads tr <= 2 * Z.to_nat max_range)%nat.
Proof.
  cbv zeta. split; [|split; [|split]].
  - pose proof (get_during_run during_capture is_capture 1 0 (fun _ => True)
                  float_str conf image_path screen_time rate pause max_range) as H.
    unfold captures. etransitivity; [apply H|lia].
    + split; [exact I|reflexivity].
    + intros secs. split; [exact I|reflexivity].
    + intros path Hp. split; [exact Hp|]. intros _. lia.
    + intros pic Hp. destruct (in_during_cons pic Hp) as (c & p & ->).
      eapply meets_calls; [|apply match_no_capturing].
      intros [X ev]. destruct ev; cbn [to_event no_capturing during_capture]; auto;
        contradiction.
  - pose proof (get_during_run during_capture is_capture 1 0 (fun _ => True)
                  float_str conf image_path screen_time rate pause max_range) as H.
    apply H.
    + split; [exact I|reflexivity].
    + intros secs. split; [exact I|reflexivity].
    + intros path Hp. split; [exact Hp|]. intros _. lia.
    + intros pic Hp. destruct (in_during_cons pic Hp) as (c & p & ->).
      eapply meets_calls; [|apply match_no_capturing].
      intros [X ev]. destruct ev; cbn [to_event no_capturing during_capture]; auto;
        contradiction.
  - pose proof (get_during_run (fun _ => True) is_match 0 1 (fun _ => True)
                  float_str conf image_path screen_time rate pause max_range) as H.
    unfold match_attempts. etransitivity; [apply H|lia].
    + split; [exact I|reflexivity].
    + intros secs. split; [exact I|reflexivity].
    + intros path Hp. split; [exact I|]. discriminate.
    + intros pic Hp. apply match_once.
  - pose proof (get_during_run (fun _ => True) is_upload 0 2 (fun _ => True)
                  float_str conf image_path screen_time rate pause max_range) as H.
    unfold uploads. etransitivity; [apply H|lia].
    + split; [exact I|reflexivity].
    + intros secs. split; [exact I|reflexivity].
    + intros path Hp. split; [exact I|]. discriminate.
    + intros pic Hp. apply match_uploads.
Qed.

(** X22. [get_during] never returns a falsy value: a value it returns is a
    truthy answer of the matching service. *)
Theorem get_during_returns_truthy float_str conf image_path screen_time rate pause
    max_range (w : env auxE) n v :
  fst (exec (get_during float_str conf image_path screen_time rate pause max_range) w n)
  = ok v ->
  truthy v = true.
Proof.
  intros Hv.
  apply (get_during_run (fun _ => True) (fun _ => false) 0 0 (fun _ => True)
           float_str conf image_path screen_time rate pause max_range)
    with (w := w) (n := n) (v := v).
  - split; [exact I|reflexivity].
  - intros secs. split; [exact I|reflexivity].
  - intros path Hp. split; [exact I|]. discriminate.
  - intros pic Hp. apply meets_any.
  - exact Hv.
Qed.

Lemma get_during_returns_truthy_witness :
  fst (exec (get_during (fun _ => "0.0") Examples.conf "a.png" (PyInt 0) None None 3)
            (AuxWorlds.over Worlds.found Examples.template) 0) = ok (PyPoint 3 4)
  /\ truthy (PyPoint 3 4) = true.
Proof.
  assert (H : fst (exec (get_during (fun _ => "0.0") Examples.conf "a.png" (PyInt 0) None
                           None 3) (AuxWorlds.over Worlds.found Examples.template) 0)
              = ok (PyPoint 3 4)) by (vm_compute; reflexivity).
  split; [exact H|].
  apply (get_during_returns_truthy (fun _ => "0.0") Examples.conf "a.png" (PyInt 0) None
           None 3 (AuxWorlds.over Worlds.found Examples.template) 0 (PyPoint 3 4)).
  exact H.
Defined.

(** X23. With [max_range <= 0] no picture is taken and nothing is matched:
    after clearing and creating the directory and reading the clock the call
    raises a [ValueError] without message (or the exception of
    [os.makedirs]). *)
Theorem get_during_no_range float_str conf image_path screen_time rate pause max_range
    (w : env auxE) n :
  max_range <= 0 ->
  exec (get_during float_str conf image_path screen_time rate pause max_range) w n
  = match w _ (S n) (Makedirs during_path) with
    | inr _ =>
        (throw (ValueError ""),
         [Obs (OsSystem "rm -rf /tmp/youqu_during"); Obs (Makedirs during_path);
          Obs (Core TimeTime)])
    | inl e =>
        (throw e, [Obs (OsSystem "rm -rf /tmp/youqu_during"); Obs (Makedirs during_path)])
    end.
Proof.
  intros Hr. unfold get_during, take_pictures. rewrite (range_nil _ Hr).
  cbn [pfor_break pbind call exec].
  destruct (w (res unit) (S n) (Makedirs during_path)) as [e|[]]; reflexivity.
Qed.

Lemma get_during_no_range_witness :
  exec (get_during (fun _ => "0.0") Examples.conf "a.png" (PyInt 1) None None 0)
       (AuxWorlds.over Worlds.found Examples.template) 0
  = (throw (ValueError ""),
     [Obs (OsSystem "rm -rf /tmp/youqu_during"); Obs (Makedirs during_path);
      Obs (Core TimeTime)]).
Proof.
  apply (get_during_no_range (fun _ => "0.0") Examples.conf "a.png" (PyInt 1) None None 0
           (AuxWorlds.over Worlds.found Examples.template) 0).
  lia.
Defined.

(** X24. [get_during] works in two phases: the calls of a run are first
    calls that open or read no file and send nothing to the service, then
    calls of [ImageCenter]'s interface that neither capture the screen nor
    read the clock nor pause. So all pictures are taken before the first one
    is matched. *)
Theorem get_during_two_phases float_str conf image_path screen_time rate pause max_range
    (w : env auxE) n :
  phased (on_core no_matching) (only_core no_capturing)
    (snd (exec (get_during float_str conf image_path screen_time rate pause max_range)
            w n)).
Proof.
  unfold get_during. cbn [pbind call exec].
  destruct (w (res unit) (S n) (Makedirs during_path)) as [e|[]]; cbn [lift pbind exec].
  - exists [Obs (OsSystem ("rm -rf " ++ during_path)); Obs (Makedirs during_path)], [].
    split; [reflexivity|]. split; repeat constructor.
  - match goal with
    | |- context [exec (pbind ?p ?q) ?w0 ?n0] =>
        pose proof (phased_bind (on_core no_matching) (only_core no_capturing)
                      (fun r => forall pics, r = ok pics ->
                         (List.length pics <= Z.to_nat max_range)%nat
                         /\ Forall in_during pics)
                      p q (is_core (fun _ => false)) (Z.to_nat max_range * 0)
                      (fun _ => false) 0 w0 n0) as H
    end.
    destruct (exec (pbind _ _) w (S (S (S n)))) as [r tr]. cbn [snd] in *.
    apply phased_cons; [exact I|]. apply phased_cons; [exact I|].
    apply phased_cons; [exact I|]. apply H.
    + apply (take_pictures_meets no_matching (fun _ => false) 0).
      * split; [exact I|reflexivity].
      * intros secs. split; [exact I|reflexivity].
      * intros path Hp. split; [exact I|]. discriminate.
    + intros pics Hp. destruct (Hp pics eq_refl) as [_ Hall].
      eapply meets_weaken;
        [apply (match_pictures_meets no_capturing (fun _ => false) 0 (fun _ => True)
                  (only_core no_capturing) (fun _ => false) conf image_path rate)
        |lia|auto].
      * intros X ev H0. exact H0.
      * reflexivity.
      * intros pic Hpic. destruct (in_during_cons pic Hpic) as (c & p & ->).
        eapply meets_weaken with (k := 0%nat); [|lia|auto].
        apply match_no_capturing_free.
      * exact Hall.
Qed.

End During.

(** * Files and errors of a matching call *)

Module FilesFacts.
Import PyNum ImageCenter Polling Observed Logic ObservedFacts Files.
Local Open Scope string_scope.

Lemma after_exec {E A} (T : obs E -> bool) (Q : res A -> Prop) (p : prog E A) :
  after T Q p ->
  forall w n, existsb T (snd (exec p w n)) = true -> Q (fst (exec p w n)).
Proof.
  induction p as [a|e|X ev k IH]; intros H w n; cbn [after exec snd existsb] in *;
    try discriminate.
  destruct (exec (k (w X n ev)) w (S n)) as [r tr] eqn:Hk. cbn [fst snd existsb].
  destruct (T (Obs ev)) eqn:HT; cbn [orb].
  - intros _. pose proof (meets_exec _ _ _ _ _ (H (w X n ev)) w (S n)) as (HQ & _).
    rewrite Hk in HQ. exact HQ.
  - intros Htr. specialize (IH _ (H (w X n ev)) w (S n)). rewrite Hk in IH.
    apply IH. exact Htr.
Qed.

(** A first step without a call of the kind [T]. *)
Lemma after_bind_free {E A B} (T : obs E -> bool) (Q : res B -> Prop) f
    (p : prog E A) (q : A -> prog E B) :
  forall k (Q1 : res A -> Prop),
  meets (fun c => T c = false) f k Q1 p ->
  (forall a, Q1 (ok a) -> after T Q (q a)) ->
  after T Q (pbind p q).
Proof.
  induction p as [a|e|X ev kont IH]; intros k Q1 Hp Hq; cbn [meets pbind after] in *.
  - apply Hq. exact Hp.
  - exact I.
  - destruct Hp as (HT & _ & Hk). rewrite HT. intros x. eapply IH; [apply Hk|exact Hq].
Qed.

(** Without the count. *)
Lemma meets_uncounted {E A} (P : obs E -> Prop) (Q : res A -> Prop) (p : prog E A) :
  forall f k, meets P f k Q p -> meets P (fun _ => false) 0 Q p.
Proof.
  induction p as [a|e|X ev kont IH]; intros f k H; cbn [meets] in *; auto.
  destruct H as (HP & _ & Hk). split; [exact HP|]. split; [discriminate|].
  intros x. eapply IH. apply Hk.
Qed.

(** What holds of every run holds after any call. *)
Lemma after_meets {E A} (T : obs E -> bool) (Q : res A -> Prop) (p : prog E A) :
  forall f k, meets (fun _ => True) f k Q p -> after T Q p.
Proof.
  induction p as [a|e|X ev kont IH]; intros f k H; cbn [meets after] in *; auto.
  destruct H as (_ & _ & Hk). destruct (T (Obs ev)).
  - intros x. eapply meets_uncounted. apply Hk.
  - intros x. eapply IH. apply Hk.
Qed.

(** One pass through the retry loop: it returns or raises, and an [OSError]
    it raises is the converted one. *)
Lemma pass_converted conf screen_rb template_rb rate multiple :
  meets (fun _ => True) (fun _ => false) 0
    (fun r => (forall c, r = ok c -> exists v, c = Return v) /\ converted conf r)
    (pexcept is_OSError
       (payload <- call (FileRead screen_rb) ;;
        screen_path <- call (ImagePut (server_url conf) payload) ;;
        Vis (FileClose screen_rb) Ret ;;;
        payload <- call (FileRead template_rb) ;;
        tpl_path <- call (ImagePut (server_url conf) payload) ;;
        Vis (FileClose template_rb) Ret ;;;
        v <- call (MatchImageByOpencv (server_url conf) tpl_path screen_path rate
                     multiple) ;;
        Ret (Return v))
       (fun exc => Raise (OSError ("OCR 服务器链接失败. " ++ server_url conf))))%prog.
Proof.
  eapply (meets_pexcept _ _ _ _ _ 0 0
            (fun r => forall c, r = ok c -> exists v : pyval, c = Return v)).
  - walk ltac:(first [exact I | discriminate | lia
                      | match goal with
                        | H : ok _ = ok _ |- _ => injection H as <-; eexists; reflexivity
                        end]).
  - intros a Ha. split; [exact Ha|exact I].
  - intros e _ _. cbn [meets]. split; [discriminate|reflexivity].
  - intros e _ He. split; [discriminate|]. destruct e; try exact I. discriminate.
Qed.

(** Once a picture has been read for the upload, an [OSError] the call ends
    with is the converted one. *)
Lemma match_after_read conf image_path rate multiple picture_abspath screen_bbox
    log_level network_retry :
  after (fun c => is_read (to_event c)) (converted conf)
    (_match_image_by_opencv conf image_path rate multiple picture_abspath screen_bbox
       log_level network_retry).
Proof.
  unfold _match_image_by_opencv.
  eapply after_bind_free with (f := fun _ => false) (k := 0%nat) (Q1 := fun _ => True);
    [walk ltac:(first [exact I | discriminate | lia | reflexivity])|intros rate' _].
  eapply after_bind_free with (f := fun _ => false) (k := 0%nat) (Q1 := fun _ => True);
    [walk ltac:(first [exact I | discriminate | lia | reflexivity])|intros screen _].
  eapply after_bind_free with (f := fun _ => false) (k := 0%nat) (Q1 := fun _ => True);
    [walk ltac:(first [exact I | discriminate | lia | reflexivity])|intros path _].
  eapply after_bind_free with (f := fun _ => false) (k := 0%nat) (Q1 := fun _ => True);
    [walk ltac:(first [exact I | discriminate | lia | reflexivity])|intros tp _].
  destruct (tp =? ""); [exact I|].
  eapply after_bind_free with (f := fun _ => false) (k := 0%nat) (Q1 := fun _ => True);
    [walk ltac:(first [exact I | discriminate | lia | reflexivity])|intros screen_rb _].
  eapply after_bind_free with (f := fun _ => false) (k := 0%nat) (Q1 := fun _ => True);
    [walk ltac:(first [exact I | discriminate | lia | reflexivity])|intros template_rb _].
  apply after_meets with (f := fun _ => false) (k := 0%nat).
  eapply (meets_bind _ _ _ _ 0 0
            (fun r => (forall v, r = ok (Some v) -> True) /\ converted conf r)).
  - eapply meets_pfor_ctl_once
      with (Qb := fun r => (forall c, r = ok c -> exists v : pyval, c = Return v)
                           /\ converted conf r).
    + intros x _. apply pass_converted.
    + intros [H _]. destruct (H Next eq_refl) as [v Hv]. discriminate.
    + split; [auto|exact I].
    + intros v _. split; [auto|exact I].
    + intros e [_ He]. split; [discriminate|exact He].
  - intros [v|] _; cbn [meets]; exact I.
  - intros e [_ He]. exact He.
Qed.

End FilesFacts.

Module ServiceErrors.
Import PyNum ImageCenter Polling Observed Logic ObservedFacts Files FilesFacts.
Local Open Scope string_scope.

Lemma existsb_to_event (g : event -> bool) tr :
  existsb g (map to_event tr) = existsb (fun c => g (to_event c)) tr.
Proof. induction tr as [|c tr IH]; cbn [map existsb]; congruence. Qed.

(** X25. Once [_match_image_by_opencv] has read a picture for the upload,
    an [OSError] it ends with is the one of its [except] clause, with the
    message that names the server: every [OSError] of reading, uploading or
    matching is converted, in the first pass already. *)
Theorem server_error_converted conf image_path rate multiple picture_abspath screen_bbox
    log_level network_retry w n msg :
  existsb is_read (snd (run (_match_image_by_opencv conf image_path rate multiple
                               picture_abspath screen_bbox log_level network_retry) w n))
  = true ->
  fst (run (_match_image_by_opencv conf image_path rate multiple picture_abspath
              screen_bbox log_level network_retry) w n) = throw (OSError msg) ->
  msg = "OCR 服务器链接失败. " ++ server_url conf.
Proof.
  rewrite run_exec. cbn [fst snd]. rewrite existsb_to_event. intros Hread Hr.
  pose proof (after_exec _ _ _
                (match_after_read conf image_path rate multiple picture_abspath
                   screen_bbox log_level network_retry) w n Hread) as H.
  rewrite Hr in H. exact H.
Qed.

Lemma server_error_converted_witness :
  fst (run (_match_image_by_opencv Examples.conf "a.png" None false None None "info" 1)
           Files.offline 0)
  = throw (OSError "OCR 服务器链接失败. http://127.0.0.1:8889")
  /\ "OCR 服务器链接失败. http://127.0.0.1:8889"
     = "OCR 服务器链接失败. " ++ server_url Examples.conf.
Proof.
  assert (H : fst (run (_match_image_by_opencv Examples.conf "a.png" None false None None
                          "info" 1) Files.offline 0)
              = throw (OSError "OCR 服务器链接失败. http://127.0.0.1:8889"))
    by (vm_compute; reflexivity).
  split; [exact H|].
  apply (server_error_converted Examples.conf "a.png" None false None None "info" 1
           Files.offline 0 "OCR 服务器链接失败. http://127.0.0.1:8889").
  - vm_compute. reflexivity.
  - exact H.
Defined.

Lemma substring_all t : substring 0 (String.length t) t = t.
Proof.
  induction t as [|c t IH]; cbn [String.length]; [reflexivity|].
  cbn [substring]. rewrite IH. reflexivity.
Qed.

Lemma substring_append s t :
  substring (String.length s) (String.length t) (s ++ t) = t.
Proof.
  induction s as [|c s IH]; cbn [String.length append substring].
  - apply substring_all.
  - exact IH.
Qed.

Lemma length_append s t : String.length (s ++ t) = (String.length s + String.length t)%nat.
Proof. induction s as [|c s IH]; simpl; congruence. Qed.

Lemma endswith_append s t : endswith (s ++ t) t = true.
Proof.
  unfold endswith. rewrite length_append.
  replace (String.length s + String.length t - String.length t)%nat
    with (String.length s) by lia.
  rewrite substring_append, String.eqb_refl.
  destruct (Nat.leb_spec (String.length t) (String.length s + String.length t)); [|lia].
  reflexivity.
Qed.

(** With a reference picture, the files a matching call opens are that
    picture and files with a known extension. *)
Lemma match_opens conf image_path rate multiple c p screen_bbox log_level network_retry :
  meets (fun e => opens_only (String c p) (to_event e)) (fun _ => false) 0 (fun _ => True)
    (_match_image_by_opencv conf image_path rate multiple (Some (String c p)) screen_bbox
       log_level network_retry).
Proof.
  unfold _match_image_by_opencv.
  first_step 0%nat; [walk easy_leaf|].
  eapply (meets_bind _ _ _ _ 0 _ (fun r => r = ok (String c p)));
    [reflexivity | intros screen Hs; injection Hs as -> | intros e He; discriminate].
  first_step 0%nat; [walk easy_leaf|].
  match goal with |- context [endswith ?x ".png"] => rename x into path end.
  fold (has_extension path).
  eapply (meets_bind _ _ _ _ 0 _
            (fun r => forall tp, r = ok tp -> tp = "" \/ has_extension tp = true)).
  - destruct (has_extension path) eqn:Hext; cbn [negb].
    + cbn [meets]. intros tp Htp. injection Htp as <-. right. exact Hext.
    + walk ltac:(first [exact I | discriminate | lia
                        | match goal with
                          | H : ok _ = ok _ |- _ => injection H as <-
                          end;
                          first [left; reflexivity
                                | right; unfold has_extension;
                                  rewrite !endswith_append, ?orb_true_r; reflexivity]]).
  - intros tp Htp. destruct (Htp tp eq_refl) as [-> | Hext]; [cbn; exact I|].
    destruct (tp =? ""); [exact I|].
    destruct (range (network_retry + 1)) as [|x l]; cbn [pfor_ctl];
      walk ltac:(first [exact I | discriminate | lia
                        | left; reflexivity | right; exact Hext]).
  - intros; exact I.
Qed.

(** X26. With a reference picture, the only files [_match_image_by_opencv]
    opens are that picture and a template file whose name ends in [.png],
    [.jpg] or [.jpeg]: a template path without one of these extensions is
    never opened as it is. *)
Theorem template_has_extension conf image_path rate multiple p screen_bbox log_level
    network_retry w n :
  p <> "" ->
  Forall (opens_only p)
    (snd (run (_match_image_by_opencv conf image_path rate multiple (Some p) screen_bbox
                 log_level network_retry) w n)).
Proof.
  intros Hp. destruct p as [|c p]; [contradiction|].
  apply (meets_run (opens_only (String c p)) (fun _ => false) 0 (fun _ => True)).
  apply match_opens.
Qed.

Lemma template_has_extension_witness :
  Forall (opens_only "/tmp/big.png")
    (snd (run (_match_image_by_opencv Examples.conf "button" None false
                 (Some "/tmp/big.png") None "info" 1) Examples.quiet 0)).
Proof.
  apply (template_has_extension Examples.conf "button" None false "/tmp/big.png" None
           "info" 1 Examples.quiet 0).
  discriminate.
Defined.

End ServiceErrors.

(** * The calls of a search without a match *)

Module ExhaustionFacts.
Import PyNum ImageCenter Polling PollingFacts Observed Logic ObservedFacts Exhaustion.
Local Open Scope string_scope.












End ExhaustionFacts.

Module SearchFacts.
Import PyNum ImageCenter Polling PollingFacts Observed Logic ObservedFacts Exhaustion.
Import ExhaustionFacts.
Local Open Scope string_scope.

Section Counting.

Variables (w : world) (attempt : string -> prog ioE pyval) (secs : Z) (timeout : num).
Variable g : event -> bool.

Hypothesis Hsleep : g (Event (TimeSleep secs)) = false.
Hypothesis Htime : g (Event TimeTime) = false.






End Counting.



Section Exhausted.

Variables (conf : Conf) (widget : list string) (rate : option num) (multiple : bool)
  (picture_abspath : option string) (screen_bbox : option (list Z))
  (log_level : string) (network_retry : option Z)
  (pause timeout max_match_number : option num) (w : world).

Variables (retry_number secs : Z) (rate' : num).

Hypothesis Hretry :
  to_int (num_or max_match_number (MAX_MATCH_NUMBER conf)) = ok retry_number.
Hypothesis Hnonneg : 0 <= retry_number.
Hypothesis Hrate : effective_rate conf rate = ok rate'.
Hypothesis Hpause : to_int (num_or pause (PAUSE conf)) = ok secs.
Hypothesis Hsecs : 0 <= secs.

(** One attempt for [element]. *)
Let attempt (element : string) : prog ioE pyval :=
  _match_image_by_opencv conf element (Some rate') multiple picture_abspath
    screen_bbox log_level (int_or network_retry (NETWORK_RETRY conf)).

(** Every matching attempt comes back without a match. *)
Hypothesis Hnomatch : forall element n, In element widget ->
  exists v tr, run (attempt element) w n = (ok v, tr) /\ truthy v = false.

Let limit : num := num_or timeout (TIMEOUT conf).

(** One pass of the inner loop of [find_image]. *)
Let pass (element : string) (start_time : float) : prog ioE (ctl pyval) :=
  (locate <- attempt element ;;
   if negb (truthy locate) then
     secs <- lift (to_int (num_or pause (PAUSE conf))) ;;
     sleep secs ;;;
     end_time <- Vis TimeTime Ret ;;
     if num_gt (PyFloat (SFsub prec emax end_time start_time)) limit
     then Ret Break
     else Ret Next
   else Ret (Return locate))%prog.



(** The body of the outer loop of [find_image]. *)
Let template (element : string) : prog ioE (ctl pyval) :=
  (start_time <- Vis TimeTime Ret ;;
   r <- pfor_ctl (range (retry_number + 1)) (fun _ => pass element start_time) ;;
   match r with
   | Some locate => Ret (Return locate)
   | None => Ret Next
   end)%prog.



End Exhausted.

End SearchFacts.

Module PollingExhausted.
Import PyNum ImageCenterByRGB Placement RGBFacts ImageCenter Polling PollingFacts.
Import Exhaustion ExhaustionFacts SearchFacts.
Local Open Scope string_scope.



End PollingExhausted.
